(** * Steam methane reforming flowsheet with a Gibbs reactor

    A model of the notebook
    [idaes_examples/nb/unit_models/reactors/gibbs_reactor_src.ipynb].

    The notebook is a straight-line script over the Pyomo / IDAES
    modelling framework: it builds unit models, connects them with arcs,
    declares expressions, fixes and unfixes variables, sets bounds and calls
    a solver.  The model below keeps the script's own work executable: a
    Pyomo model is a store of variables, constraints, expressions,
    objectives and arcs; every notebook cell is a step on that store in an
    error monad (Python exceptions); the unit models, the initialisation
    routines and the solver, which the notebook only calls, are an interface
    ([Framework]) whose instances are inputs of the theorems.

    Numbers are exact rationals: the decimal literals of the notebook are
    read exactly. *)

From Stdlib Require Import ZArith QArith Qabs Qminmax Qfield Lia Lqa.
From stdpp Require Import base option list gmap sets strings.

Local Open Scope string_scope.
Local Open Scope list_scope.

(** ** Python exceptions and the error monad *)

Inductive exn : Type :=
| AssertionError
| AttributeError (name : string)
| RuntimeError (name : string)
| ValueError (name : string)
| NameError (name : string)
| FrameworkError (msg : string).

Inductive outcome (A : Type) : Type :=
| Ok (a : A)
| Raised (e : exn).
Arguments Ok {A} a.
Arguments Raised {A} e.

#[global] Instance outcome_ret : MRet outcome := λ A a, Ok a.
#[global] Instance outcome_bind : MBind outcome := λ A B k c,
  match c with
  | Ok a => k a
  | Raised e => Raised e
  end.

(** Sequencing of two steps on the same state; an exception of the first
    step ends the run. *)
Definition seq_step {S : Type} (c1 c2 : S → outcome S) : S → outcome S :=
  λ s, c1 s ≫= c2.
Infix ">=>" := seq_step (at level 65, right associativity).

(** [yields c s P]: the step [c] returns from [s], in a state where [P]
    holds. *)
Definition yields {S : Type} (c : S → outcome S) (s : S) (P : S → Prop) : Prop :=
  ∃ s', c s = Ok s' ∧ P s'.

(** ** Pyomo expressions *)

(** An expression tree.  [VarRef] and [ParamRef] are leaves that point to a
    variable or a parameter of the model; [Named] is a named [Expression]
    component used inside a larger expression. *)
Inductive expr : Type :=
| Num (q : Q)
| VarRef (name : string)
| ParamRef (name : string)
| Named (name : string) (body : expr)
| Sum (a b : expr)
| Diff (a b : expr)
| Prod (a b : expr).

(** [identify_variables]: the variables an expression mentions. *)
Fixpoint identify_variables (e : expr) : gset string :=
  match e with
  | Num _ | ParamRef _ => ∅
  | VarRef v => {[ v ]}
  | Named _ b => identify_variables b
  | Sum a b | Diff a b | Prod a b => identify_variables a ∪ identify_variables b
  end.

Fixpoint identify_params (e : expr) : gset string :=
  match e with
  | Num _ | VarRef _ => ∅
  | ParamRef p => {[ p ]}
  | Named _ b => identify_params b
  | Sum a b | Diff a b | Prod a b => identify_params a ∪ identify_params b
  end.

(** ** The model store *)

Record VarData : Type := mkVar {
  var_value : option Q;
  fixed : bool;
  lb : option Q;
  ub : option Q
}.

Inductive relation_kind : Type := Equality | Inequality.

Record ConstraintData : Type := mkCon {
  c_lhs : expr;
  c_kind : relation_kind;
  c_rhs : expr;
  c_active : bool
}.

Inductive sense : Type := minimize | maximize.

Record ObjectiveData : Type := mkObj {
  o_expr : expr;
  o_sense : sense;
  o_active : bool
}.

Record ArcData : Type := mkArc {
  source : string;
  destination : string;
  arc_active : bool
}.

#[global] Instance ArcData_eq_dec : EqDecision ArcData.
Proof. solve_decision. Defined.

(** [components] is the name space of the blocks (a second component of the
    same name replaces the first); [ports] are the ports of the unit models;
    constraints, expressions, objectives and arcs are kept in declaration
    order. *)
Record Model : Type := mkModel {
  components : gset string;
  ports : gset string;
  vars : gmap string VarData;
  params : gmap string Q;
  constraints : list (string * ConstraintData);
  expressions : list (string * expr);
  objectives : list (string * ObjectiveData);
  arcs : list (string * ArcData)
}.

Definition set_vars (m : Model) (vs : gmap string VarData) : Model :=
  mkModel (components m) (ports m) vs (params m) (constraints m)
          (expressions m) (objectives m) (arcs m).

(** ** Evaluating expressions: [value] *)

(** The value of a variable, if it is declared and has one. *)
Definition value_of (m : Model) (v : string) : option Q :=
  vars m !! v ≫= var_value.

Fixpoint eval (m : Model) (e : expr) : option Q :=
  match e with
  | Num q => Some q
  | VarRef v => value_of m v
  | ParamRef p => params m !! p
  | Named _ b => eval m b
  | Sum a b => x ← eval m a; y ← eval m b; Some (x + y)%Q
  | Diff a b => x ← eval m a; y ← eval m b; Some (x - y)%Q
  | Prod a b => x ← eval m a; y ← eval m b; Some (x * y)%Q
  end.

(** [value(e)]: Pyomo raises [ValueError] when a variable has no value. *)
Definition value (m : Model) (e : expr) : outcome Q :=
  match eval m e with
  | Some q => Ok q
  | None => Raised (ValueError "No value for uninitialized variable")
  end.

(** ** Degrees of freedom *)

Definition is_unfixed (m : Model) (v : string) : bool :=
  match vars m !! v with
  | Some d => negb (fixed d)
  | None => false
  end.

Definition activated_equality (c : ConstraintData) : bool :=
  c_active c && match c_kind c with Equality => true | Inequality => false end.

Definition constraint_variables (c : ConstraintData) : gset string :=
  identify_variables (c_lhs c) ∪ identify_variables (c_rhs c).

Definition activated_equalities (m : Model) : list ConstraintData :=
  filter (λ c, activated_equality c = true) (constraints m).*2.

(** The variables that occur in some activated equality, fixed or not. *)
Definition variables_in_activated_equalities (m : Model) : gset string :=
  ⋃ (constraint_variables <$> activated_equalities m).

Definition unfixed_variables_in_activated_equalities_set (m : Model) : gset string :=
  filter (λ v, is_unfixed m v = true) (variables_in_activated_equalities m).

(** Modelled from the spec: [degrees_of_freedom] is imported from
    [idaes.core.util.model_statistics], which is not part of the notebook.
    The glossary defines it as the count of unconstrained variables that
    remain before the model is square; the function counts the unfixed
    variables that occur in activated equality constraints and subtracts the
    number of activated equality constraints. *)
Definition degrees_of_freedom (m : Model) : Z :=
  Z.of_nat (size (unfixed_variables_in_activated_equalities_set m))
  - Z.of_nat (length (activated_equalities m)).

(** ** The modelling calls the notebook makes *)

Definition update_var (f : VarData → VarData) (v : string) (m : Model) : outcome Model :=
  match vars m !! v with
  | Some _ => Ok (set_vars m (alter f v (vars m)))
  | None => Raised (AttributeError v)
  end.

(** [v.fix(q)] *)
Definition fix_var (v : string) (q : Q) : Model → outcome Model :=
  update_var (λ d, mkVar (Some q) true (lb d) (ub d)) v.

(** [v.unfix()] *)
Definition unfix : string → Model → outcome Model :=
  update_var (λ d, mkVar (var_value d) false (lb d) (ub d)).

(** [v.setlb(q)] and [v.setub(q)] *)
Definition setlb (v : string) (q : Q) : Model → outcome Model :=
  update_var (λ d, mkVar (var_value d) (fixed d) (Some q) (ub d)) v.

Definition setub (v : string) (q : Q) : Model → outcome Model :=
  update_var (λ d, mkVar (var_value d) (fixed d) (lb d) (Some q)) v.

(** A key of the store belongs to the component [name]: it is the component
    itself, a member [name[i]] of an indexed component, or a component
    [name.x] of a block. *)
Definition owned (name key : string) : bool :=
  String.eqb name key
  || String.prefix (name +:+ "[") key
  || String.prefix (name +:+ ".") key.

(** [block.del_component(name)] *)
Definition del_component (name : string) (m : Model) : Model :=
  mkModel (filter (λ n, owned name n = false) (components m))
          (filter (λ n, owned name n = false) (ports m))
          (filter (λ kv, owned name kv.1 = false) (vars m))
          (filter (λ kv, owned name kv.1 = false) (params m))
          (filter (λ c, owned name c.1 = false) (constraints m))
          (filter (λ c, owned name c.1 = false) (expressions m))
          (filter (λ c, owned name c.1 = false) (objectives m))
          (filter (λ c, owned name c.1 = false) (arcs m)).

(** The model with the name [name] declared. *)
Definition declare (name : string) (m : Model) : Model :=
  mkModel ({[ name ]} ∪ components m) (ports m) (vars m) (params m)
          (constraints m) (expressions m) (objectives m) (arcs m).

(** Assigning a component to a block attribute.  A name already in use is
    replaced: Pyomo logs a warning, deletes the old component and adds the
    new one.  Components are found by name in the store, so what referred to
    the old component refers to the new one. *)
Definition add_component (name : string) (m : Model) : outcome Model :=
  Ok (declare name (if decide (name ∈ components m) then del_component name m
                    else m)).

(** Building an expression reads the attributes it mentions. *)
Definition check_declared (e : expr) (m : Model) : outcome Model :=
  match filter (λ v, vars m !! v = None) (elements (identify_variables e)),
        filter (λ p, params m !! p = None) (elements (identify_params e)) with
  | [], [] => Ok m
  | v :: _, _ => Raised (AttributeError v)
  | [], p :: _ => Raised (AttributeError p)
  end.

(** [name = Var(initialize=init, bounds=(lo, hi))] *)
Definition Var (name : string) (init lo hi : Q) (m : Model) : outcome Model :=
  m ← add_component name m;
  Ok (set_vars m (<[name := mkVar (Some init) false (Some lo) (Some hi)]> (vars m))).

(** [name = Constraint(expr= lhs == rhs)] *)
Definition Constraint (name : string) (lhs rhs : expr) (m : Model) : outcome Model :=
  m ← check_declared lhs m;
  m ← check_declared rhs m;
  m ← add_component name m;
  Ok (mkModel (components m) (ports m) (vars m) (params m)
              (constraints m ++ [(name, mkCon lhs Equality rhs true)])
              (expressions m) (objectives m) (arcs m)).

(** [name = Expression(expr=e)] *)
Definition Expression (name : string) (e : expr) (m : Model) : outcome Model :=
  m ← check_declared e m;
  m ← add_component name m;
  Ok (mkModel (components m) (ports m) (vars m) (params m) (constraints m)
              (expressions m ++ [(name, e)]) (objectives m) (arcs m)).

(** [name = Objective(expr=e)]; the sense defaults to [minimize]. *)
Definition Objective (name : string) (e : expr) (m : Model) : outcome Model :=
  m ← check_declared e m;
  m ← add_component name m;
  Ok (mkModel (components m) (ports m) (vars m) (params m) (constraints m)
              (expressions m) (objectives m ++ [(name, mkObj e minimize true)])
              (arcs m)).

(** Reading the attribute [name] of a block for an [Expression] component:
    [AttributeError] when there is none.  The last declaration counts. *)
Definition expression (name : string) (m : Model) : outcome expr :=
  match last (filter (λ c, c.1 = name) (expressions m)) with
  | Some c => Ok (Named name c.2)
  | None => Raised (AttributeError name)
  end.

(** [name = Arc(source=src, destination=dst)] *)
Definition Arc (name src dst : string) (m : Model) : outcome Model :=
  if decide (src ∈ ports m) then
    if decide (dst ∈ ports m) then
      m ← add_component name m;
      Ok (mkModel (components m) (ports m) (vars m) (params m) (constraints m)
                  (expressions m) (objectives m)
                  (arcs m ++ [(name, mkArc src dst true)]))
    else Raised (AttributeError dst)
  else Raised (AttributeError src).

(** ** Streams *)

(** Cell 9: the components of the property package. *)
Definition component_list : list string := ["CH4"; "H2O"; "H2"; "CO"; "CO2"].

(** Every stream has one flow, five mole fractions, one temperature and one
    pressure (cell 1); the flowsheet is steady state (cell 7), so the only
    time point is 0.  A member is a variable name and an index. *)
Definition port_members : list (string * string) :=
  ("flow_mol", "0")
  :: ((λ j, ("mole_frac_comp", "0," +:+ j)) <$> component_list)
  ++ [("temperature", "0"); ("pressure", "0")].

Definition member (p : string) (mem : string * string) : string :=
  p +:+ "." +:+ mem.1 +:+ "[" +:+ mem.2 +:+ "]".

Definition flow_mol (p : string) : string := member p ("flow_mol", "0").
Definition mole_frac_comp (p j : string) : string := member p ("mole_frac_comp", "0," +:+ j).
Definition temperature (p : string) : string := member p ("temperature", "0").
Definition pressure (p : string) : string := member p ("pressure", "0").

Definition port_variables (p : string) : list string := member p <$> port_members.

(** ** Expanding arcs *)

Definition expanded_name (a : string * ArcData) : string := a.1 +:+ "_expanded".

(** The equality of one member, in the expansion block [blk] of the arc. *)
Definition arc_equality_in (blk : string) (a : string * ArcData)
    (mem : string * string) : string * ConstraintData :=
  (blk +:+ "." +:+ mem.1 +:+ "_equality[" +:+ mem.2 +:+ "]",
   mkCon (VarRef (member (source a.2) mem)) Equality
         (VarRef (member (destination a.2) mem)) true).

Definition arc_equality (a : string * ArcData) (mem : string * string)
  : string * ConstraintData :=
  arc_equality_in (expanded_name a) a mem.

Definition arc_equalities (a : string * ArcData) : list (string * ConstraintData) :=
  arc_equality a <$> port_members.

(** The name of the expansion block: [<arc>_expanded] when that name is
    free; otherwise the transformation appends an underscore and digits
    until the name is free (Pyomo draws the digits at random; the model
    appends zeros). *)
Fixpoint free_name (fuel : nat) (m : Model) (name : string) : string :=
  if decide (name ∈ components m) then
    match fuel with
    | O => name
    | S n => free_name n m (name +:+ "0")
    end
  else name.

Definition unique_component_name (m : Model) (name : string) : string :=
  if decide (name ∈ components m)
  then free_name (size (components m)) m (name +:+ "_0")
  else name.

Definition expand_arc (a : string * ArcData) (m : Model) : outcome Model :=
  if arc_active a.2 then
    let blk := unique_component_name m (expanded_name a) in
    Ok (mkModel ({[ blk ]} ∪ components m) (ports m) (vars m) (params m)
                (constraints m ++ (arc_equality_in blk a <$> port_members))
                (expressions m) (objectives m) (arcs m))
  else Ok m.

Definition deactivate (a : string * ArcData) : string * ArcData :=
  (a.1, mkArc (source a.2) (destination a.2) false).

(** Modelled from the spec: the [network.expand_arcs] transformation is
    Pyomo's, not the notebook's.  Following the glossary (an arc is a
    declared connection between two ports, later expanded into equality
    constraints), every active arc gets a block [<arc>_expanded] with one
    equality per member of the connected ports, and is then deactivated. *)
Definition expand_arcs (m : Model) : outcome Model :=
  m' ← foldl (λ acc a, acc ≫= expand_arc a) (Ok m) (arcs m);
  Ok (mkModel (components m') (ports m') (vars m') (params m') (constraints m')
              (expressions m') (objectives m') (deactivate <$> arcs m')).

(** ** Units of measurement *)

(** [pyunits.convert(q * pyunits.bar, to_units=pyunits.Pa)]: one bar is
    1e5 Pa. *)
Definition convert_bar_to_Pa (q : Q) : Q := (1e5 * q)%Q.

(** [actual == pytest.approx(expected, rel=rel)], with the default absolute
    tolerance 1e-12.  The comparison is exact, over rationals; Python
    compares doubles, so within the rounding of a double of the two ends of
    the tolerance interval the two can differ. *)
Definition approx (actual expected rel : Q) : bool :=
  Qle_bool (Qabs (actual - expected)) (Qmax (rel * Qabs expected) 1e-12).

(** ** The framework interface *)

Inductive TerminationCondition : Type :=
| unknown | maxTimeLimit | maxIterations | minFunctionValue | minStepLength
| globallyOptimal | locallyOptimal | feasible | optimal | maxEvaluations
| other | unbounded | infeasible | infeasibleOrUnbounded | invalidProblem
| intermediateNonInteger | noSolution | solverFailure | internalSolverError
| error | userInterrupt | resourceInterrupt | licensingProblems.

#[global] Instance TerminationCondition_eq_dec : EqDecision TerminationCondition.
Proof. solve_decision. Defined.

Record SolverResults : Type := mkResults {
  termination_condition : TerminationCondition
}.

(** What the notebook calls but does not define.  [fw_flowsheet] is the
    model after cells 7 to 12 (flowsheet block, property package and the
    seven unit models); [fw_Mlb_per_yr] is the factor of the units container
    from kg/s to Mlb/yr; the initialisation routines, [propagate_state] and
    the solver return new values for variables (the notebook relies on them
    to leave the structure of the model as it was), or raise. *)
Record Framework : Type := mkFramework {
  fw_flowsheet : outcome Model;
  fw_Mlb_per_yr : Q;
  fw_initialize : string → Model → outcome (gmap string Q);
  fw_propagate_state : string → Model → outcome (gmap string Q);
  fw_solve : Model → outcome (SolverResults * gmap string Q);
  fw_report : string → Model → outcome ()
}.

(** Loading values into the model: fixed variables keep their value. *)
Definition load_value (sol : gmap string Q) (v : string) (d : VarData) : option VarData :=
  Some (if fixed d then d
        else match sol !! v with
             | Some q => mkVar (Some q) false (lb d) (ub d)
             | None => d
             end).

Definition load_values (sol : gmap string Q) (m : Model) : Model :=
  set_vars m (map_imap (load_value sol) (vars m)).

(** ** The notebook *)

(** The Python session: the model [m] and the last [results]. *)
Record Session : Type := mkSession {
  model : Model;
  results : option SolverResults
}.

(** A cell that works on the model only. *)
Definition on_model (f : Model → outcome Model) (s : Session) : outcome Session :=
  m ← f (model s); Ok (mkSession m (results s)).

(** [assert b] *)
Definition assert (b : bool) : outcome () :=
  if b then Ok () else Raised AssertionError.

(** *** Cell 14: the arcs *)
Definition cell_14 : Model → outcome Model :=
  Arc "fs.s01" "fs.CH4.outlet" "fs.M101.methane_feed" >=>
  Arc "fs.s02" "fs.H2O.outlet" "fs.M101.steam_feed" >=>
  Arc "fs.s03" "fs.M101.outlet" "fs.C101.inlet" >=>
  Arc "fs.s04" "fs.C101.outlet" "fs.H101.inlet" >=>
  Arc "fs.s05" "fs.H101.outlet" "fs.R101.inlet" >=>
  Arc "fs.s06" "fs.R101.outlet" "fs.PROD.inlet".

(** *** Cell 16 *)
Definition cell_16 : Model → outcome Model := expand_arcs.

(** *** Cell 19: hydrogen production, converted to Mlb/yr *)
Definition hyd_prod (k : Q) : expr :=
  Prod (Num k)
       (Prod (Prod (VarRef (flow_mol "fs.PROD.inlet"))
                   (VarRef (mole_frac_comp "fs.PROD.inlet" "H2")))
             (ParamRef "fs.thermo_params.H2.mw")).

Definition cell_19 (k : Q) : Model → outcome Model :=
  Expression "fs.hyd_prod" (hyd_prod k).

(** *** Cell 20: utility costs *)
Definition cooling_cost : expr :=
  Prod (Num 0.212e-7) (VarRef "fs.R101.heat_duty[0]").
Definition heating_cost : expr :=
  Prod (Num 2.2e-7) (VarRef "fs.H101.heat_duty[0]").
Definition compression_cost : expr :=
  Prod (Num 0.12e-5) (VarRef "fs.C101.work_isentropic[0]").
Definition operating_cost : expr :=
  Prod (Num (3600 * 8000))
       (Sum (Sum (Named "fs.heating_cost" heating_cost)
                 (Named "fs.cooling_cost" cooling_cost))
            (Named "fs.compression_cost" compression_cost)).

Definition cell_20 : Model → outcome Model :=
  Expression "fs.cooling_cost" cooling_cost >=>
  Expression "fs.heating_cost" heating_cost >=>
  Expression "fs.compression_cost" compression_cost >=>
  Expression "fs.operating_cost" operating_cost.

(** *** Cell 25: feed conditions *)
Definition cell_25 : Model → outcome Model :=
  fix_var (mole_frac_comp "fs.CH4.outlet" "CH4") 1 >=>
  fix_var (mole_frac_comp "fs.CH4.outlet" "H2O") 1e-5 >=>
  fix_var (mole_frac_comp "fs.CH4.outlet" "H2") 1e-5 >=>
  fix_var (mole_frac_comp "fs.CH4.outlet" "CO") 1e-5 >=>
  fix_var (mole_frac_comp "fs.CH4.outlet" "CO2") 1e-5 >=>
  fix_var (flow_mol "fs.CH4.outlet") 75 >=>
  fix_var (temperature "fs.CH4.outlet") 298.15 >=>
  fix_var (pressure "fs.CH4.outlet") 1e5 >=>
  fix_var (mole_frac_comp "fs.H2O.outlet" "CH4") 1e-5 >=>
  fix_var (mole_frac_comp "fs.H2O.outlet" "H2O") 1 >=>
  fix_var (mole_frac_comp "fs.H2O.outlet" "H2") 1e-5 >=>
  fix_var (mole_frac_comp "fs.H2O.outlet" "CO") 1e-5 >=>
  fix_var (mole_frac_comp "fs.H2O.outlet" "CO2") 1e-5 >=>
  fix_var (flow_mol "fs.H2O.outlet") 234 >=>
  fix_var (temperature "fs.H2O.outlet") 373.15 >=>
  fix_var (pressure "fs.H2O.outlet") 1e5.

(** *** Cell 27: unit specifications *)
Definition cell_27 : Model → outcome Model :=
  fix_var (pressure "fs.C101.outlet") (convert_bar_to_Pa 2) >=>
  fix_var "fs.C101.efficiency_isentropic[0]" 0.90 >=>
  fix_var (temperature "fs.H101.outlet") 500.

(** *** Cell 29: the conversion of the reactor *)
Definition conv_lhs : expr :=
  Prod (Prod (VarRef "fs.R101.conversion") (VarRef (flow_mol "fs.R101.inlet")))
       (VarRef (mole_frac_comp "fs.R101.inlet" "CH4")).
Definition conv_rhs : expr :=
  Diff (Prod (VarRef (flow_mol "fs.R101.inlet"))
             (VarRef (mole_frac_comp "fs.R101.inlet" "CH4")))
       (Prod (VarRef (flow_mol "fs.R101.outlet"))
             (VarRef (mole_frac_comp "fs.R101.outlet" "CH4"))).

Definition cell_29 : Model → outcome Model :=
  Var "fs.R101.conversion" 0.80 0 1 >=>
  Constraint "fs.R101.conv_constraint" conv_lhs conv_rhs >=>
  fix_var "fs.R101.conversion" 0.80.

(** *** Cell 45: the objective *)
Definition cell_45 (m : Model) : outcome Model :=
  e ← expression "fs.operating_cost" m;
  Objective "fs.objective" e m.

(** *** Cell 47: decision variables and bounds *)
Definition cell_47 : Model → outcome Model :=
  fix_var "fs.R101.conversion" 0.90 >=>
  unfix (pressure "fs.C101.outlet") >=>
  setlb (pressure "fs.C101.outlet") (convert_bar_to_Pa 1) >=>
  setlb (pressure "fs.C101.outlet") (convert_bar_to_Pa 10) >=>
  unfix (temperature "fs.H101.outlet") >=>
  setlb "fs.H101.heat_duty[0]" 0 >=>
  setub (temperature "fs.H101.outlet") 1000.

Section Notebook.

Variable fw : Framework.

(** [unit_model.initialize()] and [propagate_state(arc=arc)] *)
Definition initialize (unit_model : string) (s : Session) : outcome Session :=
  sol ← fw_initialize fw unit_model (model s);
  Ok (mkSession (load_values sol (model s)) (results s)).

Definition propagate_state (arc : string) (s : Session) : outcome Session :=
  sol ← fw_propagate_state fw arc (model s);
  Ok (mkSession (load_values sol (model s)) (results s)).

(** [results = solver.solve(m, tee=True)] *)
Definition solve (s : Session) : outcome Session :=
  rs ← fw_solve fw (model s);
  Ok (mkSession (load_values rs.2 (model s)) (Some rs.1)).

(** [unit_model.report()] *)
Definition report (unit_model : string) (s : Session) : outcome Session :=
  fw_report fw unit_model (model s);; Ok s.

(** A cell that only prints [value(e)]. *)
Definition print_value (e : expr) (s : Session) : outcome Session :=
  value (model s) e;; Ok s.

(** [assert f(value(e)) == pytest.approx(expected, rel=1e-3)] *)
Definition assert_approx (e : expr) (f : Q → Q) (expected : Q) (s : Session)
  : outcome Session :=
  v ← value (model s) e;
  assert (approx (f v) expected 1e-3);; Ok s.

(** The same for an [Expression] component, read by its name:
    [value(m.fs.name)]. *)
Definition print_component (name : string) (s : Session) : outcome Session :=
  e ← expression name (model s); print_value e s.

Definition assert_component_approx (name : string) (f : Q → Q) (expected : Q)
    (s : Session) : outcome Session :=
  e ← expression name (model s); assert_approx e f expected s.

(** [assert degrees_of_freedom(m) == n] *)
Definition assert_degrees_of_freedom (n : Z) (s : Session) : outcome Session :=
  assert (bool_decide (degrees_of_freedom (model s) = n));; Ok s.

(** [assert results.solver.termination_condition == TerminationCondition.optimal] *)
Definition assert_optimal (s : Session) : outcome Session :=
  match results s with
  | Some r => assert (bool_decide (termination_condition r = optimal));; Ok s
  | None => Raised (NameError "results")
  end.

(** *** Cells 23 and 32: the degrees of freedom before and after the
    specifications *)
Definition cell_23 : Session → outcome Session := assert_degrees_of_freedom 20.
Definition cell_32 : Session → outcome Session := assert_degrees_of_freedom 0.

(** *** Cell 34: initialisation, unit by unit ([get_solver] changes nothing
    in the model) *)
Definition cell_34 : Session → outcome Session :=
  initialize "fs.CH4" >=> propagate_state "fs.s01" >=>
  initialize "fs.H2O" >=> propagate_state "fs.s02" >=>
  initialize "fs.M101" >=> propagate_state "fs.s03" >=>
  initialize "fs.C101" >=> propagate_state "fs.s04" >=>
  initialize "fs.H101" >=> propagate_state "fs.s05" >=>
  initialize "fs.R101" >=> propagate_state "fs.s06" >=>
  initialize "fs.PROD".

(** *** Cells 35 and 36: the square problem *)
Definition cell_35 : Session → outcome Session := solve.
Definition cell_36 : Session → outcome Session := assert_optimal.

(** *** Cells 38 to 42: results of the square problem *)
Definition cell_38 : Session → outcome Session :=
  print_component "fs.operating_cost".
Definition cell_39 : Session → outcome Session :=
  assert_component_approx "fs.operating_cost" (λ v, (v / 1e6)%Q) 39.958.

Definition cell_41 : Session → outcome Session :=
  report "fs.R101" >=> print_value (VarRef "fs.R101.conversion").
Definition cell_42 : Session → outcome Session :=
  assert_approx (VarRef "fs.R101.conversion") (λ v, v) 0.800 >=>
  assert_approx (VarRef "fs.R101.heat_duty[0]") (λ v, (v / 1e6)%Q) 17.819 >=>
  assert_approx (VarRef (temperature "fs.R101.outlet")) (λ v, (v / 1e2)%Q) 9.208.

(** *** Cells 48 to 51: the optimisation problem *)
Definition cell_48 : Session → outcome Session := assert_degrees_of_freedom 2.
Definition cell_50 : Session → outcome Session := solve.
Definition cell_51 : Session → outcome Session := assert_optimal.

(** *** Cells 52 to 56: results of the optimisation *)
Definition cell_52 : Session → outcome Session :=
  print_component "fs.operating_cost" >=>
  report "fs.C101" >=> report "fs.H101" >=> report "fs.R101".
Definition cell_53 : Session → outcome Session :=
  assert_component_approx "fs.operating_cost" (λ v, (v / 1e6)%Q) 107.218.

Definition cell_55 : Session → outcome Session :=
  print_value (VarRef (pressure "fs.C101.outlet")) >=>
  print_value (VarRef (temperature "fs.C101.outlet")) >=>
  print_value (VarRef (temperature "fs.H101.outlet")) >=>
  print_value (VarRef (temperature "fs.R101.outlet")) >=>
  print_component "fs.hyd_prod" >=>
  print_value (VarRef "fs.R101.conversion").
Definition cell_56 : Session → outcome Session :=
  assert_approx (VarRef (pressure "fs.C101.outlet")) (λ v, (v / 1e6)%Q) 1.000 >=>
  assert_approx (VarRef (temperature "fs.C101.outlet")) (λ v, (v / 100)%Q) 6.19248 >=>
  assert_approx (VarRef (temperature "fs.H101.outlet")) (λ v, (v / 100)%Q) 6.19248 >=>
  assert_approx (VarRef (temperature "fs.R101.outlet")) (λ v, (v / 100)%Q) 10.8738 >=>
  assert_component_approx "fs.hyd_prod" (λ v, v) 32.070 >=>
  assert_approx (VarRef "fs.R101.conversion") (λ v, (v * 100)%Q) 90.0.

(** The cells in the order of the notebook, from the arcs on, in five
    stages.  Cells 22 and 31 print the degrees of freedom and cannot
    raise. *)
Definition build_stage : list (nat * (Session → outcome Session)) :=
  [ (14, on_model cell_14); (16, on_model cell_16);
    (19, on_model (cell_19 (fw_Mlb_per_yr fw))); (20, on_model cell_20);
    (23, cell_23) ].

Definition square_stage : list (nat * (Session → outcome Session)) :=
  [ (25, on_model cell_25); (27, on_model cell_27); (29, on_model cell_29);
    (32, cell_32) ].

Definition solve_stage : list (nat * (Session → outcome Session)) :=
  [ (34, cell_34); (35, cell_35); (36, cell_36);
    (38, cell_38); (39, cell_39); (41, cell_41); (42, cell_42) ].

Definition optimization_stage : list (nat * (Session → outcome Session)) :=
  [ (45, on_model cell_45); (47, on_model cell_47); (48, cell_48) ].

Definition optimum_stage : list (nat * (Session → outcome Session)) :=
  [ (50, cell_50); (51, cell_51); (52, cell_52); (53, cell_53);
    (55, cell_55); (56, cell_56) ].

Definition cells : list (nat * (Session → outcome Session)) :=
  build_stage ++ square_stage ++ solve_stage ++ optimization_stage
  ++ optimum_stage.

(** Running cells one after the other: the first exception ends the run;
    nothing catches it. *)
Fixpoint run (cs : list (nat * (Session → outcome Session))) (s : Session)
  : outcome Session :=
  match cs with
  | [] => Ok s
  | c :: cs' =>
      match c.2 s with
      | Ok s' => run cs' s'
      | Raised e => Raised e
      end
  end.

(** The whole notebook: cells 7 to 12 build the unit models. *)
Definition notebook : outcome Session :=
  u ← fw_flowsheet fw; run cells (mkSession u None).

End Notebook.

(** The state a run ends in, or [s] when it raises. *)
Definition state_after (r : outcome Session) (s : Session) : Session :=
  match r with
  | Ok s' => s'
  | Raised _ => s
  end.

(** Whether a run returned. *)
Definition is_Ok {A : Type} (r : outcome A) : bool :=
  match r with
  | Ok _ => true
  | Raised _ => false
  end.

(** ** A small instance of the framework

    Seven unit models with the ports of the flowsheet and a handful of
    balance equations each.  It exercises the theorems on a concrete
    model; it does not replace the thermodynamics of the real framework. *)
Module Toy.

Definition unit_ports : list string :=
  [ "fs.CH4.outlet"; "fs.H2O.outlet";
    "fs.M101.methane_feed"; "fs.M101.steam_feed"; "fs.M101.outlet";
    "fs.C101.inlet"; "fs.C101.outlet";
    "fs.H101.inlet"; "fs.H101.outlet";
    "fs.R101.inlet"; "fs.R101.outlet";
    "fs.PROD.inlet" ].

(** State bounds as a property package declares them. *)
Definition state_var (mem : string * string) : VarData :=
  if decide (mem.1 = "flow_mol") then mkVar (Some 100%Q) false (Some 0%Q) (Some 50000%Q)
  else if decide (mem.1 = "temperature") then mkVar (Some 500%Q) false (Some 273.15%Q) (Some 2500%Q)
  else if decide (mem.1 = "pressure") then mkVar (Some 1e5%Q) false (Some 5e4%Q) (Some 1e8%Q)
  else mkVar (Some 0.2%Q) false (Some 0%Q) (Some 1.001%Q).

Definition port_vars (p : string) : list (string * VarData) :=
  (λ mem, (member p mem, state_var mem)) <$> port_members.

Definition unit_vars : list (string * VarData) :=
  [ ("fs.C101.efficiency_isentropic[0]", mkVar (Some 0.8%Q) false None None);
    ("fs.C101.work_isentropic[0]", mkVar (Some 0%Q) false None None);
    ("fs.H101.heat_duty[0]", mkVar (Some 0%Q) false None None);
    ("fs.R101.heat_duty[0]", mkVar (Some 0%Q) false None None) ].

Definition F (p : string) : expr := VarRef (flow_mol p).
Definition T (p : string) : expr := VarRef (temperature p).
Definition P (p : string) : expr := VarRef (pressure p).
Definition x (p j : string) : expr := VarRef (mole_frac_comp p j).

Definition eqn (name : string) (lhs rhs : expr) : string * ConstraintData :=
  (name, mkCon lhs Equality rhs true).

Definition same_composition (u i o : string) : list (string * ConstraintData) :=
  (λ j, eqn (u +:+ ".material_balance[" +:+ j +:+ "]") (x o j) (x i j)) <$> component_list.

Definition mixer : list (string * ConstraintData) :=
  let a := "fs.M101.methane_feed" in
  let b := "fs.M101.steam_feed" in
  let o := "fs.M101.outlet" in
  [ eqn "fs.M101.total_flow" (F o) (Sum (F a) (F b));
    eqn "fs.M101.enthalpy_mixing" (Prod (F o) (T o)) (Sum (Prod (F a) (T a)) (Prod (F b) (T b)));
    eqn "fs.M101.pressure_equality" (P o) (P a) ]
  ++ ((λ j, eqn ("fs.M101.material_mixing[" +:+ j +:+ "]")
                (Prod (F o) (x o j)) (Sum (Prod (F a) (x a j)) (Prod (F b) (x b j))))
        <$> component_list).

Definition compressor : list (string * ConstraintData) :=
  let i := "fs.C101.inlet" in
  let o := "fs.C101.outlet" in
  [ eqn "fs.C101.total_flow" (F o) (F i);
    eqn "fs.C101.actual_work" (VarRef "fs.C101.work_isentropic[0]")
        (Prod (F i) (Diff (T o) (T i)));
    eqn "fs.C101.isentropic" (Prod (VarRef "fs.C101.efficiency_isentropic[0]")
                                   (VarRef "fs.C101.work_isentropic[0]"))
        (Prod (F i) (Diff (P o) (P i))) ]
  ++ same_composition "fs.C101" i o.

Definition heater : list (string * ConstraintData) :=
  let i := "fs.H101.inlet" in
  let o := "fs.H101.outlet" in
  [ eqn "fs.H101.total_flow" (F o) (F i);
    eqn "fs.H101.pressure_balance" (P o) (P i);
    eqn "fs.H101.enthalpy_balance" (VarRef "fs.H101.heat_duty[0]")
        (Prod (F i) (Diff (T o) (T i))) ]
  ++ same_composition "fs.H101" i o.

Definition atoms (c h o : Q) (p : string) : expr :=
  Prod (F p)
       (Sum (Sum (Prod (Num c) (Sum (Sum (x p "CH4") (x p "CO")) (x p "CO2")))
                 (Prod (Num h) (Sum (Sum (Prod (Num 2) (x p "CH4")) (x p "H2O")) (x p "H2"))))
            (Prod (Num o) (Sum (Sum (x p "H2O") (x p "CO")) (Prod (Num 2) (x p "CO2"))))).

Definition reactor : list (string * ConstraintData) :=
  let i := "fs.R101.inlet" in
  let o := "fs.R101.outlet" in
  [ eqn "fs.R101.pressure_balance" (P o) (P i);
    eqn "fs.R101.enthalpy_balance" (VarRef "fs.R101.heat_duty[0]")
        (Diff (Prod (F o) (T o)) (Prod (F i) (T i)));
    eqn "fs.R101.element_balance[C]" (atoms 1 0 0 o) (atoms 1 0 0 i);
    eqn "fs.R101.element_balance[H]" (atoms 0 2 0 o) (atoms 0 2 0 i);
    eqn "fs.R101.element_balance[O]" (atoms 0 0 1 o) (atoms 0 0 1 i);
    eqn "fs.R101.sum_mole_frac"
        (Sum (Sum (Sum (Sum (x o "CH4") (x o "H2O")) (x o "H2")) (x o "CO")) (x o "CO2"))
        (Num 1);
    eqn "fs.R101.gibbs_minimization[shift]"
        (Prod (x o "CO") (x o "H2O")) (Prod (x o "CO2") (x o "H2"));
    eqn "fs.R101.gibbs_minimization[reforming]"
        (Prod (x o "CH4") (x o "H2O")) (Prod (x o "CO") (x o "H2")) ].

Definition units : Model :=
  mkModel
    (list_to_set [ "fs"; "fs.thermo_params"; "fs.CH4"; "fs.H2O"; "fs.PROD";
                   "fs.M101"; "fs.H101"; "fs.C101"; "fs.R101" ])
    (list_to_set unit_ports)
    (list_to_map ((unit_ports ≫= port_vars) ++ unit_vars))
    {[ "fs.thermo_params.H2.mw" := 2.016e-3%Q ]}
    (mixer ++ compressor ++ heater ++ reactor)
    [] [] [].

(** A solver that reports [tc1] for the square problem and [tc2] for the
    optimisation, with values that meet the numbers the notebook asserts. *)
Definition square_values : gmap string Q :=
  list_to_map
    [ ("fs.H101.heat_duty[0]", 1862126.2%Q);
      ("fs.R101.heat_duty[0]", 17.819e6%Q);
      ("fs.C101.work_isentropic[0]", 500000%Q);
      (temperature "fs.R101.outlet", 920.8%Q) ].

Definition optimal_values : gmap string Q :=
  list_to_map
    [ ("fs.H101.heat_duty[0]", 0%Q);
      ("fs.R101.heat_duty[0]", 20e6%Q);
      ("fs.C101.work_isentropic[0]", 2749039.35%Q);
      (pressure "fs.C101.outlet", 1e6%Q);
      (temperature "fs.C101.outlet", 619.248%Q);
      (temperature "fs.H101.outlet", 619.248%Q);
      (temperature "fs.R101.outlet", 1087.38%Q);
      (flow_mol "fs.PROD.inlet", 457.3%Q);
      (mole_frac_comp "fs.PROD.inlet" "H2", 0.5%Q) ].

Definition solver (tc1 tc2 : TerminationCondition) (m : Model)
  : outcome (SolverResults * gmap string Q) :=
  match objectives m with
  | [] => Ok (mkResults tc1, square_values)
  | _ => Ok (mkResults tc2, optimal_values)
  end.

Definition framework (tc1 tc2 : TerminationCondition) : Framework :=
  mkFramework (Ok units) (31557600 / 453592.37)%Q
              (λ _ _, Ok ∅) (λ _ _, Ok ∅) (solver tc1 tc2) (λ _ _, Ok ()).

(** A point at which the conversion constraint holds: 25 mol/s of methane
    enter the reactor, 5 mol/s leave it. *)
Definition reactor_point : Model :=
  mkModel ∅ ∅
    (list_to_map
       [ ("fs.R101.conversion", mkVar (Some 0.8%Q) true (Some 0%Q) (Some 1%Q));
         (flow_mol "fs.R101.inlet", mkVar (Some 100%Q) false None None);
         (mole_frac_comp "fs.R101.inlet" "CH4", mkVar (Some 0.25%Q) false None None);
         (flow_mol "fs.R101.outlet", mkVar (Some 150%Q) false None None);
         (mole_frac_comp "fs.R101.outlet" "CH4", mkVar (Some (1 / 30)%Q) false None None) ])
    ∅ [] [] [] [].

(** The states of a run in which both solves end with [optimal]. *)
Definition fw : Framework := framework optimal optimal.

Definition s0 : Session := mkSession units None.
Definition s23 : Session := state_after (run (build_stage fw) s0) s0.
Definition s32 : Session := state_after (run square_stage s23) s23.
Definition s42 : Session := state_after (run (solve_stage fw) s32) s32.
Definition s48 : Session := state_after (run optimization_stage s42) s42.

(** The state in which the first solve has ended with [infeasible]. *)
Definition s35_infeasible : Session :=
  state_after (run [(34, cell_34 (framework infeasible optimal));
                    (35, cell_35 (framework infeasible optimal))] s32) s32.

End Toy.


(** ** What the notebook expects of the unit models *)

Definition flowsheet_ports : list string :=
  [ "fs.CH4.outlet"; "fs.H2O.outlet";
    "fs.M101.methane_feed"; "fs.M101.steam_feed"; "fs.M101.outlet";
    "fs.C101.inlet"; "fs.C101.outlet";
    "fs.H101.inlet"; "fs.H101.outlet";
    "fs.R101.inlet"; "fs.R101.outlet";
    "fs.PROD.inlet" ].

(** The six arcs of cell 14. *)
Definition flowsheet_arcs : list (string * ArcData) :=
  [ ("fs.s01", mkArc "fs.CH4.outlet" "fs.M101.methane_feed" true);
    ("fs.s02", mkArc "fs.H2O.outlet" "fs.M101.steam_feed" true);
    ("fs.s03", mkArc "fs.M101.outlet" "fs.C101.inlet" true);
    ("fs.s04", mkArc "fs.C101.outlet" "fs.H101.inlet" true);
    ("fs.s05", mkArc "fs.H101.outlet" "fs.R101.inlet" true);
    ("fs.s06", mkArc "fs.R101.outlet" "fs.PROD.inlet" true) ].

(** The names the notebook gives to its own components. *)
Definition notebook_components : list string :=
  flowsheet_arcs.*1 ++ (expanded_name <$> flowsheet_arcs)
  ++ [ "fs.hyd_prod"; "fs.cooling_cost"; "fs.heating_cost";
       "fs.compression_cost"; "fs.operating_cost";
       "fs.R101.conversion"; "fs.R101.conv_constraint"; "fs.objective" ].

(** The variables cells 25 and 27 fix: eight per feed, and three unit
    specifications. *)
Definition feed_variables : list string :=
  port_variables "fs.CH4.outlet" ++ port_variables "fs.H2O.outlet".

Definition unit_specifications : list string :=
  [ pressure "fs.C101.outlet"; "fs.C101.efficiency_isentropic[0]";
    temperature "fs.H101.outlet" ].

(** Variables the notebook reads in expressions and constraints. *)
Definition referenced_variables : list string :=
  [ flow_mol "fs.PROD.inlet"; mole_frac_comp "fs.PROD.inlet" "H2";
    "fs.R101.heat_duty[0]"; "fs.H101.heat_duty[0]"; "fs.C101.work_isentropic[0]";
    flow_mol "fs.R101.inlet"; mole_frac_comp "fs.R101.inlet" "CH4";
    flow_mol "fs.R101.outlet"; mole_frac_comp "fs.R101.outlet" "CH4" ].

(** A model of the unit models the notebook can work with: the ports of
    the flowsheet exist; the names of the notebook are free; no arc and no
    objective is declared yet; the variables to be specified are declared
    and not fixed; the variables read by the notebook are declared, and so
    is the molecular weight of hydrogen; no variable is called
    [fs.R101.conversion]; the isentropic efficiency occurs in an activated
    equality of the compressor. *)
Definition framework_ok (u : Model) : bool :=
  forallb (λ p, bool_decide (p ∈ ports u)) flowsheet_ports
  && forallb (λ n, bool_decide (n ∉ components u)) notebook_components
  && match arcs u with [] => true | _ => false end
  && match objectives u with [] => true | _ => false end
  && forallb (is_unfixed u) (feed_variables ++ unit_specifications)
  && forallb (λ v, bool_decide (is_Some (vars u !! v))) referenced_variables
  && bool_decide (is_Some (params u !! "fs.thermo_params.H2.mw"))
  && bool_decide (vars u !! "fs.R101.conversion" = None)
  && bool_decide ("fs.C101.efficiency_isentropic[0]"
                    ∈ variables_in_activated_equalities u).

(** ** The stream graph *)

Fixpoint has_dot (s : string) : bool :=
  match s with
  | EmptyString => false
  | String c r => Ascii.eqb c (Ascii.ascii_of_nat 46) || has_dot r
  end.

(** The block a port belongs to: the name up to its last dot. *)
Fixpoint parent_block (s : string) : string :=
  match s with
  | EmptyString => EmptyString
  | String c r => if has_dot r then String c (parent_block r) else EmptyString
  end.

Definition stream_edges (l : list (string * ArcData)) : list (string * string) :=
  (λ a, (parent_block (source a.2), parent_block (destination a.2))) <$> l.

Definition downstream (es : list (string * string)) (u : string) : option string :=
  (λ r, r.2.2) <$> list_find (λ e, e.1 = u) es.

Fixpoint path_from (es : list (string * string)) (fuel : nat) (u : string) : list string :=
  u :: match fuel with
       | O => []
       | S n => match downstream es u with
                | Some v => path_from es n v
                | None => []
                end
       end.

(** ** Models that differ in values and fixed flags only *)

Definition var_structure (d : VarData) : bool * option Q * option Q :=
  (fixed d, lb d, ub d).

(** [fixes S m m']: [m'] is [m] with the variables of [S] fixed; values may
    differ, bounds and everything else are the same. *)
Record fixes (S : list string) (m m' : Model) : Prop := mkFixes {
  fixes_components : components m' = components m;
  fixes_ports : ports m' = ports m;
  fixes_vars : ∀ x,
    var_structure <$> vars m' !! x
    = (λ d, (bool_decide (x ∈ S) || fixed d, lb d, ub d)) <$> vars m !! x;
  fixes_params : params m' = params m;
  fixes_constraints : constraints m' = constraints m;
  fixes_expressions : expressions m' = expressions m;
  fixes_objectives : objectives m' = objectives m;
  fixes_arcs : arcs m' = arcs m
}.

(** Models that differ in the values of variables only. *)
Definition same_structure (m m' : Model) : Prop := fixes [] m m'.

(** ** Feasible points *)

(** An equality constraint holds at the values of a model. *)
Definition satisfied (m : Model) (c : ConstraintData) : Prop :=
  ∃ l r, eval m (c_lhs c) = Some l ∧ eval m (c_rhs c) = Some r ∧ (l == r)%Q.


(** ** What the declarative cells yield *)

(** The flowsheet after cells 14 to 20, over the unit models [u]: the arcs
    are expanded into equalities and the five expressions are declared. *)
Definition flowsheet_model (u : Model) (k : Q) : Model :=
  mkModel
    (list_to_set [ "fs.hyd_prod"; "fs.cooling_cost"; "fs.heating_cost";
                   "fs.compression_cost"; "fs.operating_cost" ]
       ∪ (list_to_set (expanded_name <$> flowsheet_arcs)
            ∪ (list_to_set (flowsheet_arcs.*1) ∪ components u)))
    (ports u) (vars u) (params u)
    (constraints u ++ (flowsheet_arcs ≫= arc_equalities))
    (expressions u
       ++ [ ("fs.hyd_prod", hyd_prod k);
            ("fs.cooling_cost", cooling_cost);
            ("fs.heating_cost", heating_cost);
            ("fs.compression_cost", compression_cost);
            ("fs.operating_cost", operating_cost) ])
    (objectives u)
    (deactivate <$> flowsheet_arcs).

(** The constraint of cell 29. *)
Definition conv_constraint : string * ConstraintData :=
  ("fs.R101.conv_constraint", mkCon conv_lhs Equality conv_rhs true).

(** Cell 29 on a model [m]: the conversion is declared with bounds 0 and 1
    and fixed at 0.80, and its constraint is added. *)
Definition with_conversion (m : Model) : Model :=
  mkModel
    (list_to_set [ "fs.R101.conversion"; "fs.R101.conv_constraint" ] ∪ components m)
    (ports m)
    (<["fs.R101.conversion" := mkVar (Some 0.80%Q) true (Some 0%Q) (Some 1%Q)]> (vars m))
    (params m) (constraints m ++ [conv_constraint])
    (expressions m) (objectives m) (arcs m).

(** What cell 47 does to the variable [x]. *)
Definition optimization_setup (x : string) (d : VarData) : VarData :=
  if decide (x = "fs.R101.conversion") then
    mkVar (Some 0.90%Q) true (lb d) (ub d)
  else if decide (x = pressure "fs.C101.outlet") then
    mkVar (var_value d) false (Some (convert_bar_to_Pa 10)) (ub d)
  else if decide (x = temperature "fs.H101.outlet") then
    mkVar (var_value d) false (lb d) (Some 1000%Q)
  else if decide (x = "fs.H101.heat_duty[0]") then
    mkVar (var_value d) (fixed d) (Some 0%Q) (ub d)
  else d.

(** The objective of cell 45. *)
Definition objective : string * ObjectiveData :=
  ("fs.objective", mkObj (Named "fs.operating_cost" operating_cost) minimize true).

(** The variables cell 47 unfixes. *)
Definition decision_variables : list string :=
  [ pressure "fs.C101.outlet"; temperature "fs.H101.outlet" ].

(** Cells 45 and 47 on a model [m]. *)
Definition optimization_model (m : Model) : Model :=
  mkModel ({[ "fs.objective" ]} ∪ components m) (ports m)
          (map_imap (λ x d, Some (optimization_setup x d)) (vars m))
          (params m) (constraints m) (expressions m)
          (objectives m ++ [objective]) (arcs m).

(** Declared and fixed. *)
Definition is_fixed (m : Model) (v : string) : bool :=
  match vars m !! v with
  | Some d => fixed d
  | None => false
  end.

(** A cell that changes the values of variables only. *)
Definition value_step (c : Session → outcome Session) : Prop :=
  ∀ s s', c s = Ok s' → same_structure (model s) (model s').
Record square_model (u : Model) (k : Q) (m1 : Model) : Prop := mkSquare {
  square_declared : dom (vars m1) = {[ "fs.R101.conversion" ]} ∪ dom (vars u);
  square_components : "fs.objective" ∉ components m1;
  square_constraints :
    constraints m1 = constraints (flowsheet_model u k) ++ [conv_constraint];
  square_objectives : objectives m1 = [];
  square_expressions : expressions m1 = expressions (flowsheet_model u k);
  square_fixed :
    ∀ x, is_fixed m1 x
         = bool_decide (x = "fs.R101.conversion")
           || bool_decide (x ∈ unit_specifications ++ feed_variables) || is_fixed u x;
  square_bounds :
    ∀ x, x ≠ "fs.R101.conversion" →
         (λ d, (lb d, ub d)) <$> vars m1 !! x = (λ d, (lb d, ub d)) <$> vars u !! x;
  square_conversion :
    var_structure <$> vars m1 !! "fs.R101.conversion" = Some (true, Some 0%Q, Some 1%Q);
  square_degrees_of_freedom :
    degrees_of_freedom m1 = (degrees_of_freedom (flowsheet_model u k) - 20)%Z
}.


(** ** Cells as lists of calls *)

(** What [fix(q)], [unfix()], [setlb(q)] and [setub(q)] do to the data of a
    variable. *)
Definition fixed_at (q : Q) (d : VarData) : VarData :=
  mkVar (Some q) true (lb d) (ub d).
Definition unfixed (d : VarData) : VarData :=
  mkVar (var_value d) false (lb d) (ub d).
Definition with_lb (q : Q) (d : VarData) : VarData :=
  mkVar (var_value d) (fixed d) (Some q) (ub d).
Definition with_ub (q : Q) (d : VarData) : VarData :=
  mkVar (var_value d) (fixed d) (lb d) (Some q).

(** A run of calls on variables, one after the other. *)
Fixpoint update_all (l : list (string * (VarData → VarData))) (m : Model)
  : outcome Model :=
  match l with
  | [] => Ok m
  | [c] => update_var c.2 c.1 m
  | c :: l' => (update_var c.2 c.1 >=> update_all l') m
  end.

(** What a run of calls does to the data [d] of the variable [x]. *)
Definition apply_calls (l : list (string * (VarData → VarData))) (x : string)
    (d : VarData) : VarData :=
  foldl (λ d c, if decide (c.1 = x) then c.2 d else d) d l.

(** The sixteen [fix] calls of cell 25, in the order of the cell. *)
Definition feed_conditions : list (string * Q) :=
  [ (mole_frac_comp "fs.CH4.outlet" "CH4", 1%Q);
    (mole_frac_comp "fs.CH4.outlet" "H2O", 1e-5%Q);
    (mole_frac_comp "fs.CH4.outlet" "H2", 1e-5%Q);
    (mole_frac_comp "fs.CH4.outlet" "CO", 1e-5%Q);
    (mole_frac_comp "fs.CH4.outlet" "CO2", 1e-5%Q);
    (flow_mol "fs.CH4.outlet", 75%Q);
    (temperature "fs.CH4.outlet", 298.15%Q);
    (pressure "fs.CH4.outlet", 1e5%Q);
    (mole_frac_comp "fs.H2O.outlet" "CH4", 1e-5%Q);
    (mole_frac_comp "fs.H2O.outlet" "H2O", 1%Q);
    (mole_frac_comp "fs.H2O.outlet" "H2", 1e-5%Q);
    (mole_frac_comp "fs.H2O.outlet" "CO", 1e-5%Q);
    (mole_frac_comp "fs.H2O.outlet" "CO2", 1e-5%Q);
    (flow_mol "fs.H2O.outlet", 234%Q);
    (temperature "fs.H2O.outlet", 373.15%Q);
    (pressure "fs.H2O.outlet", 1e5%Q) ].

(** The three [fix] calls of cell 27. *)
Definition unit_conditions : list (string * Q) :=
  [ (pressure "fs.C101.outlet", convert_bar_to_Pa 2);
    ("fs.C101.efficiency_isentropic[0]", 0.90%Q);
    (temperature "fs.H101.outlet", 500%Q) ].

Definition fix_calls (l : list (string * Q)) : list (string * (VarData → VarData)) :=
  (λ c, (c.1, fixed_at c.2)) <$> l.

(** The seven calls of cell 47. *)
Definition cell_47_calls : list (string * (VarData → VarData)) :=
  [ ("fs.R101.conversion", fixed_at 0.90%Q);
    (pressure "fs.C101.outlet", unfixed);
    (pressure "fs.C101.outlet", with_lb (convert_bar_to_Pa 1));
    (pressure "fs.C101.outlet", with_lb (convert_bar_to_Pa 10));
    (temperature "fs.H101.outlet", unfixed);
    ("fs.H101.heat_duty[0]", with_lb 0%Q);
    (temperature "fs.H101.outlet", with_ub 1000%Q) ].

(** The variables cell 47 names. *)
Definition optimization_variables : list string :=
  [ "fs.R101.conversion"; pressure "fs.C101.outlet";
    temperature "fs.H101.outlet"; "fs.H101.heat_duty[0]" ].

(** The sum of the mole fractions of a stream. *)
Definition total_mole_frac (p : string) : expr :=
  foldr (λ j e, Sum (VarRef (mole_frac_comp p j)) e) (Num 0) component_list.

(** *** Cell 34 as a list of calls *)

Inductive call : Type :=
| Initialize (unit_model : string)
| PropagateState (arc : string).

#[global] Instance call_eq_dec : EqDecision call.
Proof. solve_decision. Defined.

Definition cell_34_calls : list call :=
  [ Initialize "fs.CH4"; PropagateState "fs.s01";
    Initialize "fs.H2O"; PropagateState "fs.s02";
    Initialize "fs.M101"; PropagateState "fs.s03";
    Initialize "fs.C101"; PropagateState "fs.s04";
    Initialize "fs.H101"; PropagateState "fs.s05";
    Initialize "fs.R101"; PropagateState "fs.s06";
    Initialize "fs.PROD" ].

Definition do_call (fw : Framework) (c : call) : Session → outcome Session :=
  match c with
  | Initialize unit_model => initialize fw unit_model
  | PropagateState arc => propagate_state fw arc
  end.

Fixpoint do_calls (fw : Framework) (l : list call) (s : Session) : outcome Session :=
  match l with
  | [] => Ok s
  | [c] => do_call fw c s
  | c :: l' => (do_call fw c >=> do_calls fw l') s
  end.

(** ** What a run keeps *)

(** Every fixed variable of [m] outside [S] has the same data in [m']. *)
Definition keeps_fixed (S : string → bool) (m m' : Model) : Prop :=
  ∀ x d, S x = false → vars m !! x = Some d → fixed d = true →
         vars m' !! x = Some d.

(** The names in a list. *)
Definition named (l : list string) (x : string) : bool := bool_decide (x ∈ l).

(** What belongs to one of the components in a list. *)
Definition owned_by (l : list string) (x : string) : bool :=
  existsb (λ n, owned n x) l.

(** The result of a step on a model, or [m] when it raises. *)
Definition model_after (r : outcome Model) (m : Model) : Model :=
  match r with
  | Ok m' => m'
  | Raised _ => m
  end.

(** ** The small instance, to the end of the notebook *)

Definition toy_final : Session :=
  state_after (run (optimum_stage Toy.fw) Toy.s48) Toy.s48.

(** The small instance after cell 25 alone. *)
Definition toy_25 : Model := model_after (cell_25 Toy.units) Toy.units.

(** The four variables of cell 47 as the square problem leaves them, and
    cell 47 on them. *)
Definition toy_decisions : Model :=
  mkModel ∅ ∅
    (list_to_map
       [ ("fs.R101.conversion", mkVar (Some 0.80%Q) true (Some 0%Q) (Some 1%Q));
         (pressure "fs.C101.outlet", mkVar (Some 2e5%Q) true (Some 5e4%Q) (Some 1e8%Q));
         (temperature "fs.H101.outlet", mkVar (Some 500%Q) true (Some 273.15%Q) None);
         ("fs.H101.heat_duty[0]", mkVar (Some 1862126.2%Q) false None None) ])
    ∅ [] [] [] [].
Definition toy_47 : Model := model_after (cell_47 toy_decisions) toy_decisions.

(** A cell that only checks: when it returns, the session is as it was. *)
Definition check_step (c : Session → outcome Session) : Prop :=
  ∀ s s', c s = Ok s' → s' = s.

(** A cell that leaves the data of every fixed variable as it was. *)
Definition keeps_step (c : Session → outcome Session) : Prop :=
  ∀ s s', c s = Ok s' → keeps_fixed (λ _, false) (model s) (model s').

(** The cells of the solve stage before cell 42, and the cells of the last
    stage before cell 56. *)
Definition before_cell_42 (fw : Framework) : list (nat * (Session → outcome Session)) :=
  [ (34, cell_34 fw); (35, cell_35 fw); (36, cell_36);
    (38, cell_38); (39, cell_39); (41, cell_41 fw) ].

Definition before_cell_56 (fw : Framework) : list (nat * (Session → outcome Session)) :=
  [ (50, cell_50 fw); (51, cell_51); (52, cell_52 fw); (53, cell_53);
    (55, cell_55) ].

(** The small instance with the compressor outlet pressure fixed, and
    unfixed again. *)
Definition toy_fixed : Model :=
  model_after (fix_var (pressure "fs.C101.outlet") 2e5 Toy.units) Toy.units.
Definition toy_unfixed : Model :=
  model_after (unfix (pressure "fs.C101.outlet") toy_fixed) toy_fixed.

(** The small instance with its arcs (cell 14), and expanded (cell 16). *)
Definition toy_14 : Model := model_after (cell_14 Toy.units) Toy.units.
Definition toy_16 : Model := model_after (cell_16 toy_14) toy_14.


(** The stream variables the conversion constraint reads. *)
Definition reactor_streams : list string :=
  [ flow_mol "fs.R101.inlet"; mole_frac_comp "fs.R101.inlet" "CH4";
    flow_mol "fs.R101.outlet"; mole_frac_comp "fs.R101.outlet" "CH4" ].

(** What a call of cell 34 asks of the framework. *)
Definition framework_call (fw : Framework) (c : call) (m : Model)
  : outcome (gmap string Q) :=
  match c with
  | Initialize unit_model => fw_initialize fw unit_model m
  | PropagateState arc => fw_propagate_state fw arc m
  end.

(** The units cell 52 reports, in order. *)
Definition cell_52_reports : list string := ["fs.C101"; "fs.H101"; "fs.R101"].

(** The small instance with a solver that raises, and its session after
    cell 34. *)
Definition toy_solver_fails : Framework :=
  mkFramework (Ok Toy.units) (fw_Mlb_per_yr Toy.fw) (λ _ _, Ok ∅) (λ _ _, Ok ∅)
              (λ _, Raised (FrameworkError "solver")) (λ _ _, Ok ()).

Definition toy_s34 : Session :=
  state_after (cell_34 toy_solver_fails Toy.s32) Toy.s32.

(** No component of the model belongs to [name]: deleting it changes
    nothing. *)
Definition unused (name : string) (m : Model) : Prop :=
  del_component name m = m.

(** A check that no component of the model belongs to [name]. *)
Definition no_key {A : Type} (name : string) (l : list (string * A)) : bool :=
  forallb (λ c, negb (owned name c.1)) l.

Definition unused_check (name : string) (m : Model) : bool :=
  forallb (λ n, negb (owned name n)) (elements (components m))
  && forallb (λ n, negb (owned name n)) (elements (ports m))
  && no_key name (map_to_list (vars m))
  && no_key name (map_to_list (params m))
  && no_key name (constraints m)
  && no_key name (expressions m)
  && no_key name (objectives m)
  && no_key name (arcs m).

(** What the cells after cell 27 can change of the fixed variables. *)
Definition changed_later (x : string) : bool :=
  owned_by ["fs.R101.conversion"; "fs.R101.conv_constraint"] x
  || (false || (owned_by ["fs.objective"] x || (named cell_47_calls.*1 x || false))).


(** * Proofs *)

(** ** The error monad *)

Lemma bind_Ok {A B : Type} (c : outcome A) (k : A → outcome B) (a : A) :
  c = Ok a → c ≫= k = k a.
Proof. by intros ->. Qed.

Lemma bind_Ok_inv {A B : Type} (c : outcome A) (k : A → outcome B) (b : B) :
  c ≫= k = Ok b → ∃ a, c = Ok a ∧ k a = Ok b.
Proof. destruct c as [a|e]; [eauto | discriminate]. Qed.

Lemma bind_Raised {A B : Type} (c : outcome A) (k : A → outcome B) (e : exn) :
  c = Raised e → c ≫= k = Raised e.
Proof. by intros ->. Qed.

Lemma yields_seq {S : Type} (c1 c2 : S → outcome S) (s : S) (P : S → Prop) :
  yields c1 s (λ s1, yields c2 s1 P) → yields (c1 >=> c2) s P.
Proof.
  intros (s1 & H1 & s2 & H2 & HP). exists s2. split; [|done].
  unfold seq_step. by rewrite H1.
Qed.

Lemma yields_assoc {S : Type} (c1 c2 c3 : S → outcome S) (s : S) (P : S → Prop) :
  yields (c1 >=> (c2 >=> c3)) s P → yields ((c1 >=> c2) >=> c3) s P.
Proof.
  intros (s' & H & HP). exists s'. split; [|done].
  unfold seq_step in *. by destruct (c1 s).
Qed.

Lemma yields_mono {S : Type} (c : S → outcome S) (s : S) (P Q : S → Prop) :
  (∀ s', P s' → Q s') → yields c s P → yields c s Q.
Proof. intros HPQ (s' & ? & ?). exists s'. eauto. Qed.

(** ** The modelling calls *)

Lemma yields_update_var f v m (P : Model → Prop) :
  v ∈ dom (vars m) →
  P (set_vars m (alter f v (vars m))) →
  yields (update_var f v) m P.
Proof.
  intros [d Hv]%elem_of_dom HP. eexists. unfold update_var. rewrite Hv. eauto.
Qed.

Lemma add_component_Ok name m :
  name ∉ components m →
  add_component name m
  = Ok (mkModel ({[ name ]} ∪ components m) (ports m) (vars m) (params m)
                (constraints m) (expressions m) (objectives m) (arcs m)).
Proof. intros H. unfold add_component. by rewrite decide_False. Qed.

Lemma filter_none {A : Type} (P : A → Prop) `{!∀ x, Decision (P x)} (l : list A) :
  Forall (λ x, ¬ P x) l → filter P l = [].
Proof.
  induction 1 as [|x l Hx _ IH]; [done|].
  by rewrite filter_cons_False.
Qed.

Lemma check_declared_Ok e m :
  identify_variables e ⊆ dom (vars m) →
  identify_params e ⊆ dom (params m) →
  check_declared e m = Ok m.
Proof.
  intros Hv Hp. unfold check_declared.
  assert (filter (λ v, vars m !! v = None) (elements (identify_variables e)) = []) as ->.
  { apply filter_none, Forall_forall. intros v Hin%elem_of_elements Hn.
    apply Hv, elem_of_dom in Hin as [d Hd]. congruence. }
  assert (filter (λ p, params m !! p = None) (elements (identify_params e)) = []) as ->.
  { apply filter_none, Forall_forall. intros v Hin%elem_of_elements Hn.
    apply Hp, elem_of_dom in Hin as [d Hd]. congruence. }
  done.
Qed.

Lemma yields_add_component name m (P : Model → Prop) :
  name ∉ components m →
  P (mkModel ({[ name ]} ∪ components m) (ports m) (vars m) (params m)
             (constraints m) (expressions m) (objectives m) (arcs m)) →
  yields (add_component name) m P.
Proof. intros H HP. eexists. by rewrite add_component_Ok. Qed.

Lemma yields_Arc name src dst m (P : Model → Prop) :
  src ∈ ports m → dst ∈ ports m → name ∉ components m →
  P (mkModel ({[ name ]} ∪ components m) (ports m) (vars m) (params m)
             (constraints m) (expressions m) (objectives m)
             (arcs m ++ [(name, mkArc src dst true)])) →
  yields (Arc name src dst) m P.
Proof.
  intros Hs Hd Hn HP. eexists. unfold Arc.
  rewrite !decide_True, add_component_Ok by done. eauto.
Qed.

Lemma yields_Expression name e m (P : Model → Prop) :
  identify_variables e ⊆ dom (vars m) →
  identify_params e ⊆ dom (params m) →
  name ∉ components m →
  P (mkModel ({[ name ]} ∪ components m) (ports m) (vars m) (params m)
             (constraints m) (expressions m ++ [(name, e)]) (objectives m) (arcs m)) →
  yields (Expression name e) m P.
Proof.
  intros Hv Hp Hn HP. eexists. unfold Expression.
  rewrite check_declared_Ok by done. cbn [mbind outcome_bind].
  rewrite add_component_Ok by done. eauto.
Qed.

Lemma yields_Objective name e m (P : Model → Prop) :
  identify_variables e ⊆ dom (vars m) →
  identify_params e ⊆ dom (params m) →
  name ∉ components m →
  P (mkModel ({[ name ]} ∪ components m) (ports m) (vars m) (params m)
             (constraints m) (expressions m)
             (objectives m ++ [(name, mkObj e minimize true)]) (arcs m)) →
  yields (Objective name e) m P.
Proof.
  intros Hv Hp Hn HP. eexists. unfold Objective.
  rewrite check_declared_Ok by done. cbn [mbind outcome_bind].
  rewrite add_component_Ok by done. eauto.
Qed.

Lemma yields_Constraint name l r m (P : Model → Prop) :
  identify_variables l ∪ identify_variables r ⊆ dom (vars m) →
  identify_params l ∪ identify_params r ⊆ dom (params m) →
  name ∉ components m →
  P (mkModel ({[ name ]} ∪ components m) (ports m) (vars m) (params m)
             (constraints m ++ [(name, mkCon l Equality r true)])
             (expressions m) (objectives m) (arcs m)) →
  yields (Constraint name l r) m P.
Proof.
  intros Hv Hp Hn HP. eexists. unfold Constraint.
  rewrite check_declared_Ok by set_solver. cbn [mbind outcome_bind].
  rewrite check_declared_Ok by set_solver. cbn [mbind outcome_bind].
  rewrite add_component_Ok by done. eauto.
Qed.

Lemma yields_Var name init lo hi m (P : Model → Prop) :
  name ∉ components m →
  P (mkModel ({[ name ]} ∪ components m) (ports m)
             (<[name := mkVar (Some init) false (Some lo) (Some hi)]> (vars m))
             (params m) (constraints m) (expressions m) (objectives m) (arcs m)) →
  yields (Var name init lo hi) m P.
Proof.
  intros Hn HP. eexists. unfold Var.
  rewrite add_component_Ok by done. eauto.
Qed.

(** ** Expanding arcs *)

Lemma unique_component_name_free m name :
  name ∉ components m → unique_component_name m name = name.
Proof. intros H. unfold unique_component_name. by rewrite decide_False. Qed.

Lemma length_append (s t : string) :
  String.length (s +:+ t) = (String.length s + String.length t)%nat.
Proof. induction s as [|c s IH]; [done|]. exact (f_equal S IH). Qed.

(** When the search ends on a name in use, it has seen more names in use
    than it had fuel. *)
Lemma free_name_in_use fuel m s :
  free_name fuel m s ∈ components m →
  ∃ l, NoDup l ∧ length l = S fuel
       ∧ Forall (λ x, x ∈ components m ∧ (String.length s ≤ String.length x)%nat) l.
Proof.
  revert s. induction fuel as [|n IH]; intros s; cbn [free_name].
  - intros H. exists [s]. split; [apply NoDup_singleton|]. split; [done|].
    apply Forall_singleton. split; [by destruct (decide _) | lia].
  - destruct (decide (s ∈ components m)) as [Hs|Hs]; [|done].
    intros (l & Hnd & Hlen & Hl)%IH. exists (s :: l).
    split; [|split; [cbn [length]; by rewrite Hlen|]].
    + apply NoDup_cons. split; [|done]. intros Hin.
      rewrite Forall_forall in Hl. apply Hl in Hin as [_ Hle].
      rewrite length_append in Hle. cbn in Hle. lia.
    + apply Forall_cons. split; [split; [done | lia]|].
      eapply Forall_impl; [exact Hl|]. intros x [Hx Hle]. split; [done|].
      rewrite length_append in Hle. lia.
Qed.

(** The name of an expansion block is never in use. *)
Lemma unique_component_name_fresh m name :
  unique_component_name m name ∉ components m.
Proof.
  unfold unique_component_name.
  destruct (decide (name ∈ components m)) as [_|Hn]; [|done].
  intros (l & Hnd & Hlen & Hl)%free_name_in_use.
  assert (l ⊆+ elements (components m)) as Hsub%submseteq_length.
  { apply NoDup_submseteq; [done|]. intros x Hx. apply elem_of_elements.
    rewrite Forall_forall in Hl. by apply Hl. }
  rewrite Hlen in Hsub. unfold size, set_size in Hsub. cbn in Hsub. lia.
Qed.

Lemma expand_fold_Ok (l : list (string * ArcData)) (m : Model) :
  Forall (λ a, arc_active a.2 = true) l →
  NoDup (expanded_name <$> l) →
  Forall (λ a, expanded_name a ∉ components m) l →
  foldl (λ acc a, acc ≫= expand_arc a) (Ok m) l
  = Ok (mkModel (list_to_set (expanded_name <$> l) ∪ components m) (ports m)
                (vars m) (params m) (constraints m ++ (l ≫= arc_equalities))
                (expressions m) (objectives m) (arcs m)).
Proof.
  revert m. induction l as [|a l IH]; intros m Hact Hnd Hfresh.
  - simpl. destruct m; simpl. f_equal. f_equal; [set_solver | by rewrite app_nil_r].
  - apply Forall_cons in Hact as [Ha Hact]. apply Forall_cons in Hfresh as [Hfa Hfresh].
    rewrite fmap_cons in Hnd. apply NoDup_cons in Hnd as [Hna Hnd].
    simpl. unfold expand_arc at 2. rewrite Ha.
    rewrite unique_component_name_free by done.
    fold (arc_equality a). fold (arc_equalities a).
    rewrite IH; [| done | done |].
    + simpl. f_equal. f_equal; [set_solver | by rewrite <- app_assoc].
    + simpl. apply Forall_forall. intros b Hb.
      rewrite Forall_forall in Hfresh.
      apply not_elem_of_union. split; [|by apply Hfresh].
      apply not_elem_of_singleton. intros Heq. apply Hna. rewrite <- Heq.
      by apply list_elem_of_fmap_2.
Qed.

Lemma yields_expand_arcs (m : Model) (P : Model → Prop) :
  Forall (λ a, arc_active a.2 = true) (arcs m) →
  NoDup (expanded_name <$> arcs m) →
  Forall (λ a, expanded_name a ∉ components m) (arcs m) →
  P (mkModel (list_to_set (expanded_name <$> arcs m) ∪ components m) (ports m)
             (vars m) (params m) (constraints m ++ (arcs m ≫= arc_equalities))
             (expressions m) (objectives m) (deactivate <$> arcs m)) →
  yields expand_arcs m P.
Proof.
  intros Hact Hnd Hfresh HP. eexists. unfold expand_arcs.
  rewrite expand_fold_Ok by done. simpl. eauto.
Qed.

(** ** Counting degrees of freedom *)

Lemma elem_of_unfixed_set m x :
  x ∈ unfixed_variables_in_activated_equalities_set m
  ↔ is_unfixed m x = true ∧ x ∈ variables_in_activated_equalities m.
Proof. unfold unfixed_variables_in_activated_equalities_set. by rewrite elem_of_filter. Qed.

Lemma variables_in_activated_equalities_app m m' extra :
  activated_equalities m' = activated_equalities m ++ extra →
  variables_in_activated_equalities m'
  = variables_in_activated_equalities m ∪ ⋃ (constraint_variables <$> extra).
Proof.
  intros H. unfold variables_in_activated_equalities.
  rewrite H, fmap_app. apply leibniz_equiv, union_list_app.
Qed.

Lemma activated_equalities_app m l :
  filter (λ c, activated_equality c = true) ((constraints m ++ l).*2)
  = activated_equalities m ++ filter (λ c, activated_equality c = true) l.*2.
Proof. unfold activated_equalities. by rewrite fmap_app, filter_app. Qed.

(** Fixing the variables [S], all of them unfixed and in activated
    equalities, and adding the activated equalities [extra], which bring no
    unfixed variable of their own, lowers the degrees of freedom by the
    number of both. *)
Lemma degrees_of_freedom_change m m' (S : list string) (extra : list ConstraintData) :
  NoDup S →
  activated_equalities m' = activated_equalities m ++ extra →
  (∀ c v, c ∈ extra → v ∈ constraint_variables c →
          v ∈ variables_in_activated_equalities m ∨ is_unfixed m' v = false) →
  (∀ x, is_unfixed m' x = is_unfixed m x && bool_decide (x ∉ S)) →
  (∀ x, x ∈ S → x ∈ variables_in_activated_equalities m ∧ is_unfixed m x = true) →
  degrees_of_freedom m'
  = (degrees_of_freedom m - Z.of_nat (length S) - Z.of_nat (length extra))%Z.
Proof.
  intros Hnd Hae Hextra Hunf HS.
  assert (unfixed_variables_in_activated_equalities_set m'
          = unfixed_variables_in_activated_equalities_set m ∖ list_to_set S) as HU.
  { apply set_eq. intros x.
    rewrite elem_of_difference, !elem_of_unfixed_set, elem_of_list_to_set.
    rewrite (variables_in_activated_equalities_app m m' extra Hae), Hunf.
    rewrite andb_true_iff, bool_decide_eq_true, elem_of_union, elem_of_union_list.
    split.
    - intros [[Hx Hn] [Hin | (X & HX & Hin)]]; [done|].
      apply list_elem_of_fmap in HX as (c & -> & Hc).
      destruct (Hextra c x Hc Hin) as [?|Hf]; [done|].
      rewrite Hunf, Hx in Hf. simpl in Hf. apply bool_decide_eq_false in Hf. done.
    - intros [[Hx Hin] Hn]. eauto. }
  assert (list_to_set S ⊆ unfixed_variables_in_activated_equalities_set m) as Hsub.
  { intros x Hx%elem_of_list_to_set. apply elem_of_unfixed_set.
    destruct (HS x Hx). done. }
  unfold degrees_of_freedom. rewrite HU, Hae, length_app.
  rewrite size_difference by done.
  apply subseteq_size in Hsub.
  rewrite size_list_to_set in * by done. lia.
Qed.

Lemma fixes_is_unfixed S m m' x :
  fixes S m m' → is_unfixed m' x = is_unfixed m x && bool_decide (x ∉ S).
Proof.
  intros H. pose proof (fixes_vars _ _ _ H x) as Hx. unfold is_unfixed.
  destruct (vars m' !! x) as [d'|], (vars m !! x) as [d|]; try done.
  unfold var_structure in Hx. simpl in Hx. injection Hx as -> _ _.
  rewrite negb_orb, andb_comm. f_equal.
  by rewrite bool_decide_not.
Qed.

Lemma fixes_dom S m m' : fixes S m m' → dom (vars m') = dom (vars m).
Proof.
  intros H. apply set_eq. intros x. rewrite !elem_of_dom.
  pose proof (fixes_vars _ _ _ H x) as Hx.
  destruct (vars m' !! x), (vars m !! x); try done; split; eauto.
  all: intros [? ?]; done.
Qed.

Lemma fixes_activated_equalities S m m' :
  fixes S m m' → activated_equalities m' = activated_equalities m.
Proof. intros H. unfold activated_equalities. by rewrite (fixes_constraints _ _ _ H). Qed.

(** Fixing unfixed variables of activated equalities lowers the degrees of
    freedom by their number. *)
Lemma degrees_of_freedom_fixes S m m' :
  NoDup S → fixes S m m' →
  (∀ x, x ∈ S → x ∈ variables_in_activated_equalities m ∧ is_unfixed m x = true) →
  degrees_of_freedom m' = (degrees_of_freedom m - Z.of_nat (length S))%Z.
Proof.
  intros Hnd H HS.
  rewrite (degrees_of_freedom_change m m' S []); try done.
  - simpl. lia.
  - by rewrite app_nil_r, (fixes_activated_equalities _ _ _ H).
  - intros c v Hc. by apply elem_of_nil in Hc.
  - intros x. by apply fixes_is_unfixed.
Qed.

Lemma degrees_of_freedom_same_structure m m' :
  same_structure m m' → degrees_of_freedom m' = degrees_of_freedom m.
Proof.
  intros H. rewrite (degrees_of_freedom_fixes [] m m'); [simpl; lia | constructor | done |].
  intros x Hx. by apply elem_of_nil in Hx.
Qed.

(** ** What [framework_ok] gives *)

Lemma framework_ok_facts u :
  framework_ok u = true →
  (∀ p, p ∈ flowsheet_ports → p ∈ ports u)
  ∧ (∀ n, n ∈ notebook_components → n ∉ components u)
  ∧ arcs u = [] ∧ objectives u = []
  ∧ (∀ v, v ∈ (feed_variables ++ unit_specifications) → is_unfixed u v = true)
  ∧ (∀ v, v ∈ referenced_variables → v ∈ dom (vars u))
  ∧ "fs.thermo_params.H2.mw" ∈ dom (params u)
  ∧ ("fs.R101.conversion" ∉ dom (vars u))
  ∧ "fs.C101.efficiency_isentropic[0]" ∈ variables_in_activated_equalities u.
Proof.
  unfold framework_ok. rewrite !andb_true_iff, !forallb_forall.
  intros [[[[[[[[Hp Hn] Ha] Ho] Hu] Hr] Hm] Hc] He].
  repeat split.
  - intros p Hin%list_elem_of_In. apply Hp in Hin. by apply bool_decide_eq_true in Hin.
  - intros n Hin%list_elem_of_In. apply Hn in Hin. by apply bool_decide_eq_true in Hin.
  - by destruct (arcs u).
  - by destruct (objectives u).
  - intros v Hin%list_elem_of_In. by apply Hu.
  - intros v Hin%list_elem_of_In. apply elem_of_dom.
    apply Hr in Hin. by apply bool_decide_eq_true in Hin.
  - apply elem_of_dom. by apply bool_decide_eq_true in Hm.
  - apply not_elem_of_dom. by apply bool_decide_eq_true in Hc.
  - by apply bool_decide_eq_true in He.
Qed.

Lemma is_unfixed_dom m v : is_unfixed m v = true → v ∈ dom (vars m).
Proof.
  unfold is_unfixed. intros H. apply elem_of_dom.
  destruct (vars m !! v); [eauto | discriminate].
Qed.

Ltac closed := compute_done.

(** A name is free in a set that grew by closed names. *)
Ltac name_free H :=
  repeat (apply not_elem_of_union; split);
  first [ apply not_elem_of_singleton; closed | apply H; closed ].

Ltac unfold_model :=
  unfold set_vars;
  cbn [components ports vars params constraints expressions objectives arcs set_vars].

Lemma yields_eq {S : Type} (c : S → outcome S) (s s' : S) :
  yields c s (λ r, r = s') → c s = Ok s'.
Proof. by intros (r & -> & ->). Qed.

Lemma cell_14_Ok u :
  (∀ p, p ∈ flowsheet_ports → p ∈ ports u) →
  (∀ n, n ∈ flowsheet_arcs.*1 → n ∉ components u) →
  cell_14 u
  = Ok (mkModel (list_to_set (flowsheet_arcs.*1) ∪ components u) (ports u) (vars u)
                (params u) (constraints u) (expressions u) (objectives u)
                (arcs u ++ flowsheet_arcs)).
Proof.
  intros Hp Hn. apply yields_eq. unfold cell_14.
  repeat (apply yields_seq, yields_Arc; unfold_model;
          [ apply Hp; closed | apply Hp; closed | name_free Hn | ]).
  apply yields_Arc; unfold_model; [ apply Hp; closed | apply Hp; closed | name_free Hn | ].
  f_equal; [set_solver | by rewrite <- !app_assoc].
Qed.

Lemma cell_16_Ok m :
  arcs m = flowsheet_arcs →
  (∀ n, n ∈ expanded_name <$> flowsheet_arcs → n ∉ components m) →
  cell_16 m
  = Ok (mkModel (list_to_set (expanded_name <$> flowsheet_arcs) ∪ components m)
                (ports m) (vars m) (params m)
                (constraints m ++ (flowsheet_arcs ≫= arc_equalities))
                (expressions m) (objectives m) (deactivate <$> flowsheet_arcs)).
Proof.
  intros Ha Hn. apply yields_eq. unfold cell_16.
  apply yields_expand_arcs; rewrite Ha.
  - closed.
  - closed.
  - apply Forall_forall. intros a Hin. apply Hn. by apply list_elem_of_fmap_2.
  - done.
Qed.

Lemma subseteq_of_forall (l : list string) (X : gset string) :
  (∀ v, v ∈ l → v ∈ X) → list_to_set l ⊆ X.
Proof. intros H v Hv%elem_of_list_to_set. by apply H. Qed.

(** The variables of a closed expression are among the listed ones. *)
Ltac declared H :=
  etrans; [| apply subseteq_of_forall, H ]; closed.

Lemma cell_19_20_Ok m k :
  (∀ v, v ∈ referenced_variables → v ∈ dom (vars m)) →
  "fs.thermo_params.H2.mw" ∈ dom (params m) →
  (∀ n, n ∈ [ "fs.hyd_prod"; "fs.cooling_cost"; "fs.heating_cost";
              "fs.compression_cost"; "fs.operating_cost" ] → n ∉ components m) →
  (cell_19 k >=> cell_20) m
  = Ok (mkModel (list_to_set [ "fs.hyd_prod"; "fs.cooling_cost"; "fs.heating_cost";
                               "fs.compression_cost"; "fs.operating_cost" ]
                   ∪ components m)
                (ports m) (vars m) (params m) (constraints m)
                (expressions m
                   ++ [ ("fs.hyd_prod", hyd_prod k);
                        ("fs.cooling_cost", cooling_cost);
                        ("fs.heating_cost", heating_cost);
                        ("fs.compression_cost", compression_cost);
                        ("fs.operating_cost", operating_cost) ])
                (objectives m) (arcs m)).
Proof.
  intros Hv Hp Hn. apply yields_eq. unfold cell_19, cell_20.
  assert (∀ e, identify_params e ⊆ {[ "fs.thermo_params.H2.mw" ]} →
               identify_params e ⊆ dom (params m)) as Hps by set_solver.
  repeat (apply yields_seq, yields_Expression; unfold_model;
          [ declared Hv | apply Hps; closed | name_free Hn | ]).
  apply yields_Expression; unfold_model;
    [ declared Hv | apply Hps; closed | name_free Hn | ].
  f_equal; [set_solver | by rewrite <- !app_assoc].
Qed.

(** ** Fixing variables one after the other *)

Lemma fixes_refl m : fixes [] m m.
Proof.
  split; done.
Qed.

Lemma fixes_equiv S S' m m' :
  (∀ x, x ∈ S ↔ x ∈ S') → fixes S m m' → fixes S' m m'.
Proof.
  intros HS [? ? Hv ? ? ? ? ?]. split; try done.
  intros x. rewrite Hv. by rewrite (bool_decide_ext _ _ (HS x)).
Qed.

Lemma fixes_same_structure S m m1 m2 :
  fixes S m m1 → same_structure m1 m2 → fixes S m m2.
Proof.
  intros [? ? Hv ? ? ? ? ?] [? ? Hv' ? ? ? ? ?]. split; try congruence.
  intros x. rewrite Hv', <- Hv.
  by destruct (vars m1 !! x) as [d|].
Qed.

Lemma yields_fix_var S m0 m v q (P : Model → Prop) :
  fixes S m0 m → v ∈ dom (vars m0) →
  (∀ m', fixes (v :: S) m0 m' → value_of m' v = Some q → P m') →
  yields (fix_var v q) m P.
Proof.
  intros H Hv HP. pose proof (fixes_dom _ _ _ H) as Hdom.
  apply yields_update_var; [by rewrite Hdom|].
  apply HP.
  - destruct H as [? ? Hvars ? ? ? ? ?]. split; unfold_model; try done.
    intros x. specialize (Hvars x).
    destruct (decide (v = x)) as [<-|Hx];
      [rewrite lookup_alter_eq | rewrite lookup_alter_ne by done].
    + destruct (vars m !! v) as [d|], (vars m0 !! v) as [d0|]; try done.
      unfold var_structure in *. simpl in *. injection Hvars as _ -> ->.
      by rewrite bool_decide_true by left.
    + rewrite Hvars. destruct (vars m0 !! x) as [d0|]; [|done]. simpl.
      do 4 f_equal. apply bool_decide_ext. rewrite elem_of_cons. naive_solver.
  - unfold value_of. unfold_model. rewrite lookup_alter_eq.
    rewrite <- Hdom in Hv. apply elem_of_dom in Hv as [d ->]. done.
Qed.

Lemma list_subseteq_of_Forall (l1 l2 : list string) :
  Forall (λ y, y ∈ l2) l1 → ∀ x, x ∈ l1 → x ∈ l2.
Proof. intros H x Hx. by eapply Forall_forall in H. Qed.

(** One step of a run of [fix] calls. *)
Ltac fix_step Hdom :=
  repeat apply yields_assoc;
  lazymatch goal with
  | H : fixes ?S ?m0 ?m |- yields (fix_var ?v ?q >=> _) ?m _ =>
      let m' := fresh "m" in
      let H' := fresh "Hfix" in
      apply yields_seq, (yields_fix_var S m0 m v q _ H); [apply Hdom; closed|];
      intros m' H' _; clear H
  | H : fixes ?S ?m0 ?m |- yields (fix_var ?v ?q) ?m _ =>
      let m' := fresh "m" in
      let H' := fresh "Hfix" in
      apply (yields_fix_var S m0 m v q _ H); [apply Hdom; closed|];
      intros m' H' _; clear H
  end.

Lemma fixes_trans S1 S2 m0 m1 m2 :
  fixes S1 m0 m1 → fixes S2 m1 m2 → fixes (S2 ++ S1) m0 m2.
Proof.
  intros [? ? Hv ? ? ? ? ?] [? ? Hv' ? ? ? ? ?]. split; try congruence.
  intros x. rewrite Hv'. specialize (Hv x).
  destruct (vars m1 !! x) as [d1|], (vars m0 !! x) as [d0|]; try done.
  unfold var_structure in Hv. simpl in *. injection Hv as -> -> ->.
  rewrite orb_assoc, <- bool_decide_or. do 4 f_equal.
  apply bool_decide_ext. by rewrite elem_of_app.
Qed.

Lemma cell_25_yields m (P : Model → Prop) :
  (∀ v, v ∈ feed_variables → v ∈ dom (vars m)) →
  (∀ m', fixes feed_variables m m' → P m') →
  yields cell_25 m P.
Proof.
  intros Hdom HP. pose proof (fixes_refl m) as H. unfold cell_25.
  repeat fix_step Hdom.
  apply HP. eapply fixes_equiv; [|done].
  intros x. split; apply list_subseteq_of_Forall; closed.
Qed.

Lemma cell_27_yields m (P : Model → Prop) :
  (∀ v, v ∈ unit_specifications → v ∈ dom (vars m)) →
  (∀ m', fixes unit_specifications m m' → P m') →
  yields cell_27 m P.
Proof.
  intros Hdom HP. pose proof (fixes_refl m) as H. unfold cell_27.
  repeat fix_step Hdom.
  apply HP. eapply fixes_equiv; [|done].
  intros x. split; apply list_subseteq_of_Forall; closed.
Qed.

Lemma cell_29_Ok m :
  "fs.R101.conversion" ∉ dom (vars m) →
  (∀ v, v ∈ referenced_variables → v ∈ dom (vars m)) →
  (∀ n, n ∈ ["fs.R101.conversion"; "fs.R101.conv_constraint"] → n ∉ components m) →
  cell_29 m = Ok (with_conversion m).
Proof.
  intros Hc Hv Hn. apply yields_eq. unfold cell_29.
  apply yields_seq, yields_Var; unfold_model; [name_free Hn |].
  apply yields_seq, yields_Constraint; unfold_model.
  - rewrite dom_insert_L.
    transitivity ({[ "fs.R101.conversion" ]} ∪ list_to_set referenced_variables : gset string);
      [closed|]. apply union_mono_l, subseteq_of_forall, Hv.
  - transitivity (∅ : gset string); [closed | set_solver].
  - name_free Hn.
  - apply yields_update_var; unfold_model.
    + rewrite dom_insert_L. set_solver.
    + rewrite alter_insert_eq. unfold_model. cbn [lb ub]. unfold with_conversion.
      f_equal. set_solver.
Qed.

Lemma free_after (names earlier : list string) (X : gset string) :
  Forall (λ n, n ∉ earlier) names →
  (∀ n, n ∈ names → n ∉ X) →
  ∀ n, n ∈ names → n ∉ list_to_set earlier ∪ X.
Proof.
  intros Hd HX n Hn. apply not_elem_of_union. split; [|by apply HX].
  rewrite elem_of_list_to_set. by eapply Forall_forall in Hd.
Qed.

Lemma notebook_name_free (names : list string) (X : gset string) :
  Forall (λ n, n ∈ notebook_components) names →
  (∀ n, n ∈ notebook_components → n ∉ X) →
  ∀ n, n ∈ names → n ∉ X.
Proof. intros Hs HX n Hn. apply HX. by eapply Forall_forall in Hs. Qed.

Lemma seq_step_Ok {S : Type} (c1 c2 : S → outcome S) (s s1 : S) :
  c1 s = Ok s1 → (c1 >=> c2) s = c2 s1.
Proof. unfold seq_step. by intros ->. Qed.

Lemma seq_step_assoc {S : Type} (c1 c2 c3 : S → outcome S) (s : S) :
  ((c1 >=> c2) >=> c3) s = (c1 >=> c2 >=> c3) s.
Proof. unfold seq_step. by destruct (c1 s). Qed.

Lemma build_cells_Ok u k :
  framework_ok u = true →
  (cell_14 >=> cell_16 >=> cell_19 k >=> cell_20) u = Ok (flowsheet_model u k).
Proof.
  intros (Hp & Hn & Ha & Ho & Hu & Hr & Hm & Hc & He)%framework_ok_facts.
  erewrite seq_step_Ok;
    [| apply cell_14_Ok; [done | apply notebook_name_free; [closed | done]]].
  erewrite seq_step_Ok; [| apply cell_16_Ok; unfold_model].
  - rewrite cell_19_20_Ok; unfold_model; [done | done | done |].
    do 2 (apply free_after; [closed|]).
    apply notebook_name_free; [closed | done].
  - by rewrite Ha.
  - apply free_after; [closed|]. apply notebook_name_free; [closed | done].
Qed.

(** ** Variables of the expanded arcs *)

Lemma elem_of_variables_in_activated_equalities m n c v :
  (n, c) ∈ constraints m → activated_equality c = true →
  v ∈ constraint_variables c → v ∈ variables_in_activated_equalities m.
Proof.
  intros Hin Hact Hv. unfold variables_in_activated_equalities.
  apply elem_of_union_list. exists (constraint_variables c). split; [|done].
  apply list_elem_of_fmap_2. unfold activated_equalities.
  apply list_elem_of_filter. split; [done|].
  apply list_elem_of_fmap. by exists (n, c).
Qed.

Lemma variables_in_activated_equalities_mono m m' l :
  constraints m' = constraints m ++ l →
  variables_in_activated_equalities m ⊆ variables_in_activated_equalities m'.
Proof.
  intros H. unfold variables_in_activated_equalities, activated_equalities.
  rewrite H, fmap_app, filter_app, fmap_app.
  intros v Hv. apply elem_of_union_list in Hv as (X & HX & Hv).
  apply elem_of_union_list. exists X. split; [|done].
  apply elem_of_app. by left.
Qed.

Lemma arc_variables u k a mem :
  a ∈ flowsheet_arcs → mem ∈ port_members →
  member (source a.2) mem ∈ variables_in_activated_equalities (flowsheet_model u k)
  ∧ member (destination a.2) mem ∈ variables_in_activated_equalities (flowsheet_model u k).
Proof.
  intros Ha Hmem.
  assert (arc_equality a mem ∈ constraints (flowsheet_model u k)) as Hin.
  { unfold flowsheet_model; unfold_model. apply elem_of_app. right.
    apply list_elem_of_bind. exists a. split; [|done].
    unfold arc_equalities. by apply list_elem_of_fmap_2. }
  split.
  - apply (elem_of_variables_in_activated_equalities _ _ _ _ Hin); [reflexivity|].
    unfold constraint_variables, arc_equality. cbn [c_lhs c_rhs snd identify_variables].
    apply elem_of_union_l, elem_of_singleton_2. reflexivity.
  - apply (elem_of_variables_in_activated_equalities _ _ _ _ Hin); [reflexivity|].
    unfold constraint_variables, arc_equality. cbn [c_lhs c_rhs snd identify_variables].
    apply elem_of_union_r, elem_of_singleton_2. reflexivity.
Qed.

Lemma feed_variable_inv x :
  x ∈ feed_variables →
  ∃ mem, mem ∈ port_members
         ∧ (x = member "fs.CH4.outlet" mem ∨ x = member "fs.H2O.outlet" mem).
Proof.
  unfold feed_variables, port_variables. rewrite elem_of_app, !list_elem_of_fmap.
  intros [(mem & -> & ?) | (mem & -> & ?)]; eauto.
Qed.

Lemma specified_variables_in_equalities u k x :
  "fs.C101.efficiency_isentropic[0]" ∈ variables_in_activated_equalities u →
  x ∈ unit_specifications ++ feed_variables →
  x ∈ variables_in_activated_equalities (flowsheet_model u k).
Proof.
  intros He. rewrite elem_of_app. intros [Hx | Hx].
  - unfold unit_specifications in Hx.
    apply elem_of_cons in Hx as [-> | Hx]; [| apply elem_of_cons in Hx as [-> | Hx]].
    + apply (arc_variables u k ("fs.s04", mkArc "fs.C101.outlet" "fs.H101.inlet" true)
               ("pressure", "0")); closed.
    + eapply variables_in_activated_equalities_mono; [|done]. done.
    + apply list_elem_of_singleton in Hx as ->.
      apply (arc_variables u k ("fs.s05", mkArc "fs.H101.outlet" "fs.R101.inlet" true)
               ("temperature", "0")); closed.
  - apply feed_variable_inv in Hx as (mem & Hmem & [-> | ->]).
    + apply (arc_variables u k ("fs.s01", mkArc "fs.CH4.outlet" "fs.M101.methane_feed" true)
               mem); [closed | done].
    + apply (arc_variables u k ("fs.s02", mkArc "fs.H2O.outlet" "fs.M101.steam_feed" true)
               mem); [closed | done].
Qed.

Lemma conversion_constraint_variables u k v :
  v ∈ constraint_variables conv_constraint.2 →
  v = "fs.R101.conversion" ∨ v ∈ variables_in_activated_equalities (flowsheet_model u k).
Proof.
  unfold constraint_variables, conv_constraint, conv_lhs, conv_rhs. simpl.
  rewrite !elem_of_union, !elem_of_singleton.
  pose proof (arc_variables u k ("fs.s05", mkArc "fs.H101.outlet" "fs.R101.inlet" true)
                ("flow_mol", "0") ltac:(closed) ltac:(closed)) as [_ H1].
  pose proof (arc_variables u k ("fs.s05", mkArc "fs.H101.outlet" "fs.R101.inlet" true)
                ("mole_frac_comp", "0,CH4") ltac:(closed) ltac:(closed)) as [_ H2].
  pose proof (arc_variables u k ("fs.s06", mkArc "fs.R101.outlet" "fs.PROD.inlet" true)
                ("flow_mol", "0") ltac:(closed) ltac:(closed)) as [H3 _].
  pose proof (arc_variables u k ("fs.s06", mkArc "fs.R101.outlet" "fs.PROD.inlet" true)
                ("mole_frac_comp", "0,CH4") ltac:(closed) ltac:(closed)) as [H4 _].
  intros H. repeat destruct H as [H | H]; subst; eauto.
Qed.

(** ** The square model *)

Lemma is_unfixed_flowsheet_model u k x :
  is_unfixed (flowsheet_model u k) x = is_unfixed u x.
Proof. done. Qed.

Lemma specifications_NoDup : NoDup (unit_specifications ++ feed_variables).
Proof. closed. Qed.

Lemma square_cells_yields u k (P : Model → Prop) :
  framework_ok u = true →
  (∀ m', fixes (unit_specifications ++ feed_variables) (flowsheet_model u k) m' →
         P (with_conversion m')) →
  yields (cell_25 >=> cell_27 >=> cell_29) (flowsheet_model u k) P.
Proof.
  intros (Hp & Hn & Ha & Ho & Hu & Hr & Hm & Hc & He)%framework_ok_facts HP.
  apply yields_seq, cell_25_yields.
  { intros v Hv. apply is_unfixed_dom, Hu, elem_of_app. by left. }
  intros m1 H1. apply yields_seq, cell_27_yields.
  { intros v Hv. rewrite (fixes_dom _ _ _ H1).
    apply is_unfixed_dom, Hu, elem_of_app. by right. }
  intros m2 H2. pose proof (fixes_trans _ _ _ _ _ H1 H2) as H.
  exists (with_conversion m2). split; [|by apply HP].
  apply cell_29_Ok.
  - by rewrite (fixes_dom _ _ _ H).
  - by rewrite (fixes_dom _ _ _ H).
  - rewrite (fixes_components _ _ _ H). unfold flowsheet_model; unfold_model.
    do 3 (apply free_after; [closed|]). apply notebook_name_free; [closed | done].
Qed.

(** Cell 29 and the twenty [fix] calls take twenty degrees of freedom. *)
Lemma degrees_of_freedom_square u k m' :
  framework_ok u = true →
  fixes (unit_specifications ++ feed_variables) (flowsheet_model u k) m' →
  degrees_of_freedom (with_conversion m')
  = (degrees_of_freedom (flowsheet_model u k) - 20)%Z.
Proof.
  intros (Hp & Hn & Ha & Ho & Hu & Hr & Hm & Hc & He)%framework_ok_facts H.
  rewrite (degrees_of_freedom_change (flowsheet_model u k) (with_conversion m')
             (unit_specifications ++ feed_variables) [conv_constraint.2]).
  - assert (length (unit_specifications ++ feed_variables) = 19%nat) as -> by reflexivity.
    cbn [length]. lia.
  - apply specifications_NoDup.
  - unfold with_conversion, activated_equalities at 1; unfold_model.
    rewrite (fixes_constraints _ _ _ H). by rewrite activated_equalities_app.
  - intros c v ->%list_elem_of_singleton Hv.
    apply (conversion_constraint_variables u k) in Hv as [-> | Hv]; [right | by left].
    unfold is_unfixed, with_conversion; unfold_model. by rewrite lookup_insert_eq.
  - intros x. unfold is_unfixed at 1, with_conversion; unfold_model.
    destruct (decide (x = "fs.R101.conversion")) as [-> | Hx].
    + rewrite lookup_insert_eq. simpl.
      rewrite is_unfixed_flowsheet_model. unfold is_unfixed.
      apply not_elem_of_dom in Hc. by rewrite Hc.
    + rewrite lookup_insert_ne by done. apply (fixes_is_unfixed _ _ _ _ H).
  - intros x Hx. split.
    + by apply specified_variables_in_equalities.
    + rewrite is_unfixed_flowsheet_model. apply Hu.
      rewrite elem_of_app in *. tauto.
Qed.

(** ** The optimisation model *)

Lemma expression_last name e l m :
  expressions m = l ++ [(name, e)] → expression name m = Ok (Named name e).
Proof.
  intros H. unfold expression. rewrite H, filter_app.
  assert (filter (λ c : string * expr, c.1 = name) [(name, e)] = [(name, e)]) as ->
    by (by rewrite filter_cons_True).
  by rewrite last_snoc.
Qed.

Lemma flowsheet_operating_cost u k :
  expression "fs.operating_cost" (flowsheet_model u k)
  = Ok (Named "fs.operating_cost" operating_cost).
Proof.
  apply (expression_last _ _
           (expressions u
              ++ [ ("fs.hyd_prod", hyd_prod k);
                   ("fs.cooling_cost", cooling_cost);
                   ("fs.heating_cost", heating_cost);
                   ("fs.compression_cost", compression_cost) ])).
  unfold flowsheet_model; cbn [expressions]. by rewrite <- app_assoc.
Qed.

Lemma expression_ext name m m' :
  expressions m' = expressions m → expression name m' = expression name m.
Proof. intros H. unfold expression. by rewrite H. Qed.

Lemma cell_45_Ok m :
  (∀ v, v ∈ referenced_variables → v ∈ dom (vars m)) →
  "fs.objective" ∉ components m →
  expression "fs.operating_cost" m = Ok (Named "fs.operating_cost" operating_cost) →
  cell_45 m
  = Ok (mkModel ({[ "fs.objective" ]} ∪ components m) (ports m) (vars m) (params m)
                (constraints m) (expressions m) (objectives m ++ [objective])
                (arcs m)).
Proof.
  intros Hv Hn He. apply yields_eq. unfold cell_45, yields. rewrite He.
  cbn [mbind outcome_bind].
  apply yields_Objective; [declared Hv | | done | done].
  transitivity (∅ : gset string); [closed | apply empty_subseteq].
Qed.

Lemma cell_47_Ok m :
  "fs.R101.conversion" ∈ dom (vars m) →
  (∀ v, v ∈ decision_variables → v ∈ dom (vars m)) →
  "fs.H101.heat_duty[0]" ∈ dom (vars m) →
  cell_47 m
  = Ok (set_vars m (map_imap (λ x d, Some (optimization_setup x d)) (vars m))).
Proof.
  intros Hc Hd Hh.
  assert (pressure "fs.C101.outlet" ∈ dom (vars m)) as HP by (apply Hd; closed).
  assert (temperature "fs.H101.outlet" ∈ dom (vars m)) as HT by (apply Hd; closed).
  apply yields_eq. unfold cell_47.
  do 6 (apply yields_seq, yields_update_var; unfold_model;
        [by rewrite ?dom_alter_L|]).
  apply yields_update_var; unfold_model; [by rewrite ?dom_alter_L|].
  f_equal. apply map_eq. intros x. rewrite map_lookup_imap.
  unfold optimization_setup.
  destruct (decide (x = "fs.R101.conversion")) as [-> | H1].
  { rewrite !lookup_alter_ne by closed. rewrite lookup_alter_eq.
    by destruct (vars m !! "fs.R101.conversion"). }
  destruct (decide (x = pressure "fs.C101.outlet")) as [-> | H2].
  { rewrite !lookup_alter_ne by closed. rewrite !lookup_alter_eq.
    rewrite lookup_alter_ne by closed.
    by destruct (vars m !! pressure "fs.C101.outlet"). }
  destruct (decide (x = temperature "fs.H101.outlet")) as [-> | H3].
  { rewrite lookup_alter_eq. rewrite lookup_alter_ne by closed.
    rewrite lookup_alter_eq. rewrite !lookup_alter_ne by closed.
    by destruct (vars m !! temperature "fs.H101.outlet"). }
  destruct (decide (x = "fs.H101.heat_duty[0]")) as [-> | H4].
  { rewrite lookup_alter_ne by closed. rewrite lookup_alter_eq.
    rewrite !lookup_alter_ne by closed.
    by destruct (vars m !! "fs.H101.heat_duty[0]"). }
  rewrite !lookup_alter_ne by done. by destruct (vars m !! x).
Qed.

Lemma optimization_cells_Ok m :
  (∀ v, v ∈ referenced_variables → v ∈ dom (vars m)) →
  "fs.objective" ∉ components m →
  expression "fs.operating_cost" m = Ok (Named "fs.operating_cost" operating_cost) →
  "fs.R101.conversion" ∈ dom (vars m) →
  (∀ v, v ∈ decision_variables → v ∈ dom (vars m)) →
  (cell_45 >=> cell_47) m = Ok (optimization_model m).
Proof.
  intros Hv Hn He Hc Hd.
  erewrite seq_step_Ok by by apply cell_45_Ok.
  rewrite cell_47_Ok; unfold_model; [done | done | done |].
  apply Hv. closed.
Qed.

Lemma is_fixed_dom m v : is_fixed m v = true → v ∈ dom (vars m).
Proof.
  unfold is_fixed. intros H. apply elem_of_dom.
  destruct (vars m !! v); [eauto | discriminate].
Qed.

(** Unfixing the two decision variables gives two degrees of freedom. *)
Lemma degrees_of_freedom_optimization m :
  is_fixed m "fs.R101.conversion" = true →
  (∀ v, v ∈ decision_variables →
        is_fixed m v = true ∧ v ∈ variables_in_activated_equalities m) →
  degrees_of_freedom (optimization_model m) = (degrees_of_freedom m + 2)%Z.
Proof.
  intros Hc Hd.
  assert (variables_in_activated_equalities (optimization_model m)
          = variables_in_activated_equalities m) as HA by done.
  assert (∀ x, is_unfixed (optimization_model m) x
               = match vars m !! x with
                 | Some d => negb (fixed (optimization_setup x d))
                 | None => false
                 end) as Hunf.
  { intros x. unfold is_unfixed, optimization_model; unfold_model.
    rewrite map_lookup_imap. by destruct (vars m !! x). }
  pose proof (degrees_of_freedom_change (optimization_model m) m decision_variables [])
    as H.
  rewrite H; [cbn [length decision_variables]; lia | closed | | | |].
  - by rewrite app_nil_r.
  - intros c v Hin. by apply elem_of_nil in Hin.
  - intros x. rewrite Hunf. unfold is_unfixed, optimization_setup.
    destruct (Hd (pressure "fs.C101.outlet") ltac:(closed)) as [HP _].
    destruct (Hd (temperature "fs.H101.outlet") ltac:(closed)) as [HT _].
    unfold is_fixed in Hc, HP, HT.
    destruct (decide (x = "fs.R101.conversion")) as [-> | H1].
    { destruct (vars m !! "fs.R101.conversion") as [d|]; [|done].
      rewrite Hc. done. }
    destruct (decide (x = pressure "fs.C101.outlet")) as [-> | H2].
    { destruct (vars m !! pressure "fs.C101.outlet") as [d|]; [|done].
      rewrite HP. done. }
    destruct (decide (x = temperature "fs.H101.outlet")) as [-> | H3].
    { destruct (vars m !! temperature "fs.H101.outlet") as [d|]; [|done].
      rewrite HT. done. }
    assert (bool_decide (x ∉ decision_variables) = true) as ->.
    { apply bool_decide_eq_true_2. unfold decision_variables.
      rewrite !not_elem_of_cons. repeat split; try done. apply not_elem_of_nil. }
    destruct (vars m !! x) as [d|]; [|done].
    rewrite andb_true_r. by destruct (decide (x = "fs.H101.heat_duty[0]")).
  - intros x Hx. destruct (Hd x Hx) as [Hf HxA]. split; [by rewrite HA|].
    rewrite Hunf. unfold is_fixed in Hf. unfold optimization_setup.
    destruct (vars m !! x) as [d|]; [|done].
    unfold decision_variables in Hx.
    apply elem_of_cons in Hx as [-> | Hx]; [done|].
    apply list_elem_of_singleton in Hx as ->. done.
Qed.

(** ** Running cells *)

Section Runs.

Variable fw : Framework.

Lemma run_app cs1 cs2 s :
  run (cs1 ++ cs2) s = run cs1 s ≫= run cs2.
Proof.
  revert s. induction cs1 as [|c cs1 IH]; intros s; [done|].
  simpl. destruct (c.2 s); [apply IH | done].
Qed.

Lemma run_on_model_seq a b f g cs s :
  run ((a, on_model f) :: (b, on_model g) :: cs) s
  = run ((b, on_model (f >=> g)) :: cs) s.
Proof.
  simpl. unfold on_model, seq_step. simpl.
  destruct (f (model s)) as [m|e]; [|done]. simpl.
  by destruct (g m).
Qed.

Lemma run_on_model_Ok a f cs s m :
  f (model s) = Ok m →
  run ((a, on_model f) :: cs) s = run cs (mkSession m (results s)).
Proof. intros H. simpl. unfold on_model. by rewrite H. Qed.

Lemma run_assert_degrees_of_freedom a n s :
  run [(a, assert_degrees_of_freedom n)] s
  = if decide (degrees_of_freedom (model s) = n) then Ok s else Raised AssertionError.
Proof.
  simpl. unfold assert_degrees_of_freedom.
  destruct (decide (degrees_of_freedom (model s) = n)) as [H|H].
  - by rewrite bool_decide_eq_true_2.
  - by rewrite bool_decide_eq_false_2.
Qed.

(** *** Cells that change values only *)

Lemma same_structure_load_values sol m : same_structure m (load_values sol m).
Proof.
  split; try done. intros x. unfold load_values; unfold_model.
  rewrite map_lookup_imap. destruct (vars m !! x) as [d|]; [|done].
  simpl. unfold var_structure. destruct (fixed d) eqn:Hd; [by rewrite Hd|].
  destruct (sol !! x); simpl; by rewrite ?Hd.
Qed.

Lemma same_structure_trans m1 m2 m3 :
  same_structure m1 m2 → same_structure m2 m3 → same_structure m1 m3.
Proof. intros H1 H2. apply (fixes_trans [] [] _ _ _ H1 H2). Qed.

Lemma value_step_seq c1 c2 :
  value_step c1 → value_step c2 → value_step (c1 >=> c2).
Proof.
  intros H1 H2 s s' H. unfold seq_step in H.
  apply bind_Ok_inv in H as (s1 & Hs1 & Hs').
  eapply same_structure_trans; eauto.
Qed.

Lemma value_step_initialize unit_model : value_step (initialize fw unit_model).
Proof.
  intros s s' H. unfold initialize in H.
  apply bind_Ok_inv in H as (sol & _ & [= <-]). apply same_structure_load_values.
Qed.

Lemma value_step_propagate_state arc : value_step (propagate_state fw arc).
Proof.
  intros s s' H. unfold propagate_state in H.
  apply bind_Ok_inv in H as (sol & _ & [= <-]). apply same_structure_load_values.
Qed.

Lemma value_step_solve : value_step (solve fw).
Proof.
  intros s s' H. unfold solve in H.
  apply bind_Ok_inv in H as (sol & _ & [= <-]). apply same_structure_load_values.
Qed.

Lemma value_step_report unit_model : value_step (report fw unit_model).
Proof.
  intros s s' H. unfold report in H.
  apply bind_Ok_inv in H as (? & _ & [= <-]). apply fixes_refl.
Qed.

Lemma value_step_print_value e : value_step (print_value e).
Proof.
  intros s s' H. unfold print_value in H.
  apply bind_Ok_inv in H as (? & _ & [= <-]). apply fixes_refl.
Qed.

Lemma value_step_assert_approx e f x : value_step (assert_approx e f x).
Proof.
  intros s s' H. unfold assert_approx in H.
  apply bind_Ok_inv in H as (? & _ & H).
  apply bind_Ok_inv in H as (? & _ & [= <-]). apply fixes_refl.
Qed.

Lemma value_step_print_component name : value_step (print_component name).
Proof.
  intros s s' H. unfold print_component in H.
  apply bind_Ok_inv in H as (e & _ & H). by apply value_step_print_value in H.
Qed.

Lemma value_step_assert_component_approx name f x :
  value_step (assert_component_approx name f x).
Proof.
  intros s s' H. unfold assert_component_approx in H.
  apply bind_Ok_inv in H as (e & _ & H). by apply value_step_assert_approx in H.
Qed.

Lemma value_step_assert_optimal : value_step assert_optimal.
Proof.
  intros s s' H. unfold assert_optimal in H. destruct (results s); [|done].
  apply bind_Ok_inv in H as (? & _ & [= <-]). apply fixes_refl.
Qed.

Lemma value_step_run cs :
  Forall (λ c, value_step c.2) cs → value_step (run cs).
Proof.
  induction 1 as [|c cs Hc _ IH]; intros s s' H.
  - injection H as <-. apply fixes_refl.
  - simpl in H. destruct (c.2 s) as [s1|] eqn:Hs1; [|done].
    eapply same_structure_trans; eauto.
Qed.

Lemma solve_stage_value_only : value_step (run (solve_stage fw)).
Proof.
  apply value_step_run. unfold solve_stage.
  repeat apply Forall_cons_2; try apply Forall_nil_2; simpl;
    unfold cell_34, cell_35, cell_36, cell_38, cell_39, cell_41, cell_42;
    repeat apply value_step_seq;
    auto using value_step_initialize, value_step_propagate_state,
      value_step_solve, value_step_report, value_step_print_value,
      value_step_assert_approx, value_step_assert_optimal,
      value_step_print_component, value_step_assert_component_approx.
Qed.

End Runs.

(** ** The models of the three stages *)

Lemma fixes_is_fixed S m m' x :
  fixes S m m' →
  is_fixed m' x = bool_decide (x ∈ dom (vars m)) && (bool_decide (x ∈ S) || is_fixed m x).
Proof.
  intros H. pose proof (fixes_vars _ _ _ H x) as Hx. unfold is_fixed.
  destruct (vars m !! x) as [d|] eqn:Hd.
  - rewrite bool_decide_eq_true_2 by (apply elem_of_dom; eauto).
    destruct (vars m' !! x) as [d'|]; [|done].
    unfold var_structure in Hx. simpl in Hx. by injection Hx as -> _ _.
  - rewrite bool_decide_eq_false_2 by (by apply not_elem_of_dom).
    by destruct (vars m' !! x).
Qed.

Lemma fixes_bounds S m m' x :
  fixes S m m' →
  (λ d, (lb d, ub d)) <$> vars m' !! x = (λ d, (lb d, ub d)) <$> vars m !! x.
Proof.
  intros H. pose proof (fixes_vars _ _ _ H x) as Hx.
  destruct (vars m' !! x) as [d'|], (vars m !! x) as [d|]; try done.
  unfold var_structure in Hx. simpl in *. by injection Hx as _ -> ->.
Qed.


Lemma square_model_intro u k m' m1 :
  framework_ok u = true →
  fixes (unit_specifications ++ feed_variables) (flowsheet_model u k) m' →
  same_structure (with_conversion m') m1 →
  square_model u k m1.
Proof.
  intros Hok H Hs.
  pose proof Hok as (Hp & Hn & Ha & Ho & Hu & Hr & Hm & Hc & He)%framework_ok_facts.
  assert (∀ x, x ∈ unit_specifications ++ feed_variables → x ∈ dom (vars u)) as Hdom.
  { intros x Hx. apply is_unfixed_dom, Hu. rewrite elem_of_app in *. tauto. }
  split.
  - rewrite (fixes_dom _ _ _ Hs). unfold with_conversion; unfold_model.
    by rewrite dom_insert_L, (fixes_dom _ _ _ H).
  - rewrite (fixes_components _ _ _ Hs). unfold with_conversion; unfold_model.
    rewrite (fixes_components _ _ _ H). unfold flowsheet_model; unfold_model.
    assert (∀ n, n ∈ ["fs.objective"] → n ∉ components u) as HX
      by (apply notebook_name_free; [closed | done]).
    apply (free_after ["fs.objective"]); [closed | | closed].
    do 3 (apply free_after; [closed|]). done.
  - rewrite (fixes_constraints _ _ _ Hs). unfold with_conversion; unfold_model.
    by rewrite (fixes_constraints _ _ _ H).
  - rewrite (fixes_objectives _ _ _ Hs). unfold with_conversion; unfold_model.
    by rewrite (fixes_objectives _ _ _ H).
  - rewrite (fixes_expressions _ _ _ Hs). unfold with_conversion; unfold_model.
    by rewrite (fixes_expressions _ _ _ H).
  - intros x. rewrite (fixes_is_fixed _ _ _ x Hs). cbn [orb].
    rewrite (bool_decide_eq_false_2 (x ∈ [])) by apply not_elem_of_nil. cbn [orb].
    unfold is_fixed at 1, with_conversion; unfold_model.
    rewrite dom_insert_L.
    destruct (decide (x = "fs.R101.conversion")) as [-> | Hx].
    + rewrite lookup_insert_eq.
      rewrite (bool_decide_eq_true_2 (_ ∈ _ ∪ _)) by (apply elem_of_union_l; set_solver).
      by rewrite (bool_decide_eq_true_2 (_ = _)).
    + rewrite lookup_insert_ne by done.
      rewrite (bool_decide_eq_false_2 (x = _)) by done. cbn [orb].
      fold (is_fixed m' x). rewrite (fixes_is_fixed _ _ _ x H).
      change (vars (flowsheet_model u k)) with (vars u).
      change (is_fixed (flowsheet_model u k) x) with (is_fixed u x).
      destruct (decide (x ∈ unit_specifications ++ feed_variables)) as [Hin | Hin].
      * rewrite !(bool_decide_eq_true_2 (x ∈ _ ++ _)) by done.
        rewrite (bool_decide_eq_true_2 (x ∈ dom (vars u))) by by apply Hdom.
        rewrite (bool_decide_eq_true_2 (x ∈ _ ∪ _)); [done|].
        apply elem_of_union_r. rewrite (fixes_dom _ _ _ H). by apply Hdom.
      * rewrite !(bool_decide_eq_false_2 (x ∈ _ ++ _)) by done. cbn [orb].
        destruct (is_fixed u x) eqn:Hf; [|by rewrite !andb_false_r].
        rewrite (bool_decide_eq_true_2 (x ∈ dom (vars u))) by by apply is_fixed_dom.
        rewrite (bool_decide_eq_true_2 (x ∈ _ ∪ _)); [done|].
        apply elem_of_union_r. rewrite (fixes_dom _ _ _ H). by apply is_fixed_dom.
  - intros x Hx. rewrite (fixes_bounds _ _ _ x Hs).
    unfold with_conversion; unfold_model. rewrite lookup_insert_ne by done.
    by rewrite (fixes_bounds _ _ _ x H).
  - rewrite (fixes_vars _ _ _ Hs). unfold with_conversion; unfold_model.
    by rewrite lookup_insert_eq.
  - rewrite (degrees_of_freedom_same_structure _ _ Hs).
    by apply degrees_of_freedom_square.
Qed.

Lemma square_model_decision_variables u k m1 v :
  framework_ok u = true → square_model u k m1 →
  v ∈ decision_variables →
  is_fixed m1 v = true ∧ v ∈ variables_in_activated_equalities m1.
Proof.
  intros Hok Hsq Hv.
  pose proof Hok as (Hp & Hn & Ha & Ho & Hu & Hr & Hm & Hc & He)%framework_ok_facts.
  assert (v ∈ unit_specifications ++ feed_variables) as Hin.
  { revert v Hv. apply list_subseteq_of_Forall. closed. }
  split.
  - rewrite (square_fixed _ _ _ Hsq).
    rewrite (bool_decide_eq_true_2 (v ∈ _ ++ _)) by done. by rewrite orb_true_r.
  - eapply variables_in_activated_equalities_mono; [apply (square_constraints _ _ _ Hsq)|].
    by apply specified_variables_in_equalities.
Qed.

Lemma square_model_optimization u k m1 :
  framework_ok u = true → square_model u k m1 →
  (cell_45 >=> cell_47) m1 = Ok (optimization_model m1)
  ∧ degrees_of_freedom (optimization_model m1) = (degrees_of_freedom m1 + 2)%Z.
Proof.
  intros Hok Hsq.
  pose proof Hok as (Hp & Hn & Ha & Ho & Hu & Hr & Hm & Hc & He)%framework_ok_facts.
  split.
  - apply optimization_cells_Ok.
    + intros v Hv. rewrite (square_declared _ _ _ Hsq). apply elem_of_union_r. by apply Hr.
    + apply (square_components _ _ _ Hsq).
    + rewrite (expression_ext _ _ _ (square_expressions _ _ _ Hsq)).
      apply flowsheet_operating_cost.
    + rewrite (square_declared _ _ _ Hsq). apply elem_of_union_l. set_solver.
    + intros v Hv. apply is_fixed_dom.
      by apply (square_model_decision_variables u k).
  - apply degrees_of_freedom_optimization.
    + rewrite (square_fixed _ _ _ Hsq). by rewrite bool_decide_eq_true_2.
    + intros v Hv. by apply (square_model_decision_variables u k).
Qed.

Section Stages.

Variable fw : Framework.
Variable u : Model.
Hypothesis Hok : framework_ok u = true.

Let k := fw_Mlb_per_yr fw.

Lemma build_stage_run s :
  results s = None → model s = u →
  run (build_stage fw) s
  = if decide (degrees_of_freedom (flowsheet_model u k) = 20%Z)
    then Ok (mkSession (flowsheet_model u k) None) else Raised AssertionError.
Proof.
  intros Hr Hm. unfold build_stage. rewrite !run_on_model_seq.
  erewrite run_on_model_Ok
    by (rewrite Hm, !seq_step_assoc; by apply build_cells_Ok).
  rewrite Hr. apply run_assert_degrees_of_freedom.
Qed.

Lemma square_stage_run :
  degrees_of_freedom (flowsheet_model u k) = 20%Z →
  ∃ m1, run square_stage (mkSession (flowsheet_model u k) None) = Ok (mkSession m1 None)
        ∧ square_model u k m1.
Proof.
  intros Hdof. unfold square_stage. rewrite !run_on_model_seq.
  destruct (square_cells_yields u k
              (λ m1, ∃ m', fixes (unit_specifications ++ feed_variables)
                                 (flowsheet_model u k) m'
                           ∧ m1 = with_conversion m') Hok)
    as (m1 & Hrun & m' & Hm' & ->); [by eauto|].
  rewrite <- seq_step_assoc in Hrun.
  assert (square_model u k (with_conversion m')) as Hsq
    by (eapply square_model_intro; [done | done | apply fixes_refl]).
  exists (with_conversion m'). split; [|done].
  erewrite run_on_model_Ok by done. unfold cell_32.
  rewrite run_assert_degrees_of_freedom. rewrite decide_True; [done|].
  unfold model. rewrite (square_degrees_of_freedom _ _ _ Hsq). fold k. lia.
Qed.

Lemma optimization_stage_run s :
  square_model u k (model s) →
  degrees_of_freedom (model s) = 0%Z →
  run optimization_stage s
  = Ok (mkSession (optimization_model (model s)) (results s))
  ∧ degrees_of_freedom (optimization_model (model s)) = 2%Z.
Proof.
  intros Hsq Hdof. destruct (square_model_optimization u k _ Hok Hsq) as [Hrun Hd].
  split; [|lia].
  unfold optimization_stage. rewrite !run_on_model_seq.
  erewrite run_on_model_Ok by done. unfold cell_48.
  rewrite run_assert_degrees_of_freedom. rewrite decide_True; [done|].
  unfold model at 1. lia.
Qed.

Lemma square_model_same_structure m1 m2 :
  square_model u k m1 → same_structure m1 m2 → square_model u k m2.
Proof.
  intros [Hd Hc Hcon Ho He Hf Hb Hconv Hdof] Hs. split.
  - by rewrite (fixes_dom _ _ _ Hs).
  - by rewrite (fixes_components _ _ _ Hs).
  - by rewrite (fixes_constraints _ _ _ Hs).
  - by rewrite (fixes_objectives _ _ _ Hs).
  - by rewrite (fixes_expressions _ _ _ Hs).
  - intros x. rewrite (fixes_is_fixed _ _ _ x Hs), <- Hf.
    rewrite (bool_decide_eq_false_2 (x ∈ [])) by apply not_elem_of_nil. cbn [orb].
    destruct (is_fixed m1 x) eqn:Hx; [|by rewrite andb_false_r].
    by rewrite bool_decide_eq_true_2 by by apply is_fixed_dom.
  - intros x Hx. by rewrite (fixes_bounds _ _ _ x Hs), Hb.
  - by rewrite (fixes_vars _ _ _ Hs), <- Hconv.
  - by rewrite (degrees_of_freedom_same_structure _ _ Hs).
Qed.

End Stages.


(** ** The runs of the small instance *)

Lemma state_after_Ok (r : outcome Session) (s : Session) :
  is_Ok r = true → r = Ok (state_after r s).
Proof. by destruct r. Qed.

Lemma toy_units_ok : framework_ok Toy.units = true.
Proof. vm_compute. reflexivity. Qed.

Lemma toy_build_run :
  run (build_stage Toy.fw) (mkSession Toy.units None) = Ok Toy.s23.
Proof. apply (state_after_Ok (run (build_stage Toy.fw) Toy.s0) Toy.s0). vm_compute. reflexivity. Qed.

Lemma toy_square_run : run square_stage Toy.s23 = Ok Toy.s32.
Proof. apply (state_after_Ok (run square_stage Toy.s23) Toy.s23). vm_compute. reflexivity. Qed.

Lemma toy_solve_run : run (solve_stage Toy.fw) Toy.s32 = Ok Toy.s42.
Proof. apply (state_after_Ok (run (solve_stage Toy.fw) Toy.s32) Toy.s32). vm_compute. reflexivity. Qed.

Lemma toy_optimization_run : run optimization_stage Toy.s42 = Ok Toy.s48.
Proof. apply (state_after_Ok (run optimization_stage Toy.s42) Toy.s42). vm_compute. reflexivity. Qed.

(** * The claims *)

Lemma fw_toy : fw_flowsheet Toy.fw = Ok Toy.units.
Proof. reflexivity. Qed.

Lemma Ok_inj {A : Type} (a b : A) : Ok a = Ok b → a = b.
Proof. by intros [= ->]. Qed.

Lemma run_to_optimization fw u s23 s32 s42 :
  framework_ok u = true →
  run (build_stage fw) (mkSession u None) = Ok s23 →
  run square_stage s23 = Ok s32 →
  run (solve_stage fw) s32 = Ok s42 →
  square_model u (fw_Mlb_per_yr fw) (model s42)
  ∧ degrees_of_freedom (model s42) = 0%Z
  ∧ run optimization_stage s42
    = Ok (mkSession (optimization_model (model s42)) (results s42))
  ∧ degrees_of_freedom (optimization_model (model s42)) = 2%Z.
Proof.
  intros Hok Hrun Hsq Hsolve.
  rewrite (build_stage_run fw u Hok) in Hrun by done.
  destruct (decide _) as [Hdof|]; [|done]. apply Ok_inj in Hrun. subst s23.
  destruct (square_stage_run fw u Hok Hdof) as (m1 & Hsq' & Hm1).
  rewrite Hsq' in Hsq. apply Ok_inj in Hsq. subst s32.
  apply solve_stage_value_only in Hsolve. cbn [model] in Hsolve.
  pose proof (square_model_same_structure fw u _ _ Hm1 Hsolve) as Hm42.
  assert (degrees_of_freedom (model s42) = 0%Z) as Hdof0.
  { rewrite (square_degrees_of_freedom _ _ _ Hm42). lia. }
  destruct (optimization_stage_run fw u Hok s42 Hm42 Hdof0) as [Hopt Hdof2].
  split; [exact Hm42 | split; [exact Hdof0 | split; [exact Hopt | exact Hdof2]]].
Qed.

Lemma optimization_model_lookup m x :
  vars (optimization_model m) !! x = optimization_setup x <$> vars m !! x.
Proof.
  unfold optimization_model; unfold_model. rewrite map_lookup_imap.
  by destruct (vars m !! x).
Qed.

Lemma is_fixed_optimization_model m x :
  is_fixed m "fs.R101.conversion" = true →
  is_fixed (optimization_model m) x
  = is_fixed m x && bool_decide (x ∉ decision_variables).
Proof.
  intros Hc. unfold is_fixed in *. rewrite optimization_model_lookup.
  unfold optimization_setup, decision_variables.
  destruct (decide (x = "fs.R101.conversion")) as [-> | H1].
  { destruct (vars m !! "fs.R101.conversion") as [d|]; [|done].
    cbn [fmap option_fmap option_map fixed]. rewrite Hc.
    by rewrite bool_decide_eq_true_2 by closed. }
  destruct (decide (x = pressure "fs.C101.outlet")) as [-> | H2].
  { destruct (vars m !! pressure "fs.C101.outlet") as [d|]; [|done].
    cbn [fmap option_fmap option_map fixed].
    rewrite bool_decide_eq_false_2; [by rewrite andb_false_r|].
    intros Hn. apply Hn. left. }
  destruct (decide (x = temperature "fs.H101.outlet")) as [-> | H3].
  { destruct (vars m !! temperature "fs.H101.outlet") as [d|]; [|done].
    cbn [fmap option_fmap option_map fixed].
    rewrite bool_decide_eq_false_2; [by rewrite andb_false_r|].
    intros Hn. apply Hn. right. left. }
  rewrite bool_decide_eq_true_2.
  - destruct (vars m !! x) as [d|]; [|done].
    cbn [fmap option_fmap option_map]. rewrite andb_true_r.
    by destruct (decide (x = "fs.H101.heat_duty[0]")).
  - rewrite !not_elem_of_cons. repeat split; try done. apply not_elem_of_nil.
Qed.

(** C4: the optimisation stage unfixes the compressor outlet pressure and the
    heater outlet temperature, which were fixed, and changes the fixed state
    of no other variable; the conversion is fixed at 0.90; the only objective
    is [fs.objective], which minimises the operating cost; no constraint is
    added; so the square model (0 degrees of freedom) becomes a model with
    2 degrees of freedom. *)
Theorem optimization_relaxes_two_variables
    (fw : Framework) (u : Model) (s23 s32 s42 : Session) :
  fw_flowsheet fw = Ok u →
  framework_ok u = true →
  run (build_stage fw) (mkSession u None) = Ok s23 →
  run square_stage s23 = Ok s32 →
  run (solve_stage fw) s32 = Ok s42 →
  ∃ s48, run optimization_stage s42 = Ok s48
    ∧ (∀ x, is_fixed (model s48) x
            = is_fixed (model s42) x && bool_decide (x ∉ decision_variables))
    ∧ (∀ x, x ∈ decision_variables → is_fixed (model s42) x = true)
    ∧ (∃ d, vars (model s48) !! "fs.R101.conversion" = Some d
            ∧ fixed d = true ∧ var_value d = Some 0.90%Q)
    ∧ objectives (model s48)
      = [("fs.objective",
          mkObj (Named "fs.operating_cost" operating_cost) minimize true)]
    ∧ constraints (model s48) = constraints (model s42)
    ∧ degrees_of_freedom (model s42) = 0%Z
    ∧ degrees_of_freedom (model s48) = 2%Z.
Proof.
  intros _ Hok Hrun Hsq Hsolve.
  destruct (run_to_optimization fw u s23 s32 s42 Hok Hrun Hsq Hsolve)
    as (Hm & Hdof0 & Hopt & Hdof2).
  assert (is_fixed (model s42) "fs.R101.conversion" = true) as Hc.
  { rewrite (square_fixed _ _ _ Hm). by rewrite bool_decide_eq_true_2. }
  eexists. split; [exact Hopt|]. cbn [model].
  split; [|split; [|split; [|split; [|split; [|split]]]]].
  - intros x. by apply is_fixed_optimization_model.
  - intros x Hx. by apply (square_model_decision_variables u (fw_Mlb_per_yr fw)).
  - rewrite optimization_model_lookup. unfold is_fixed in Hc.
    destruct (vars (model s42) !! "fs.R101.conversion") as [d|]; [|done].
    eexists. split; [reflexivity|]. by split.
  - unfold optimization_model; unfold_model.
    by rewrite (square_objectives _ _ _ Hm).
  - reflexivity.
  - assumption.
  - assumption.
Qed.

Lemma optimization_relaxes_two_variables_witness :
  ∃ s48, run optimization_stage Toy.s42 = Ok s48
    ∧ degrees_of_freedom (model Toy.s42) = 0%Z
    ∧ degrees_of_freedom (model s48) = 2%Z.
Proof.
  destruct (optimization_relaxes_two_variables Toy.fw Toy.units Toy.s23 Toy.s32
              Toy.s42 fw_toy toy_units_ok toy_build_run toy_square_run
              toy_solve_run)
    as (s48 & Hrun & _ & _ & _ & _ & _ & H0 & H2).
  exists s48. split; [exact Hrun | split; [exact H0 | exact H2]].
Defined.


Lemma arc_cells_Ok u :
  framework_ok u = true →
  cell_14 u
  = Ok (mkModel (list_to_set (flowsheet_arcs.*1) ∪ components u) (ports u) (vars u)
                (params u) (constraints u) (expressions u) (objectives u)
                flowsheet_arcs)
  ∧ cell_16 (mkModel (list_to_set (flowsheet_arcs.*1) ∪ components u) (ports u)
                     (vars u) (params u) (constraints u) (expressions u)
                     (objectives u) flowsheet_arcs)
    = Ok (mkModel (list_to_set (expanded_name <$> flowsheet_arcs)
                     ∪ (list_to_set (flowsheet_arcs.*1) ∪ components u))
                  (ports u) (vars u) (params u)
                  (constraints u ++ (flowsheet_arcs ≫= arc_equalities))
                  (expressions u) (objectives u) (deactivate <$> flowsheet_arcs)).
Proof.
  intros (Hp & Hn & Ha & Ho & Hu & Hr & Hm & Hc & He)%framework_ok_facts.
  split.
  - rewrite cell_14_Ok; [by rewrite Ha | done |].
    apply notebook_name_free; [closed | done].
  - etrans; [apply cell_16_Ok; unfold_model|]; [reflexivity | | reflexivity].
    apply free_after; [closed|]. apply notebook_name_free; [closed | done].
Qed.

(** C6: cell 14 declares exactly six arcs: the outlets of the two feeds
    enter the two inlets of the mixer M101, and from the mixer on every
    unit feeds the next one, M101, C101, H101, R101, PROD; no unit has two
    outgoing arcs.  Expanding the arcs (cell 16) adds, for every arc and
    every state variable of its ports, the equality of the variable at the
    source with the variable at the destination, adds no variable, and
    leaves every arc deactivated. *)
Theorem flowsheet_arcs_and_expansion (u : Model) :
  framework_ok u = true →
  ∃ m14 m16,
    cell_14 u = Ok m14 ∧ cell_16 m14 = Ok m16
    ∧ arcs m14
      = [ ("fs.s01", mkArc "fs.CH4.outlet" "fs.M101.methane_feed" true);
          ("fs.s02", mkArc "fs.H2O.outlet" "fs.M101.steam_feed" true);
          ("fs.s03", mkArc "fs.M101.outlet" "fs.C101.inlet" true);
          ("fs.s04", mkArc "fs.C101.outlet" "fs.H101.inlet" true);
          ("fs.s05", mkArc "fs.H101.outlet" "fs.R101.inlet" true);
          ("fs.s06", mkArc "fs.R101.outlet" "fs.PROD.inlet" true) ]
    ∧ path_from (stream_edges (arcs m14)) 6 "fs.CH4"
      = ["fs.CH4"; "fs.M101"; "fs.C101"; "fs.H101"; "fs.R101"; "fs.PROD"]
    ∧ path_from (stream_edges (arcs m14)) 6 "fs.H2O"
      = ["fs.H2O"; "fs.M101"; "fs.C101"; "fs.H101"; "fs.R101"; "fs.PROD"]
    ∧ NoDup (stream_edges (arcs m14)).*1
    ∧ vars m16 = vars u
    ∧ constraints m16 = constraints u ++ (arcs m14 ≫= arc_equalities)
    ∧ (∀ a mem, a ∈ arcs m14 → mem ∈ port_members →
         ∃ name,
           (name, mkCon (VarRef (member (source a.2) mem)) Equality
                        (VarRef (member (destination a.2) mem)) true)
           ∈ constraints m16)
    ∧ length (arcs m16) = 6%nat
    ∧ Forall (λ a, arc_active a.2 = false) (arcs m16).
Proof.
  intros Hok. destruct (arc_cells_Ok u Hok) as [H14 H16].
  eexists _, _. split; [exact H14|]. split; [exact H16|]. unfold_model.
  split; [reflexivity|].
  split; [closed|]. split; [closed|]. split; [closed|].
  split; [reflexivity|]. split; [reflexivity|].
  split; [|split; [reflexivity | closed]].
  intros a mem Ha Hmem. eexists. apply elem_of_app. right.
  apply list_elem_of_bind. exists a. split; [|exact Ha].
  unfold arc_equalities. apply list_elem_of_fmap.
  exists mem. split; [reflexivity | exact Hmem].
Qed.

Lemma flowsheet_arcs_and_expansion_witness :
  ∃ m14 m16,
    cell_14 Toy.units = Ok m14 ∧ cell_16 m14 = Ok m16
    ∧ length (arcs m14) = 6%nat ∧ length (arcs m16) = 6%nat.
Proof.
  destruct (flowsheet_arcs_and_expansion Toy.units toy_units_ok)
    as (m14 & m16 & H14 & H16 & Ha & _ & _ & _ & _ & _ & _ & Hl & _).
  exists m14, m16. split; [exact H14|]. split; [exact H16|].
  split; [|exact Hl]. rewrite Ha. reflexivity.
Defined.


Lemma eval_VarRef m v : eval m (VarRef v) = value_of m v.
Proof. reflexivity. Qed.

Lemma eval_conv_lhs pt X Fi xi :
  value_of pt "fs.R101.conversion" = Some X →
  value_of pt (flow_mol "fs.R101.inlet") = Some Fi →
  value_of pt (mole_frac_comp "fs.R101.inlet" "CH4") = Some xi →
  eval pt conv_lhs = Some (X * Fi * xi)%Q.
Proof.
  intros HX HFi Hxi. unfold conv_lhs. cbn [eval].
  by rewrite HX, HFi, Hxi.
Qed.

Lemma eval_conv_rhs pt Fi xi Fo xo :
  value_of pt (flow_mol "fs.R101.inlet") = Some Fi →
  value_of pt (mole_frac_comp "fs.R101.inlet" "CH4") = Some xi →
  value_of pt (flow_mol "fs.R101.outlet") = Some Fo →
  value_of pt (mole_frac_comp "fs.R101.outlet" "CH4") = Some xo →
  eval pt conv_rhs = Some (Fi * xi - Fo * xo)%Q.
Proof.
  intros HFi Hxi HFo Hxo. unfold conv_rhs. cbn [eval].
  by rewrite HFi, Hxi, HFo, Hxo.
Qed.

(** C7: after cell 29 the conversion is a variable with bounds 0 and 1, and
    the model holds the constraint
    [conversion * F_in * x_in = F_in * x_in - F_out * x_out] over the methane
    flows at the inlet and outlet of R101; at any point where the constraint
    holds and the inlet methane flow is not zero, the conversion is the
    fraction of the inlet methane flow that does not leave the reactor. *)
Theorem conversion_bounds_and_constraint (u : Model) (k : Q) :
  framework_ok u = true →
  ∃ m1,
    (cell_25 >=> cell_27 >=> cell_29) (flowsheet_model u k) = Ok m1
    ∧ (∃ d, vars m1 !! "fs.R101.conversion" = Some d
            ∧ lb d = Some 0%Q ∧ ub d = Some 1%Q)
    ∧ ("fs.R101.conv_constraint", mkCon conv_lhs Equality conv_rhs true)
      ∈ constraints m1
    ∧ ∀ (pt : Model) (X Fi xi Fo xo : Q),
        value_of pt "fs.R101.conversion" = Some X →
        value_of pt (flow_mol "fs.R101.inlet") = Some Fi →
        value_of pt (mole_frac_comp "fs.R101.inlet" "CH4") = Some xi →
        value_of pt (flow_mol "fs.R101.outlet") = Some Fo →
        value_of pt (mole_frac_comp "fs.R101.outlet" "CH4") = Some xo →
        (satisfied pt (mkCon conv_lhs Equality conv_rhs true)
         ↔ (X * Fi * xi == Fi * xi - Fo * xo)%Q)
        ∧ (satisfied pt (mkCon conv_lhs Equality conv_rhs true) →
           ¬ (Fi * xi == 0)%Q →
           (X == (Fi * xi - Fo * xo) / (Fi * xi))%Q).
Proof.
  intros Hok.
  destruct (square_cells_yields u k
              (λ m1, ∃ m', m1 = with_conversion m') Hok)
    as (m1 & Hrun & m' & ->); [by eauto|].
  exists (with_conversion m'). split; [exact Hrun|].
  split; [|split].
  - eexists. unfold with_conversion; unfold_model.
    split; [apply lookup_insert_eq|]. by split.
  - unfold with_conversion; unfold_model. apply elem_of_app. right. left.
  - intros pt X Fi xi Fo xo HX HFi Hxi HFo Hxo.
    pose proof (eval_conv_lhs pt X Fi xi HX HFi Hxi) as Hl.
    pose proof (eval_conv_rhs pt Fi xi Fo xo HFi Hxi HFo Hxo) as Hr.
    assert (satisfied pt (mkCon conv_lhs Equality conv_rhs true)
            ↔ (X * Fi * xi == Fi * xi - Fo * xo)%Q) as Hiff.
    { unfold satisfied. cbn [c_lhs c_rhs]. rewrite Hl, Hr. split.
      - intros (l & r & [= <-] & [= <-] & Heq). exact Heq.
      - intros Heq. eauto. }
    split; [exact Hiff|].
    intros Hsat%Hiff Hne. rewrite <- Hsat. field.
    split; intros H0; apply Hne; rewrite H0; ring.
Qed.

Lemma conversion_bounds_and_constraint_witness :
  (0.8 == (100 * 0.25 - 150 * (1 / 30)) / (100 * 0.25))%Q.
Proof.
  destruct (conversion_bounds_and_constraint Toy.units 1 toy_units_ok)
    as (m1 & _ & _ & _ & H).
  destruct (H Toy.reactor_point 0.8 100 0.25 150 (1 / 30)
              eq_refl eq_refl eq_refl eq_refl eq_refl)%Q as [Hiff Hconv].
  apply Hconv.
  - apply Hiff. reflexivity.
  - intros Heq. discriminate Heq.
Defined.


Lemma degrees_of_freedom_ext m m' :
  vars m' = vars m → constraints m' = constraints m →
  degrees_of_freedom m' = degrees_of_freedom m.
Proof.
  intros Hv Hc.
  unfold degrees_of_freedom, unfixed_variables_in_activated_equalities_set,
    variables_in_activated_equalities, activated_equalities, is_unfixed.
  by rewrite Hv, Hc.
Qed.

(** C9: the operating cost is the expression
    [3600 * 8000 * (2.2e-7 * H101 heat duty + 0.212e-7 * R101 heat duty
    + 0.12e-5 * C101 isentropic work)]; the hydrogen production is the flow
    at the inlet of PROD times its hydrogen mole fraction times the
    molecular weight of hydrogen, times the factor [k] of the conversion to
    Mlb/yr; cells 19 and 20 declare them as expressions, which adds neither
    a variable nor a constraint and leaves the degrees of freedom as they
    were. *)
Theorem cost_and_production_expressions (u : Model) (k : Q) :
  framework_ok u = true →
  ∃ m16 m20,
    (cell_14 >=> cell_16) u = Ok m16
    ∧ (cell_19 k >=> cell_20) m16 = Ok m20
    ∧ expressions m20
      = expressions u
        ++ [ ("fs.hyd_prod", hyd_prod k);
             ("fs.cooling_cost", cooling_cost);
             ("fs.heating_cost", heating_cost);
             ("fs.compression_cost", compression_cost);
             ("fs.operating_cost", operating_cost) ]
    ∧ vars m20 = vars m16
    ∧ constraints m20 = constraints m16
    ∧ degrees_of_freedom m20 = degrees_of_freedom m16
    ∧ (∀ (pt : Model) (H R W : Q),
         value_of pt "fs.H101.heat_duty[0]" = Some H →
         value_of pt "fs.R101.heat_duty[0]" = Some R →
         value_of pt "fs.C101.work_isentropic[0]" = Some W →
         eval pt operating_cost
         = Some (3600 * 8000 * (2.2e-7 * H + 0.212e-7 * R + 0.12e-5 * W))%Q)
    ∧ (∀ (pt : Model) (F x mw : Q),
         value_of pt (flow_mol "fs.PROD.inlet") = Some F →
         value_of pt (mole_frac_comp "fs.PROD.inlet" "H2") = Some x →
         params pt !! "fs.thermo_params.H2.mw" = Some mw →
         eval pt (hyd_prod k) = Some (k * (F * x * mw))%Q).
Proof.
  intros Hok. destruct (arc_cells_Ok u Hok) as [H14 H16].
  pose proof (build_cells_Ok u k Hok) as Hbuild.
  rewrite <- seq_step_assoc in Hbuild.
  rewrite (seq_step_Ok _ _ _ _ (eq_trans (seq_step_Ok _ _ _ _ H14) H16)) in Hbuild.
  eexists _, _. split; [exact (eq_trans (seq_step_Ok _ _ _ _ H14) H16)|].
  split; [exact Hbuild|]. unfold flowsheet_model.
  split; [reflexivity|]. split; [reflexivity|]. split; [reflexivity|].
  split; [by apply degrees_of_freedom_ext|].
  split.
  - intros pt H R W HH HR HW. unfold operating_cost, heating_cost, cooling_cost,
      compression_cost. cbn [eval]. by rewrite HH, HR, HW.
  - intros pt F x mw HF Hx Hmw. unfold hyd_prod. cbn [eval].
    by rewrite HF, Hx, Hmw.
Qed.

Lemma cost_and_production_expressions_witness :
  eval Toy.units operating_cost
  = Some (3600 * 8000 * (2.2e-7 * 0 + 0.212e-7 * 0 + 0.12e-5 * 0))%Q
  ∧ eval Toy.units (hyd_prod 1) = Some (1 * (100 * 0.2 * 2.016e-3))%Q.
Proof.
  destruct (cost_and_production_expressions Toy.units 1 toy_units_ok)
    as (m16 & m20 & _ & _ & _ & _ & _ & _ & Hcost & Hprod).
  split.
  - apply (Hcost Toy.units 0 0 0)%Q; vm_compute; reflexivity.
  - apply (Hprod Toy.units 100 0.2 2.016e-3)%Q; vm_compute; reflexivity.
Defined.


Lemma optimization_pressure_bounds u k m d0 :
  framework_ok u = true → square_model u k m →
  vars u !! pressure "fs.C101.outlet" = Some d0 →
  ∃ d, vars (optimization_model m) !! pressure "fs.C101.outlet" = Some d
       ∧ fixed d = false
       ∧ lb d = Some (convert_bar_to_Pa 10)
       ∧ ub d = ub d0.
Proof.
  intros Hok Hm Hd0.
  pose proof (square_bounds _ _ _ Hm (pressure "fs.C101.outlet") ltac:(closed)) as Hb.
  rewrite Hd0 in Hb. rewrite optimization_model_lookup.
  destruct (vars m !! pressure "fs.C101.outlet") as [d|]; [|discriminate Hb].
  cbn [fmap option_fmap option_map] in *. injection Hb as Hlb Hub.
  eexists. split; [reflexivity|].
  unfold optimization_setup.
  rewrite decide_False by closed. rewrite decide_True by reflexivity.
  cbn [fixed lb ub]. by repeat split.
Qed.

(** What cells 45 and 47 leave of the compressor outlet pressure, for any
    unit models: unfixed, with the lower bound 10 bar of the second [setlb]
    call and the upper bound the unit model declared. *)
Lemma optimization_stage_pressure_bounds
    (fw : Framework) (u : Model) (s23 s32 s42 : Session) :
  fw_flowsheet fw = Ok u →
  framework_ok u = true →
  run (build_stage fw) (mkSession u None) = Ok s23 →
  run square_stage s23 = Ok s32 →
  run (solve_stage fw) s32 = Ok s42 →
  ∃ s48 d0 d,
    run optimization_stage s42 = Ok s48
    ∧ vars u !! pressure "fs.C101.outlet" = Some d0
    ∧ vars (model s48) !! pressure "fs.C101.outlet" = Some d
    ∧ fixed d = false
    ∧ lb d = Some (convert_bar_to_Pa 10)
    ∧ ub d = ub d0.
Proof.
  intros _ Hok Hrun Hsq Hsolve.
  destruct (run_to_optimization fw u s23 s32 s42 Hok Hrun Hsq Hsolve)
    as (Hm & _ & Hopt & _).
  pose proof Hok as (_ & _ & _ & _ & Hu & _)%framework_ok_facts.
  assert (pressure "fs.C101.outlet" ∈ dom (vars u)) as [d0 Hd0]%elem_of_dom.
  { apply is_unfixed_dom, Hu. closed. }
  destruct (optimization_pressure_bounds u _ _ d0 Hok Hm Hd0)
    as (d & Hd & Hf & Hlb & Hub).
  exists (mkSession (optimization_model (model s42)) (results s42)), d0, d.
  split; [exact Hopt|]. split; [exact Hd0|]. split; [exact Hd|].
  split; [exact Hf|]. split; [exact Hlb | exact Hub].
Qed.

Lemma toy_pressure :
  vars Toy.units !! pressure "fs.C101.outlet"
  = Some (mkVar (Some 1e5%Q) false (Some 5e4%Q) (Some 1e8%Q)).
Proof. vm_compute. reflexivity. Qed.

(** The first of two [setlb] calls on a variable is dead. *)
Lemma setlb_setlb v q1 q2 m :
  (setlb v q1 >=> setlb v q2) m = setlb v q2 m.
Proof.
  unfold seq_step, setlb, update_var. destruct (vars m !! v) as [d|] eqn:Hd; [|done].
  cbn [mbind outcome_bind]. unfold set_vars; cbn [vars].
  rewrite lookup_alter_eq, Hd. cbn [fmap option_fmap option_map].
  do 2 f_equal. apply map_eq. intros x.
  destruct (decide (v = x)) as [<- | Hx].
  - rewrite !lookup_alter_eq, Hd. done.
  - by rewrite !lookup_alter_ne.
Qed.

(** C8: the pressure bound of cell 47, at the unit models of the small
    instance, whose pressures have the state bounds 5e4 Pa and 1e8 Pa of a
    property package.  The cell calls [setlb] twice and never [setub]: the
    first call (1 bar) is dead, the second one, under the comment "at most,
    pressurize to 1 bar", sets the lower bound 10 bar, that is 1e6 Pa.  After
    the setup the variable is unfixed with the bounds 1e6 Pa and 1e8 Pa: the
    upper bound is the one of the unit model, not an upper limit of the
    notebook, and it is not absent. *)
Theorem cell_47_sets_no_upper_pressure_bound :
  (∀ m, (setlb (pressure "fs.C101.outlet") (convert_bar_to_Pa 1)
           >=> setlb (pressure "fs.C101.outlet") (convert_bar_to_Pa 10)) m
        = setlb (pressure "fs.C101.outlet") (convert_bar_to_Pa 10) m)
  ∧ (convert_bar_to_Pa 10 == 1e6)%Q
  ∧ run (build_stage Toy.fw ++ square_stage ++ solve_stage Toy.fw
           ++ optimization_stage)
        (mkSession Toy.units None)
    = Ok Toy.s48
  ∧ vars Toy.units !! pressure "fs.C101.outlet"
    = Some (mkVar (Some 1e5%Q) false (Some 5e4%Q) (Some 1e8%Q))
  ∧ ∃ d, vars (model Toy.s48) !! pressure "fs.C101.outlet" = Some d
         ∧ fixed d = false
         ∧ lb d = Some (convert_bar_to_Pa 10)
         ∧ ub d = Some 1e8%Q
         ∧ ub d ≠ None.
Proof.
  split; [intros m; apply setlb_setlb|]. split; [reflexivity|].
  split; [|split; [exact toy_pressure|]].
  - rewrite run_app, toy_build_run. cbn [mbind outcome_bind].
    rewrite run_app, toy_square_run. cbn [mbind outcome_bind].
    rewrite run_app, toy_solve_run. cbn [mbind outcome_bind].
    exact toy_optimization_run.
  - destruct (run_to_optimization Toy.fw Toy.units Toy.s23 Toy.s32 Toy.s42
                toy_units_ok toy_build_run toy_square_run toy_solve_run)
      as (Hm & _ & Hopt & _).
    destruct (optimization_pressure_bounds Toy.units _ _ _ toy_units_ok Hm toy_pressure)
      as (d & Hd & Hf & Hlb & Hub).
    rewrite toy_optimization_run in Hopt. apply Ok_inj in Hopt.
    exists d. rewrite Hopt. cbn [model].
    split; [exact Hd|]. split; [exact Hf|]. split; [exact Hlb|]. cbn [ub] in Hub.
    split; [exact Hub|]. rewrite Hub. discriminate.
Qed.


Lemma assert_optimal_spec s :
  assert_optimal s
  = match results s with
    | Some r =>
        if decide (termination_condition r = optimal) then Ok s
        else Raised AssertionError
    | None => Raised (NameError "results")
    end.
Proof.
  unfold assert_optimal. destruct (results s) as [r|]; [|reflexivity].
  destruct (decide (termination_condition r = optimal)) as [H|H].
  - by rewrite bool_decide_eq_true_2.
  - by rewrite bool_decide_eq_false_2.
Qed.

Lemma run_raises pre c post s0 s e :
  run pre s0 = Ok s → c.2 s = Raised e → run (pre ++ c :: post) s0 = Raised e.
Proof.
  intros Hpre Hc. rewrite run_app, Hpre. cbn [mbind outcome_bind run].
  by rewrite Hc.
Qed.

Lemma solve_then_assert fw a b rest s r sol :
  fw_solve fw (model s) = Ok (r, sol) →
  termination_condition r ≠ optimal →
  run ((a, solve fw) :: (b, assert_optimal) :: rest) s = Raised AssertionError.
Proof.
  intros Hsolve Hr. cbn [run snd]. unfold solve. rewrite Hsolve.
  cbn [mbind outcome_bind fst snd]. rewrite assert_optimal_spec. cbn [results].
  by rewrite decide_False.
Qed.

Lemma seq_step_Raised {S : Type} (c1 c2 : S → outcome S) (s : S) (e : exn) :
  c1 s = Raised e → (c1 >=> c2) s = Raised e.
Proof. intros H. unfold seq_step. by rewrite H. Qed.

Lemma seq_step_then {S : Type} (c1 c2 : S → outcome S) (s s1 : S) :
  c1 s = Ok s1 → (c1 >=> c2) s = c2 s1.
Proof. intros H. unfold seq_step. by rewrite H. Qed.

Lemma do_calls_cons fw c l s :
  do_calls fw (c :: l) s = do_call fw c s ≫= do_calls fw l.
Proof. destruct l; [|done]. simpl. by destruct (do_call fw c s). Qed.

Lemma do_calls_app fw l1 l2 s :
  do_calls fw (l1 ++ l2) s = do_calls fw l1 s ≫= do_calls fw l2.
Proof.
  revert s. induction l1 as [|c l1 IH]; intros s; [done|].
  rewrite <- app_comm_cons, !do_calls_cons.
  destruct (do_call fw c s) as [s1|]; [apply IH | done].
Qed.

Lemma do_call_Raised fw c s e :
  framework_call fw c (model s) = Raised e → do_call fw c s = Raised e.
Proof.
  destruct c; cbn [framework_call do_call]; intros H.
  - unfold initialize. by rewrite H.
  - unfold propagate_state. by rewrite H.
Qed.

Lemma cell_34_Raised fw pre c post s s1 e :
  cell_34_calls = pre ++ c :: post →
  do_calls fw pre s = Ok s1 →
  framework_call fw c (model s1) = Raised e →
  cell_34 fw s = Raised e.
Proof.
  intros Hl Hpre Hc.
  change (cell_34 fw s) with (do_calls fw cell_34_calls s).
  rewrite Hl, do_calls_app, Hpre. cbn [mbind outcome_bind].
  by rewrite do_calls_cons, (do_call_Raised _ _ _ e).
Qed.

Lemma solve_Raised fw s e :
  fw_solve fw (model s) = Raised e → solve fw s = Raised e.
Proof. intros H. unfold solve. by rewrite H. Qed.

Lemma report_Raised fw unit_model s e :
  fw_report fw unit_model (model s) = Raised e → report fw unit_model s = Raised e.
Proof. intros H. unfold report. by rewrite H. Qed.

Lemma report_Ok fw unit_model s :
  fw_report fw unit_model (model s) = Ok () → report fw unit_model s = Ok s.
Proof. intros H. unfold report. by rewrite H. Qed.

Lemma cell_52_Raised fw pre unit_model post s e :
  cell_52_reports = pre ++ unit_model :: post →
  print_component "fs.operating_cost" s = Ok s →
  (∀ r, r ∈ pre → fw_report fw r (model s) = Ok ()) →
  fw_report fw unit_model (model s) = Raised e →
  cell_52 fw s = Raised e.
Proof.
  intros Hl Hp Hpre He. unfold cell_52. rewrite (seq_step_then _ _ _ _ Hp).
  unfold cell_52_reports in Hl.
  destruct pre as [|r1 [|r2 [|r3 pre]]]; simplify_list_eq.
  - by apply seq_step_Raised, report_Raised.
  - rewrite (seq_step_then _ _ _ s) by (apply report_Ok, Hpre; left).
    by apply seq_step_Raised, report_Raised.
  - rewrite (seq_step_then _ _ _ s) by (apply report_Ok, Hpre; left).
    rewrite (seq_step_then _ _ _ s) by (apply report_Ok, Hpre; right; left).
    by apply report_Raised.
  - by destruct pre.
Qed.

(** C5: the check after each of the two solves is an assertion: cells 36
    and 51 return when the termination condition is [optimal] and raise
    [AssertionError] for any other one, which ends the run whatever cells
    follow; cell 36 directly follows the first solve and cell 51 the second.
    Nothing catches an exception.  An exception raised by a cell, or by the
    construction of the unit models, is the result of the notebook; inside a
    cell, an exception of a statement is the exception of the cell; and an
    exception of the framework is the exception of the call: of the solver
    in cells 35 and 50 (so of the notebook, at either solve), of an
    initialisation routine or of [propagate_state] at any of the thirteen
    calls of cell 34, of [report] in cells 41 and 52, of a modelling call in
    a cell that works on the model. *)
Theorem assertions_are_the_only_error_handling (fw : Framework) :
  (∀ s, cell_36 s
        = match results s with
          | Some r =>
              if decide (termination_condition r = optimal) then Ok s
              else Raised AssertionError
          | None => Raised (NameError "results")
          end)
  ∧ (∀ s, cell_51 s = cell_36 s)
  ∧ (∃ pre mid post,
       cells fw
       = pre ++ [(35, cell_35 fw); (36, cell_36)] ++ mid
         ++ [(50, cell_50 fw); (51, cell_51)] ++ post)
  ∧ (∀ s r sol rest,
       fw_solve fw (model s) = Ok (r, sol) →
       termination_condition r ≠ optimal →
       run ((35, cell_35 fw) :: (36, cell_36) :: rest) s = Raised AssertionError
       ∧ run ((50, cell_50 fw) :: (51, cell_51) :: rest) s = Raised AssertionError)
  ∧ (∀ e, fw_flowsheet fw = Raised e → notebook fw = Raised e)
  ∧ (∀ u pre c post s e,
       fw_flowsheet fw = Ok u →
       cells fw = pre ++ c :: post →
       run pre (mkSession u None) = Ok s →
       c.2 s = Raised e →
       notebook fw = Raised e)
  ∧ (∀ (c1 c2 : Session → outcome Session) s e,
       c1 s = Raised e → (c1 >=> c2) s = Raised e)
  ∧ (∀ (c1 c2 : Session → outcome Session) s s1,
       c1 s = Ok s1 → (c1 >=> c2) s = c2 s1)
  ∧ (∀ f s e, f (model s) = Raised e → on_model f s = Raised e)
  ∧ (∀ s e,
       fw_solve fw (model s) = Raised e →
       cell_35 fw s = Raised e ∧ cell_50 fw s = Raised e)
  ∧ (∀ pre c post s s1 e,
       cell_34_calls = pre ++ c :: post →
       do_calls fw pre s = Ok s1 →
       framework_call fw c (model s1) = Raised e →
       cell_34 fw s = Raised e)
  ∧ (∀ s e,
       fw_report fw "fs.R101" (model s) = Raised e → cell_41 fw s = Raised e)
  ∧ (∀ pre unit_model post s e,
       cell_52_reports = pre ++ unit_model :: post →
       print_component "fs.operating_cost" s = Ok s →
       (∀ r, r ∈ pre → fw_report fw r (model s) = Ok ()) →
       fw_report fw unit_model (model s) = Raised e →
       cell_52 fw s = Raised e)
  ∧ (∀ u s34 e,
       fw_flowsheet fw = Ok u →
       run (build_stage fw ++ square_stage ++ [(34, cell_34 fw)])
           (mkSession u None) = Ok s34 →
       fw_solve fw (model s34) = Raised e →
       notebook fw = Raised e)
  ∧ (∀ u s48 e,
       fw_flowsheet fw = Ok u →
       run (build_stage fw ++ square_stage ++ solve_stage fw ++ optimization_stage)
           (mkSession u None) = Ok s48 →
       fw_solve fw (model s48) = Raised e →
       notebook fw = Raised e).
Proof.
  assert (∀ u pre c post s e,
            fw_flowsheet fw = Ok u →
            cells fw = pre ++ c :: post →
            run pre (mkSession u None) = Ok s →
            c.2 s = Raised e →
            notebook fw = Raised e) as Hcell.
  { intros u pre c post s e Hu Hcells Hpre Hc. unfold notebook.
    rewrite Hu. cbn [mbind outcome_bind]. rewrite Hcells.
    by apply (run_raises pre c post _ s). }
  split; [exact assert_optimal_spec|]. split; [reflexivity|].
  split; [|split; [|split; [|split; [exact Hcell|]]]].
  - exists (build_stage fw ++ square_stage ++ [(34, cell_34 fw)]),
      ([(38, cell_38); (39, cell_39); (41, cell_41 fw); (42, cell_42)]
         ++ optimization_stage),
      [(52, cell_52 fw); (53, cell_53); (55, cell_55); (56, cell_56)].
    reflexivity.
  - intros s r sol rest Hsolve Hr. split; by eapply solve_then_assert.
  - intros e He. unfold notebook. by rewrite He.
  - split; [intros c1 c2 s e; apply seq_step_Raised|].
    split; [intros c1 c2 s s1; apply seq_step_then|].
    split; [intros f s e H; unfold on_model; by rewrite H|].
    split; [intros s e H; split; by apply solve_Raised|].
    split; [intros pre c post s s1 e; apply cell_34_Raised|].
    split; [intros s e H; unfold cell_41; by apply seq_step_Raised, report_Raised|].
    split; [intros pre unit_model post s e; apply cell_52_Raised|].
    split.
    + intros u s34 e Hu Hrun He.
      apply (Hcell u (build_stage fw ++ square_stage ++ [(34, cell_34 fw)])
               (35, cell_35 fw)
               ([(36, cell_36); (38, cell_38); (39, cell_39); (41, cell_41 fw);
                 (42, cell_42)] ++ optimization_stage ++ optimum_stage fw)
               s34 e Hu); [|exact Hrun|by apply solve_Raised].
      unfold cells, solve_stage. by rewrite <- !app_assoc.
    + intros u s48 e Hu Hrun He.
      apply (Hcell u (build_stage fw ++ square_stage ++ solve_stage fw
                        ++ optimization_stage)
               (50, cell_50 fw)
               [(51, cell_51); (52, cell_52 fw); (53, cell_53); (55, cell_55);
                (56, cell_56)]
               s48 e Hu); [|exact Hrun|by apply solve_Raised].
      unfold cells, optimum_stage. by rewrite <- !app_assoc.
Qed.

Lemma toy_infeasible_is_Ok :
  is_Ok (run [(34, cell_34 (Toy.framework infeasible optimal));
              (35, cell_35 (Toy.framework infeasible optimal))] Toy.s32) = true.
Proof. vm_compute. reflexivity. Qed.

Lemma toy_infeasible_run :
  run (build_stage (Toy.framework infeasible optimal) ++ square_stage
       ++ [(34, cell_34 (Toy.framework infeasible optimal));
           (35, cell_35 (Toy.framework infeasible optimal))])
      (mkSession Toy.units None)
  = Ok Toy.s35_infeasible.
Proof.
  rewrite run_app.
  change (build_stage (Toy.framework infeasible optimal)) with (build_stage Toy.fw).
  rewrite toy_build_run. cbn [mbind outcome_bind].
  rewrite run_app, toy_square_run. cbn [mbind outcome_bind].
  exact (state_after_Ok
           (run [(34, cell_34 (Toy.framework infeasible optimal));
                 (35, cell_35 (Toy.framework infeasible optimal))] Toy.s32)
           Toy.s32 toy_infeasible_is_Ok).
Qed.

Lemma toy_infeasible_assert : cell_36 Toy.s35_infeasible = Raised AssertionError.
Proof. vm_compute. reflexivity. Qed.

Lemma toy_s34_is_Ok : is_Ok (cell_34 toy_solver_fails Toy.s32) = true.
Proof. vm_compute. reflexivity. Qed.

Lemma toy_s34_run :
  run (build_stage toy_solver_fails ++ square_stage
       ++ [(34, cell_34 toy_solver_fails)])
      (mkSession Toy.units None)
  = Ok toy_s34.
Proof.
  rewrite run_app.
  change (build_stage toy_solver_fails) with (build_stage Toy.fw).
  rewrite toy_build_run. cbn [mbind outcome_bind].
  rewrite run_app, toy_square_run. cbn [mbind outcome_bind run snd].
  rewrite (state_after_Ok (cell_34 toy_solver_fails Toy.s32) Toy.s32 toy_s34_is_Ok).
  reflexivity.
Qed.

Lemma assertions_are_the_only_error_handling_witness :
  notebook (Toy.framework infeasible optimal) = Raised AssertionError
  ∧ notebook toy_solver_fails = Raised (FrameworkError "solver").
Proof.
  split.
  - destruct (assertions_are_the_only_error_handling (Toy.framework infeasible optimal))
      as (_ & _ & _ & _ & _ & H & _).
    apply (H Toy.units
             (build_stage (Toy.framework infeasible optimal) ++ square_stage
              ++ [(34, cell_34 (Toy.framework infeasible optimal));
                  (35, cell_35 (Toy.framework infeasible optimal))])
             (36, cell_36)
             ([(38, cell_38); (39, cell_39);
               (41, cell_41 (Toy.framework infeasible optimal)); (42, cell_42)]
                ++ optimization_stage
                ++ optimum_stage (Toy.framework infeasible optimal))
             Toy.s35_infeasible AssertionError).
    + reflexivity.
    + reflexivity.
    + exact toy_infeasible_run.
    + exact toy_infeasible_assert.
  - destruct (assertions_are_the_only_error_handling toy_solver_fails)
      as (_ & _ & _ & _ & _ & _ & _ & _ & _ & _ & _ & _ & _ & H & _).
    apply (H Toy.units toy_s34 (FrameworkError "solver")).
    + reflexivity.
    + exact toy_s34_run.
    + reflexivity.
Defined.


(** * Further properties of the cells *)

(** ** Runs of calls on variables *)

Lemma update_all_cons c l m :
  update_all (c :: l) m = update_var c.2 c.1 m ≫= update_all l.
Proof. destruct l; [|done]. simpl. by destruct (update_var _ _ _). Qed.

Lemma update_all_app l1 l2 m :
  update_all (l1 ++ l2) m = update_all l1 m ≫= update_all l2.
Proof.
  revert m. induction l1 as [|c l1 IH]; intros m; [done|].
  rewrite <- app_comm_cons, !update_all_cons.
  destruct (update_var _ _ _) as [m1|]; [apply IH | done].
Qed.

Lemma set_vars_set_vars m vs vs' : set_vars (set_vars m vs) vs' = set_vars m vs'.
Proof. done. Qed.

Lemma vars_set_vars m vs : vars (set_vars m vs) = vs.
Proof. done. Qed.

Lemma set_vars_vars m : set_vars m (vars m) = m.
Proof. by destruct m. Qed.

Lemma update_var_Ok f v m m' :
  update_var f v m = Ok m' ↔ v ∈ dom (vars m) ∧ m' = set_vars m (alter f v (vars m)).
Proof.
  unfold update_var. rewrite elem_of_dom. destruct (vars m !! v) as [d|].
  - split; [intros [= <-]; eauto | intros [_ ->]; done].
  - split; [done | intros [[? ?] _]; done].
Qed.

Lemma apply_calls_imap c l (vs : gmap string VarData) :
  map_imap (λ x d, Some (apply_calls l x d)) (alter c.2 c.1 vs)
  = map_imap (λ x d, Some (apply_calls (c :: l) x d)) vs.
Proof.
  apply map_eq. intros x. rewrite !map_lookup_imap. unfold apply_calls. simpl.
  destruct (decide (c.1 = x)) as [<- | Hx].
  - rewrite lookup_alter_eq. by destruct (vs !! c.1).
  - by rewrite lookup_alter_ne.
Qed.

Lemma apply_calls_nil (vs : gmap string VarData) :
  map_imap (λ x d, Some (apply_calls [] x d)) vs = vs.
Proof.
  apply map_eq. intros x. rewrite map_lookup_imap. by destruct (vs !! x).
Qed.

(** A run of calls returns exactly when every variable it names is declared,
    and then every variable has the data the calls on it give. *)
Lemma update_all_Ok l m m' :
  update_all l m = Ok m'
  ↔ Forall (λ c, c.1 ∈ dom (vars m)) l
    ∧ m' = set_vars m (map_imap (λ x d, Some (apply_calls l x d)) (vars m)).
Proof.
  revert m. induction l as [|c l IH]; intros m.
  - simpl. rewrite apply_calls_nil, set_vars_vars. split.
    + intros [= <-]. done.
    + intros [_ ->]. done.
  - rewrite update_all_cons, Forall_cons.
    pose proof (vars_set_vars m (alter c.2 c.1 (vars m))) as Hv. split.
    + intros (m1 & Hm1 & Hm')%bind_Ok_inv.
      apply update_var_Ok in Hm1 as [Hc ->]. apply IH in Hm' as [Hl ->].
      rewrite Hv, dom_alter_L in Hl. split; [done|].
      by rewrite Hv, set_vars_set_vars, apply_calls_imap.
    + intros [[Hc Hl] ->].
      erewrite bind_Ok by (apply update_var_Ok; eauto).
      apply IH. rewrite Hv, dom_alter_L.
      split; [done|]. by rewrite set_vars_set_vars, apply_calls_imap.
Qed.

Lemma update_all_is_Ok l m :
  is_Ok (update_all l m) = forallb (λ v, bool_decide (v ∈ dom (vars m))) l.*1.
Proof.
  destruct (update_all l m) as [m'|e] eqn:H; simpl; symmetry.
  - apply update_all_Ok in H as [H _]. apply forallb_forall.
    intros v (c & -> & Hc)%list_elem_of_In%list_elem_of_fmap.
    apply bool_decide_eq_true_2. by eapply Forall_forall in H.
  - apply not_true_is_false. intros Hall.
    assert (update_all l m
            = Ok (set_vars m (map_imap (λ x d, Some (apply_calls l x d)) (vars m))))
      as H'; [|by rewrite H' in H].
    apply update_all_Ok. split; [|done].
    rewrite forallb_forall in Hall. apply Forall_forall.
    intros c Hc. apply (list_elem_of_fmap_2 fst), list_elem_of_In in Hc.
    by apply Hall, bool_decide_eq_true_1 in Hc.
Qed.

Lemma update_all_lookup l m m' x :
  update_all l m = Ok m' →
  vars m' !! x = apply_calls l x <$> vars m !! x.
Proof.
  intros [_ ->]%update_all_Ok. unfold set_vars; cbn [vars].
  rewrite map_lookup_imap. by destruct (vars m !! x).
Qed.

Lemma update_all_rest l m m' :
  update_all l m = Ok m' → m' = set_vars m (vars m').
Proof. intros [_ ->]%update_all_Ok. done. Qed.

Lemma apply_calls_other l x d :
  x ∉ l.*1 → apply_calls l x d = d.
Proof.
  unfold apply_calls. revert d. induction l as [|c l IH]; intros d Hx; [done|].
  simpl in *. apply not_elem_of_cons in Hx as [Hc Hx].
  rewrite decide_False by done. by apply IH.
Qed.

Lemma apply_calls_app l1 l2 x d :
  apply_calls (l1 ++ l2) x d = apply_calls l2 x (apply_calls l1 x d).
Proof. unfold apply_calls. by rewrite foldl_app. Qed.

(** The cells 25, 27 and 47 are runs of calls. *)
Lemma cell_25_update_all m : cell_25 m = update_all (fix_calls feed_conditions) m.
Proof. reflexivity. Qed.

Lemma cell_27_update_all m : cell_27 m = update_all (fix_calls unit_conditions) m.
Proof. reflexivity. Qed.

Lemma cell_47_update_all m : cell_47 m = update_all cell_47_calls m.
Proof. reflexivity. Qed.


Lemma model_after_Ok (r : outcome Model) (m : Model) :
  is_Ok r = true → r = Ok (model_after r m).
Proof. by destruct r. Qed.

Lemma toy_25_Ok : cell_25 Toy.units = Ok toy_25.
Proof. apply model_after_Ok. vm_compute. reflexivity. Qed.

Lemma toy_47_Ok : cell_47 toy_decisions = Ok toy_47.
Proof. apply model_after_Ok. vm_compute. reflexivity. Qed.

Lemma forallb_same (P : string → bool) (l l' : list string) :
  (∀ x, x ∈ l ↔ x ∈ l') → forallb P l = forallb P l'.
Proof.
  intros H. apply eq_true_iff_eq. rewrite !forallb_forall. split.
  - intros Hl x Hx%list_elem_of_In. by apply Hl, list_elem_of_In, H.
  - intros Hl x Hx%list_elem_of_In. by apply Hl, list_elem_of_In, H.
Qed.

Lemma fix_calls_keys l : (fix_calls l).*1 = l.*1.
Proof. unfold fix_calls. rewrite <- list_fmap_compose. done. Qed.

Lemma feed_conditions_keys x : x ∈ feed_conditions.*1 ↔ x ∈ feed_variables.
Proof. split; apply list_subseteq_of_Forall; closed. Qed.

Lemma unit_conditions_keys : unit_conditions.*1 = unit_specifications.
Proof. reflexivity. Qed.

Lemma cell_47_keys x : x ∈ cell_47_calls.*1 ↔ x ∈ optimization_variables.
Proof. split; apply list_subseteq_of_Forall; closed. Qed.

(** X1: each of the cells 25, 27 and 47 returns exactly when every variable
    it names is declared in the model: the sixteen state variables of the
    two feeds for cell 25; the compressor outlet pressure and efficiency and
    the heater outlet temperature for cell 27; the conversion, the
    compressor outlet pressure, the heater outlet temperature and the heater
    duty for cell 47.  Otherwise the cell raises. *)
Theorem specification_cells_need_their_variables (m : Model) :
  is_Ok (cell_25 m) = forallb (λ v, bool_decide (v ∈ dom (vars m))) feed_variables
  ∧ is_Ok (cell_27 m)
    = forallb (λ v, bool_decide (v ∈ dom (vars m))) unit_specifications
  ∧ is_Ok (cell_47 m)
    = forallb (λ v, bool_decide (v ∈ dom (vars m))) optimization_variables.
Proof.
  rewrite cell_25_update_all, cell_27_update_all, cell_47_update_all, !update_all_is_Ok.
  rewrite !fix_calls_keys, unit_conditions_keys.
  split; [|split; [done|]]; apply forallb_same.
  - apply feed_conditions_keys.
  - apply cell_47_keys.
Qed.

(** ** The feed conditions *)

Lemma apply_fix_calls l v q d :
  NoDup l.*1 → (v, q) ∈ l → apply_calls (fix_calls l) v d = fixed_at q d.
Proof.
  revert d. induction l as [|c l IH]; intros d Hnd Hin.
  { by apply elem_of_nil in Hin. }
  simpl in Hnd. apply NoDup_cons in Hnd as [Hc Hnd].
  change (fix_calls (c :: l)) with ([(c.1, fixed_at c.2)] ++ fix_calls l).
  rewrite apply_calls_app. unfold apply_calls at 2. simpl.
  apply elem_of_cons in Hin as [<- | Hin].
  - simpl. rewrite decide_True by done.
    apply apply_calls_other. by rewrite fix_calls_keys.
  - rewrite decide_False; [by apply IH|].
    intros Heq. apply Hc. rewrite Heq.
    by apply (list_elem_of_fmap_2 fst) in Hin.
Qed.

Lemma feed_conditions_NoDup : NoDup feed_conditions.*1.
Proof. closed. Qed.

Lemma cell_25_lookup m m' v q :
  cell_25 m = Ok m' → (v, q) ∈ feed_conditions →
  ∃ d, vars m !! v = Some d ∧ vars m' !! v = Some (fixed_at q d).
Proof.
  intros H Hin. rewrite cell_25_update_all in H.
  pose proof (update_all_lookup _ _ _ v H) as Hv.
  apply update_all_Ok in H as [Hdom _].
  assert (v ∈ dom (vars m)) as [d Hd]%elem_of_dom.
  { apply (proj1 (Forall_forall _ _) Hdom (v, fixed_at q)).
    by apply (list_elem_of_fmap_2 (λ c, (c.1, fixed_at c.2)) _ (v, q)). }
  exists d. split; [done|]. rewrite Hv, Hd.
  cbn [fmap option_fmap option_map]. apply f_equal.
  exact (apply_fix_calls _ _ q _ feed_conditions_NoDup Hin).
Qed.

(** X2: cell 25 gives each of the sixteen feed variables the value of its
    [fix] call and fixes it, keeps the bounds of these variables, changes no
    other variable and nothing else in the model. *)
Theorem cell_25_effect (m m' : Model) :
  cell_25 m = Ok m' →
  (∀ v q, (v, q) ∈ feed_conditions →
     vars m' !! v = (λ d, mkVar (Some q) true (lb d) (ub d)) <$> vars m !! v)
  ∧ (∀ x, x ∉ feed_variables → vars m' !! x = vars m !! x)
  ∧ m' = set_vars m (vars m').
Proof.
  intros H. split; [|split].
  - intros v q Hin. destruct (cell_25_lookup _ _ _ _ H Hin) as (d & -> & ->). done.
  - intros x Hx. rewrite cell_25_update_all in H.
    rewrite (update_all_lookup _ _ _ x H).
    destruct (vars m !! x) as [d|]; [|done].
    cbn [fmap option_fmap option_map]. apply f_equal.
    apply apply_calls_other. by rewrite fix_calls_keys, feed_conditions_keys.
  - rewrite cell_25_update_all in H. by apply update_all_rest in H.
Qed.

Lemma cell_25_effect_witness :
  (∀ v q, (v, q) ∈ feed_conditions →
     vars toy_25 !! v = (λ d, mkVar (Some q) true (lb d) (ub d)) <$> vars Toy.units !! v)
  ∧ (∀ x, x ∉ feed_variables → vars toy_25 !! x = vars Toy.units !! x)
  ∧ toy_25 = set_vars Toy.units (vars toy_25).
Proof. apply (cell_25_effect Toy.units toy_25 toy_25_Ok). Defined.

Lemma cell_25_value_of m m' v q :
  cell_25 m = Ok m' → (v, q) ∈ feed_conditions → value_of m' v = Some q.
Proof.
  intros H Hin. destruct (cell_25_lookup _ _ _ _ H Hin) as (d & _ & Hd).
  unfold value_of. by rewrite Hd.
Qed.

(** A pair listed in a literal list. *)
Ltac listed :=
  repeat first [apply list_elem_of_here | apply list_elem_of_further].

(** X3: the five mole fractions cell 25 fixes for a feed add up to 1.00004,
    not to 1: the main component is fixed at 1 and each of the four others
    at 1e-5. *)
Theorem feed_mole_fractions_sum (m m' : Model) (p : string) :
  cell_25 m = Ok m' →
  p ∈ ["fs.CH4.outlet"; "fs.H2O.outlet"] →
  ∃ s, eval m' (total_mole_frac p) = Some s ∧ (s == 1.00004)%Q ∧ ¬ (s == 1)%Q.
Proof.
  intros H Hp.
  assert (∀ v q, (v, q) ∈ feed_conditions → value_of m' v = Some q) as Hv.
  { intros v q Hin. by eapply cell_25_value_of. }
  apply elem_of_cons in Hp as [-> | Hp];
    [|apply list_elem_of_singleton in Hp as ->].
  - exists (1 + (1e-5 + (1e-5 + (1e-5 + (1e-5 + 0)))))%Q.
    split; [|split; [by vm_compute | by vm_compute]].
    unfold total_mole_frac, component_list. cbn [foldr].
    cbn [eval].
    rewrite (Hv (mole_frac_comp "fs.CH4.outlet" "CH4") 1%Q) by listed.
    rewrite (Hv (mole_frac_comp "fs.CH4.outlet" "H2O") 1e-5%Q) by listed.
    rewrite (Hv (mole_frac_comp "fs.CH4.outlet" "H2") 1e-5%Q) by listed.
    rewrite (Hv (mole_frac_comp "fs.CH4.outlet" "CO") 1e-5%Q) by listed.
    rewrite (Hv (mole_frac_comp "fs.CH4.outlet" "CO2") 1e-5%Q) by listed.
    reflexivity.
  - exists (1e-5 + (1 + (1e-5 + (1e-5 + (1e-5 + 0)))))%Q.
    split; [|split; [by vm_compute | by vm_compute]].
    unfold total_mole_frac, component_list. cbn [foldr].
    cbn [eval].
    rewrite (Hv (mole_frac_comp "fs.H2O.outlet" "CH4") 1e-5%Q) by listed.
    rewrite (Hv (mole_frac_comp "fs.H2O.outlet" "H2O") 1%Q) by listed.
    rewrite (Hv (mole_frac_comp "fs.H2O.outlet" "H2") 1e-5%Q) by listed.
    rewrite (Hv (mole_frac_comp "fs.H2O.outlet" "CO") 1e-5%Q) by listed.
    rewrite (Hv (mole_frac_comp "fs.H2O.outlet" "CO2") 1e-5%Q) by listed.
    reflexivity.
Qed.

Lemma feed_mole_fractions_sum_witness :
  ∃ s, eval toy_25 (total_mole_frac "fs.CH4.outlet") = Some s
       ∧ (s == 1.00004)%Q ∧ ¬ (s == 1)%Q.
Proof.
  apply (feed_mole_fractions_sum Toy.units toy_25 "fs.CH4.outlet" toy_25_Ok).
  apply list_elem_of_here.
Defined.


(** ** Running a cell again, and cells in another order *)

Lemma dom_apply_calls l (vs : gmap string VarData) :
  dom (map_imap (λ x d, Some (apply_calls l x d)) vs) = dom vs.
Proof.
  apply set_eq. intros x. rewrite !elem_of_dom, map_lookup_imap.
  destruct (vs !! x); simpl; split; intros [? ?]; by eauto.
Qed.

Lemma update_all_ext l l' m m' :
  (∀ x, x ∈ l.*1 ↔ x ∈ l'.*1) →
  (∀ x d, apply_calls l x d = apply_calls l' x d) →
  update_all l m = Ok m' → update_all l' m = Ok m'.
Proof.
  intros Hk Ha [Hdom ->]%update_all_Ok. apply update_all_Ok. split.
  - apply Forall_forall. intros c Hc.
    apply (list_elem_of_fmap_2 fst), Hk, list_elem_of_fmap in Hc as (c' & -> & Hc').
    by eapply Forall_forall in Hdom.
  - f_equal. apply map_eq. intros x. rewrite !map_lookup_imap.
    destruct (vars m !! x); [simpl; by rewrite Ha | done].
Qed.

Lemma update_all_again l m m' :
  (∀ x d, apply_calls l x (apply_calls l x d) = apply_calls l x d) →
  update_all l m = Ok m' → update_all l m' = Ok m'.
Proof.
  intros Ha [Hdom ->]%update_all_Ok. apply update_all_Ok.
  rewrite vars_set_vars, dom_apply_calls, set_vars_set_vars. split; [done|].
  f_equal. apply map_eq. intros x. rewrite !map_lookup_imap.
  destruct (vars m !! x); [simpl; by rewrite Ha | done].
Qed.

Lemma apply_calls_again l :
  Forall (λ v, ∀ d, apply_calls l v (apply_calls l v d) = apply_calls l v d) l.*1 →
  ∀ x d, apply_calls l x (apply_calls l x d) = apply_calls l x d.
Proof.
  intros H x d. destruct (decide (x ∈ l.*1)) as [Hx | Hx].
  - by eapply Forall_forall in H.
  - by rewrite !apply_calls_other.
Qed.

Lemma fix_calls_again l x d :
  NoDup l.*1 →
  apply_calls (fix_calls l) x (apply_calls (fix_calls l) x d)
  = apply_calls (fix_calls l) x d.
Proof.
  intros Hnd. destruct (decide (x ∈ l.*1)) as [Hx | Hx].
  - apply list_elem_of_fmap in Hx as ([v q] & -> & Hin).
    by rewrite !(apply_fix_calls l v q).
  - by rewrite !apply_calls_other by by rewrite fix_calls_keys.
Qed.

Lemma cell_47_calls_again x d :
  apply_calls cell_47_calls x (apply_calls cell_47_calls x d)
  = apply_calls cell_47_calls x d.
Proof.
  revert x d. apply apply_calls_again. unfold cell_47_calls.
  cbn [fmap list_fmap fst].
  repeat apply Forall_cons_2; try apply Forall_nil_2; intros d; reflexivity.
Qed.

(** X4: each of the cells 25, 27 and 47 can be run again on the model it
    returned: the second run returns, and returns the same model. *)
Theorem specification_cells_can_be_run_again
    (c : Model → outcome Model) (m m' : Model) :
  c ∈ [cell_25; cell_27; cell_47] → c m = Ok m' → c m' = Ok m'.
Proof.
  intros Hc H.
  apply elem_of_cons in Hc as [-> | Hc]; [|apply elem_of_cons in Hc as [-> | Hc]];
    [| |apply list_elem_of_singleton in Hc as ->].
  - rewrite cell_25_update_all in *. revert H. apply update_all_again.
    intros x d. apply fix_calls_again, feed_conditions_NoDup.
  - rewrite cell_27_update_all in *. revert H. apply update_all_again.
    intros x d. apply fix_calls_again. closed.
  - rewrite cell_47_update_all in *. revert H. apply update_all_again.
    apply cell_47_calls_again.
Qed.

Lemma specification_cells_can_be_run_again_witness : cell_47 toy_47 = Ok toy_47.
Proof.
  apply (specification_cells_can_be_run_again cell_47 toy_decisions toy_47).
  - listed.
  - exact toy_47_Ok.
Defined.

Lemma apply_calls_disjoint l1 l2 x d :
  (∀ y, y ∈ l1.*1 → y ∉ l2.*1) →
  apply_calls (l1 ++ l2) x d = apply_calls (l2 ++ l1) x d.
Proof.
  intros H. rewrite !apply_calls_app.
  destruct (decide (x ∈ l1.*1)) as [Hx | Hx].
  - by rewrite !(apply_calls_other l2) by auto.
  - by rewrite !(apply_calls_other l1).
Qed.

Lemma feed_not_unit_specification y :
  y ∈ (fix_calls feed_conditions).*1 → y ∉ (fix_calls unit_conditions).*1.
Proof.
  rewrite !fix_calls_keys. intros Hy.
  assert (Forall (λ y, y ∉ unit_conditions.*1) feed_conditions.*1) as H by closed.
  by eapply Forall_forall in H.
Qed.

(** X5: the cells 25 and 27 can be run in either order: cell 25 followed
    by cell 27 returns a model exactly when cell 27 followed by cell 25
    returns it. *)
Theorem feed_and_unit_specifications_commute (m m' : Model) :
  (cell_25 >=> cell_27) m = Ok m' ↔ (cell_27 >=> cell_25) m = Ok m'.
Proof.
  change ((cell_25 >=> cell_27) m)
    with (update_all (fix_calls feed_conditions) m
            ≫= update_all (fix_calls unit_conditions)).
  change ((cell_27 >=> cell_25) m)
    with (update_all (fix_calls unit_conditions) m
            ≫= update_all (fix_calls feed_conditions)).
  rewrite <- !update_all_app. split; apply update_all_ext.
  - intros x. rewrite !fmap_app, !elem_of_app. tauto.
  - intros x d. apply apply_calls_disjoint, feed_not_unit_specification.
  - intros x. rewrite !fmap_app, !elem_of_app. tauto.
  - intros x d. symmetry. apply apply_calls_disjoint, feed_not_unit_specification.
Qed.

(** ** Cell 47 *)

(** X6: cell 47 fixes the conversion at 0.90 and keeps its bounds; it
    unfixes the compressor outlet pressure and gives it the lower bound
    10 bar, keeping its value and its upper bound; it unfixes the heater
    outlet temperature and gives it the upper bound 1000 K, keeping its
    value and its lower bound; it gives the heater duty the lower bound 0
    and changes nothing else of it; it changes no other variable and nothing
    else in the model. *)
Theorem cell_47_effect (m m' : Model) :
  cell_47 m = Ok m' →
  vars m' !! "fs.R101.conversion"
  = (λ d, mkVar (Some 0.90%Q) true (lb d) (ub d)) <$> vars m !! "fs.R101.conversion"
  ∧ vars m' !! pressure "fs.C101.outlet"
    = (λ d, mkVar (var_value d) false (Some (convert_bar_to_Pa 10)) (ub d))
        <$> vars m !! pressure "fs.C101.outlet"
  ∧ vars m' !! temperature "fs.H101.outlet"
    = (λ d, mkVar (var_value d) false (lb d) (Some 1000%Q))
        <$> vars m !! temperature "fs.H101.outlet"
  ∧ vars m' !! "fs.H101.heat_duty[0]"
    = (λ d, mkVar (var_value d) (fixed d) (Some 0%Q) (ub d))
        <$> vars m !! "fs.H101.heat_duty[0]"
  ∧ (∀ x, x ∉ optimization_variables → vars m' !! x = vars m !! x)
  ∧ m' = set_vars m (vars m').
Proof.
  intros H. rewrite cell_47_update_all in H.
  rewrite !(update_all_lookup _ _ _ _ H).
  split; [reflexivity|]. split; [reflexivity|]. split; [reflexivity|].
  split; [reflexivity|]. split.
  - intros x Hx. rewrite (update_all_lookup _ _ _ _ H).
    destruct (vars m !! x) as [d|]; [|done].
    cbn [fmap option_fmap option_map]. apply f_equal.
    apply apply_calls_other. by rewrite cell_47_keys.
  - by apply update_all_rest in H.
Qed.

Lemma cell_47_effect_witness :
  vars toy_47 !! pressure "fs.C101.outlet"
  = Some (mkVar (Some 2e5%Q) false (Some (convert_bar_to_Pa 10)) (Some 1e8%Q)).
Proof.
  destruct (cell_47_effect toy_decisions toy_47 toy_47_Ok) as (_ & H & _).
  rewrite H. reflexivity.
Defined.


(** ** Degrees of freedom and the calls on variables *)

Lemma is_unfixed_alter f v m x :
  is_unfixed (set_vars m (alter f v (vars m))) x
  = match vars m !! x with
    | Some d => negb (fixed (if decide (v = x) then f d else d))
    | None => false
    end.
Proof.
  unfold is_unfixed. rewrite vars_set_vars.
  destruct (decide (v = x)) as [<- | Hx].
  - rewrite lookup_alter_eq. by destruct (vars m !! v).
  - by rewrite lookup_alter_ne.
Qed.

(** Degrees of freedom depend on the constraints and on which variables of
    the activated equalities are fixed, and on nothing else. *)
Lemma degrees_of_freedom_flags m m' :
  constraints m' = constraints m →
  (∀ x, x ∈ variables_in_activated_equalities m → is_unfixed m' x = is_unfixed m x) →
  degrees_of_freedom m' = degrees_of_freedom m.
Proof.
  intros Hc Hf.
  assert (activated_equalities m' = activated_equalities m) as Ha.
  { unfold activated_equalities. by rewrite Hc. }
  assert (variables_in_activated_equalities m' = variables_in_activated_equalities m)
    as Hv.
  { unfold variables_in_activated_equalities. by rewrite Ha. }
  unfold degrees_of_freedom. rewrite Ha. do 3 f_equal.
  apply set_eq. intros x. rewrite !elem_of_unfixed_set, Hv.
  split; intros [Hx Hin]; (split; [|done]); [rewrite <- Hf | rewrite Hf]; done.
Qed.

(** X7: fixing a variable lowers the degrees of freedom by one when the
    variable was unfixed and occurs in an activated equality constraint, and
    leaves them as they were otherwise (a variable that was already fixed,
    or that occurs in no activated equality). *)
Theorem fix_and_degrees_of_freedom (v : string) (q : Q) (m m' : Model) :
  fix_var v q m = Ok m' →
  degrees_of_freedom m'
  = (degrees_of_freedom m
     - if is_unfixed m v && bool_decide (v ∈ variables_in_activated_equalities m)
       then 1 else 0)%Z.
Proof.
  intros [Hv ->]%update_var_Ok. unfold fix_var.
  set (m' := set_vars m (alter _ v (vars m))).
  destruct (is_unfixed m v) eqn:Hu; simpl; [case_bool_decide as Hin|].
  - rewrite (degrees_of_freedom_change m m' [v] []); [cbn [length]; lia | | | | |].
    + apply NoDup_singleton.
    + by rewrite app_nil_r.
    + intros c x Hc. by apply elem_of_nil in Hc.
    + intros x. unfold m'. rewrite is_unfixed_alter. unfold is_unfixed.
      destruct (vars m !! x) as [d|]; [|done].
      destruct (decide (v = x)) as [<- | Hx].
      * rewrite bool_decide_false; [by rewrite andb_false_r|].
        intros Hn. apply Hn. by left.
      * rewrite bool_decide_true; [by rewrite andb_true_r|].
        by intros ->%list_elem_of_singleton.
    + by intros x ->%list_elem_of_singleton.
  - rewrite (degrees_of_freedom_flags m' m); [lia | done |].
    intros x Hx. unfold m'. rewrite is_unfixed_alter. unfold is_unfixed.
    destruct (vars m !! x) as [d|]; [|done].
    by rewrite decide_False by by intros <-.
  - rewrite (degrees_of_freedom_flags m' m); [lia | done |].
    intros x Hx. unfold m'. rewrite is_unfixed_alter. revert Hu. unfold is_unfixed.
    destruct (decide (v = x)) as [<- | Hne]; [|done].
    destruct (vars m !! v) as [d|]; [|done]. simpl. by intros ->.
Qed.

Lemma toy_fixed_Ok : fix_var (pressure "fs.C101.outlet") 2e5 Toy.units = Ok toy_fixed.
Proof. apply model_after_Ok. vm_compute. reflexivity. Qed.

Lemma fix_and_degrees_of_freedom_witness :
  degrees_of_freedom toy_fixed
  = (degrees_of_freedom Toy.units
     - if is_unfixed Toy.units (pressure "fs.C101.outlet")
          && bool_decide (pressure "fs.C101.outlet"
                            ∈ variables_in_activated_equalities Toy.units)
       then 1 else 0)%Z.
Proof.
  exact (fix_and_degrees_of_freedom (pressure "fs.C101.outlet") 2e5
           Toy.units toy_fixed toy_fixed_Ok).
Defined.

(** X8: unfixing a variable raises the degrees of freedom by one when the
    variable was fixed and occurs in an activated equality constraint, and
    leaves them as they were otherwise. *)
Theorem unfix_and_degrees_of_freedom (v : string) (m m' : Model) :
  unfix v m = Ok m' →
  degrees_of_freedom m'
  = (degrees_of_freedom m
     + if is_fixed m v && bool_decide (v ∈ variables_in_activated_equalities m)
       then 1 else 0)%Z.
Proof.
  intros [Hv ->]%update_var_Ok.
  set (m' := set_vars m (alter _ v (vars m))).
  assert (∀ x, is_unfixed m' x
               = match vars m !! x with
                 | Some d => if decide (v = x) then true else negb (fixed d)
                 | None => false
                 end) as Hm'.
  { intros x. unfold m'. rewrite is_unfixed_alter.
    destruct (vars m !! x) as [d|]; [|done]. by destruct (decide (v = x)). }
  destruct (is_fixed m v) eqn:Hf; simpl; [case_bool_decide as Hin|].
  - enough (degrees_of_freedom m = (degrees_of_freedom m' - 1 - 0)%Z) by lia.
    apply (degrees_of_freedom_change m' m [v] []).
    + apply NoDup_singleton.
    + by rewrite app_nil_r.
    + intros c x Hc. by apply elem_of_nil in Hc.
    + intros x. rewrite Hm'. unfold is_unfixed. unfold is_fixed in Hf.
      destruct (decide (v = x)) as [<- | Hx].
      * destruct (vars m !! v) as [d|]; [|done]. rewrite Hf.
        rewrite bool_decide_false; [done|]. intros Hn. apply Hn. by left.
      * destruct (vars m !! x) as [d|]; [|done].
        rewrite bool_decide_true; [by rewrite andb_true_r|].
        by intros ->%list_elem_of_singleton.
    + intros x ->%list_elem_of_singleton. split; [done|].
      rewrite Hm'. apply elem_of_dom in Hv as [d ->]. by rewrite decide_True.
  - rewrite (degrees_of_freedom_flags m' m); [lia | done |].
    intros x Hx. rewrite Hm'. unfold is_unfixed.
    destruct (vars m !! x) as [d|]; [|done].
    by rewrite decide_False by by intros <-.
  - rewrite (degrees_of_freedom_flags m' m); [lia | done |].
    intros x Hx. rewrite Hm'. unfold is_unfixed. unfold is_fixed in Hf.
    destruct (decide (v = x)) as [<- | Hne]; [|done].
    apply elem_of_dom in Hv as [d Hd]. rewrite Hd in *. by rewrite Hf.
Qed.

Lemma toy_unfixed_Ok : unfix (pressure "fs.C101.outlet") toy_fixed = Ok toy_unfixed.
Proof. apply model_after_Ok. vm_compute. reflexivity. Qed.

Lemma unfix_and_degrees_of_freedom_witness :
  degrees_of_freedom toy_unfixed
  = (degrees_of_freedom toy_fixed
     + if is_fixed toy_fixed (pressure "fs.C101.outlet")
          && bool_decide (pressure "fs.C101.outlet"
                            ∈ variables_in_activated_equalities toy_fixed)
       then 1 else 0)%Z.
Proof.
  exact (unfix_and_degrees_of_freedom (pressure "fs.C101.outlet")
           toy_fixed toy_unfixed toy_unfixed_Ok).
Defined.

(** X9: bounds and values do not count: [setlb], [setub] and the loading of
    the values a solver or an initialisation routine returns leave the
    degrees of freedom as they were. *)
Theorem bounds_and_values_leave_degrees_of_freedom
    (v : string) (q : Q) (sol : gmap string Q) (m m' : Model) :
  setlb v q m = Ok m' ∨ setub v q m = Ok m' ∨ load_values sol m = m' →
  degrees_of_freedom m' = degrees_of_freedom m.
Proof.
  intros [H | [H | <-]].
  - apply update_var_Ok in H as [_ ->]. apply degrees_of_freedom_flags; [done|].
    intros x _. rewrite is_unfixed_alter. unfold is_unfixed.
    destruct (vars m !! x) as [d|]; [|done]. by destruct (decide (v = x)).
  - apply update_var_Ok in H as [_ ->]. apply degrees_of_freedom_flags; [done|].
    intros x _. rewrite is_unfixed_alter. unfold is_unfixed.
    destruct (vars m !! x) as [d|]; [|done]. by destruct (decide (v = x)).
  - apply degrees_of_freedom_same_structure, same_structure_load_values.
Qed.

Lemma bounds_and_values_leave_degrees_of_freedom_witness :
  degrees_of_freedom (load_values Toy.square_values Toy.units)
  = degrees_of_freedom Toy.units.
Proof.
  apply (bounds_and_values_leave_degrees_of_freedom
           (pressure "fs.C101.outlet") 1e6 Toy.square_values Toy.units).
  right. right. reflexivity.
Defined.


(** ** Runs, cell by cell *)

Lemma run_cons_Ok c cs s s' :
  run (c :: cs) s = Ok s' ↔ ∃ s1, c.2 s = Ok s1 ∧ run cs s1 = Ok s'.
Proof.
  cbn [run]. destruct (c.2 s) as [s1|e].
  - split; [eauto|]. by intros (? & [= <-] & ?).
  - split; [done|]. by intros (? & ? & ?).
Qed.

Lemma run_nil_Ok s s' : run [] s = Ok s' ↔ s' = s.
Proof. cbn [run]. split; [by intros [= <-] | by intros ->]. Qed.

Lemma run_app_Ok cs1 cs2 s s' :
  run (cs1 ++ cs2) s = Ok s' ↔ ∃ s1, run cs1 s = Ok s1 ∧ run cs2 s1 = Ok s'.
Proof.
  rewrite run_app. destruct (run cs1 s) as [s1|e]; cbn [mbind outcome_bind].
  - split; [eauto|]. by intros (? & [= <-] & ?).
  - split; [done|]. by intros (? & ? & ?).
Qed.

Lemma on_model_Ok f s s' :
  on_model f s = Ok s' ↔ ∃ m, f (model s) = Ok m ∧ s' = mkSession m (results s).
Proof.
  unfold on_model. destruct (f (model s)) as [m|e]; cbn [mbind outcome_bind].
  - split; [intros [= <-]; eauto|]. by intros (? & [= <-] & ->).
  - split; [done|]. by intros (? & ? & ?).
Qed.

Lemma seq_step_Ok_inv {S : Type} (c1 c2 : S → outcome S) (s s' : S) :
  (c1 >=> c2) s = Ok s' ↔ ∃ s1, c1 s = Ok s1 ∧ c2 s1 = Ok s'.
Proof.
  unfold seq_step. destruct (c1 s) as [s1|e]; cbn [mbind outcome_bind].
  - split; [eauto|]. by intros (? & [= <-] & ?).
  - split; [done|]. by intros (? & ? & ?).
Qed.

Lemma assert_Ok b : assert b = Ok () ↔ b = true.
Proof. by destruct b. Qed.

(** *** Cells that only check *)

Lemma check_step_seq c1 c2 : check_step c1 → check_step c2 → check_step (c1 >=> c2).
Proof.
  intros H1 H2 s s' (s1 & Hs1 & Hs')%seq_step_Ok_inv.
  apply H1 in Hs1 as ->. by apply H2 in Hs'.
Qed.

Lemma check_step_report fw unit_model : check_step (report fw unit_model).
Proof.
  intros s s' H. unfold report in H.
  by apply bind_Ok_inv in H as (? & _ & [= <-]).
Qed.

Lemma check_step_print_value e : check_step (print_value e).
Proof.
  intros s s' H. unfold print_value in H.
  by apply bind_Ok_inv in H as (? & _ & [= <-]).
Qed.

Lemma check_step_assert_approx e f x : check_step (assert_approx e f x).
Proof.
  intros s s' H. unfold assert_approx in H.
  apply bind_Ok_inv in H as (? & _ & H).
  by apply bind_Ok_inv in H as (? & _ & [= <-]).
Qed.

Lemma check_step_print_component name : check_step (print_component name).
Proof.
  intros s s' H. unfold print_component in H.
  apply bind_Ok_inv in H as (e & _ & H). by apply check_step_print_value in H.
Qed.

Lemma check_step_assert_component_approx name f x :
  check_step (assert_component_approx name f x).
Proof.
  intros s s' H. unfold assert_component_approx in H.
  apply bind_Ok_inv in H as (e & _ & H). by apply check_step_assert_approx in H.
Qed.

Lemma check_step_assert_optimal : check_step assert_optimal.
Proof.
  intros s s' H. unfold assert_optimal in H. destruct (results s); [|done].
  by apply bind_Ok_inv in H as (? & _ & [= <-]).
Qed.

Lemma check_step_assert_degrees_of_freedom n :
  check_step (assert_degrees_of_freedom n).
Proof.
  intros s s' H. unfold assert_degrees_of_freedom in H.
  by apply bind_Ok_inv in H as (? & _ & [= <-]).
Qed.

Lemma assert_degrees_of_freedom_Ok n s s' :
  assert_degrees_of_freedom n s = Ok s' → degrees_of_freedom (model s) = n.
Proof.
  unfold assert_degrees_of_freedom. intros ([] & Hb & _)%bind_Ok_inv.
  by apply assert_Ok, bool_decide_eq_true_1 in Hb.
Qed.

Lemma assert_degrees_of_freedom_Raised n s :
  degrees_of_freedom (model s) ≠ n →
  assert_degrees_of_freedom n s = Raised AssertionError.
Proof.
  intros H. unfold assert_degrees_of_freedom. by rewrite bool_decide_eq_false_2.
Qed.

Lemma assert_optimal_Ok s s' :
  assert_optimal s = Ok s' →
  ∃ r, results s = Some r ∧ termination_condition r = optimal.
Proof.
  unfold assert_optimal. destruct (results s) as [r|]; [|done].
  intros ([] & Hb & _)%bind_Ok_inv. exists r. split; [done|].
  by apply assert_Ok, bool_decide_eq_true_1 in Hb.
Qed.

Lemma check_step_again c s s' : check_step c → c s = Ok s' → c s' = Ok s'.
Proof. intros Hc H. by rewrite (Hc _ _ H) in H |- *. Qed.

Create HintDb check.
#[export] Hint Resolve check_step_seq check_step_report check_step_print_value
  check_step_assert_approx check_step_assert_optimal
  check_step_assert_degrees_of_freedom check_step_print_component
  check_step_assert_component_approx : check.

(** *** What keeps the fixed variables *)

Lemma keeps_fixed_refl S m : keeps_fixed S m m.
Proof. by intros x d _ Hx _. Qed.

Lemma keeps_fixed_trans S1 S2 m1 m2 m3 :
  keeps_fixed S1 m1 m2 → keeps_fixed S2 m2 m3 →
  keeps_fixed (λ x, S1 x || S2 x) m1 m3.
Proof.
  intros H1 H2 x d [Hx1 Hx2]%orb_false_elim Hd Hf. eauto.
Qed.

Lemma keeps_fixed_trans_all m1 m2 m3 :
  keeps_fixed (λ _, false) m1 m2 → keeps_fixed (λ _, false) m2 m3 →
  keeps_fixed (λ _, false) m1 m3.
Proof. intros H1 H2 x d _ Hd Hf. eauto. Qed.

Lemma keeps_fixed_weaken (S S' : string → bool) m m' :
  (∀ x, S' x = false → S x = false) → keeps_fixed S m m' → keeps_fixed S' m m'.
Proof. intros HS H x d Hx. apply H. auto. Qed.

Lemma keeps_fixed_same m1 m2 S : vars m2 = vars m1 → keeps_fixed S m1 m2.
Proof. intros H x d _ Hx _. by rewrite H. Qed.

Lemma keeps_fixed_load_values sol m :
  keeps_fixed (λ _, false) m (load_values sol m).
Proof.
  intros x d _ Hx Hf. unfold load_values. rewrite vars_set_vars, map_lookup_imap, Hx.
  simpl. unfold load_value. by rewrite Hf.
Qed.

Lemma keeps_fixed_update_all l m m' :
  update_all l m = Ok m' → keeps_fixed (named l.*1) m m'.
Proof.
  intros H x d Hx%bool_decide_eq_false_1 Hd _.
  rewrite (update_all_lookup _ _ _ x H), Hd.
  cbn [fmap option_fmap option_map]. apply f_equal. by apply apply_calls_other.
Qed.

(** Declaring a component changes no variable that does not belong to
    it. *)
Lemma add_component_lookup name m m' x :
  add_component name m = Ok m' → owned name x = false →
  vars m' !! x = vars m !! x.
Proof.
  unfold add_component. intros [= <-] Hx. cbn [declare vars].
  destruct (decide (name ∈ components m)); [|done].
  cbn [del_component vars]. rewrite map_lookup_filter.
  destruct (vars m !! x) as [d|]; [|done]. cbn [mbind option_bind].
  by rewrite option_guard_True.
Qed.

Lemma add_component_constraints name m m' :
  add_component name m = Ok m' → name ∉ components m →
  constraints m' = constraints m.
Proof.
  unfold add_component. intros [= <-] Hn. by rewrite decide_False.
Qed.

Lemma check_declared_same e m m' : check_declared e m = Ok m' → m' = m.
Proof.
  unfold check_declared. repeat case_match; try done. by intros [= <-].
Qed.

Lemma Var_lookup name init lo hi m m' x :
  Var name init lo hi m = Ok m' → owned name x = false →
  vars m' !! x = vars m !! x.
Proof.
  unfold Var. intros (m1 & Hm1 & [= <-])%bind_Ok_inv Hx.
  rewrite vars_set_vars, lookup_insert_ne.
  - by apply (add_component_lookup name).
  - intros <-. unfold owned in Hx. by rewrite String.eqb_refl in Hx.
Qed.

Lemma Constraint_lookup name l r m m' x :
  Constraint name l r m = Ok m' → owned name x = false →
  vars m' !! x = vars m !! x.
Proof.
  unfold Constraint.
  intros (m1 & ->%check_declared_same & H)%bind_Ok_inv Hx.
  apply bind_Ok_inv in H as (m2 & ->%check_declared_same & H).
  apply bind_Ok_inv in H as (m3 & Hm3 & [= <-]). cbn [vars].
  by apply (add_component_lookup name).
Qed.

Lemma Objective_lookup name e m m' x :
  Objective name e m = Ok m' → owned name x = false →
  vars m' !! x = vars m !! x.
Proof.
  unfold Objective.
  intros (m1 & ->%check_declared_same & H)%bind_Ok_inv Hx.
  apply bind_Ok_inv in H as (m3 & Hm3 & [= <-]). cbn [vars].
  by apply (add_component_lookup name).
Qed.

Lemma owned_by_cons n l x :
  owned_by (n :: l) x = false → owned n x = false ∧ owned_by l x = false.
Proof. unfold owned_by. cbn [existsb]. apply orb_false_elim. Qed.

Lemma keeps_fixed_cell_29 m m' :
  cell_29 m = Ok m' →
  keeps_fixed (owned_by ["fs.R101.conversion"; "fs.R101.conv_constraint"]) m m'.
Proof.
  unfold cell_29. intros (m1 & H1 & H)%seq_step_Ok_inv.
  apply seq_step_Ok_inv in H as (m2 & H2 & H3).
  apply update_var_Ok in H3 as [_ ->].
  intros x d [Hx1 [Hx2 _]%owned_by_cons]%owned_by_cons Hd _.
  rewrite vars_set_vars, lookup_alter_ne.
  - by rewrite (Constraint_lookup _ _ _ _ _ x H2), (Var_lookup _ _ _ _ _ _ x H1).
  - intros <-. unfold owned in Hx1. by rewrite String.eqb_refl in Hx1.
Qed.

Lemma keeps_fixed_cell_45 m m' :
  cell_45 m = Ok m' → keeps_fixed (owned_by ["fs.objective"]) m m'.
Proof.
  unfold cell_45. intros (e & _ & H)%bind_Ok_inv.
  intros x d [Hx _]%owned_by_cons Hd _.
  by rewrite (Objective_lookup _ _ _ _ x H).
Qed.

Lemma keeps_step_seq c1 c2 : keeps_step c1 → keeps_step c2 → keeps_step (c1 >=> c2).
Proof.
  intros H1 H2 s s' (s1 & Hs1 & Hs')%seq_step_Ok_inv.
  apply (keeps_fixed_trans_all _ (model s1)); eauto.
Qed.

Lemma keeps_step_check c : check_step c → keeps_step c.
Proof. intros Hc s s' ->%Hc. apply keeps_fixed_refl. Qed.

Lemma keeps_step_initialize fw unit_model : keeps_step (initialize fw unit_model).
Proof.
  intros s s' H. unfold initialize in H.
  apply bind_Ok_inv in H as (sol & _ & [= <-]). apply keeps_fixed_load_values.
Qed.

Lemma keeps_step_propagate_state fw arc : keeps_step (propagate_state fw arc).
Proof.
  intros s s' H. unfold propagate_state in H.
  apply bind_Ok_inv in H as (sol & _ & [= <-]). apply keeps_fixed_load_values.
Qed.

Lemma keeps_step_solve fw : keeps_step (solve fw).
Proof.
  intros s s' H. unfold solve in H.
  apply bind_Ok_inv in H as (sol & _ & [= <-]). apply keeps_fixed_load_values.
Qed.

Lemma keeps_step_run cs : Forall (λ c, keeps_step c.2) cs → keeps_step (run cs).
Proof.
  induction 1 as [|c cs Hc _ IH]; intros s s' H.
  - apply run_nil_Ok in H as ->. apply keeps_fixed_refl.
  - apply run_cons_Ok in H as (s1 & Hs1 & Hs').
    apply (keeps_fixed_trans_all _ (model s1)); eauto.
Qed.

(** The cells between the specifications and the optimisation, and the
    cells after it, are calls of the framework and checks. *)
Ltac keeps_steps :=
  repeat apply Forall_cons_2; try apply Forall_nil_2; cbn [snd];
  unfold cell_34, cell_35, cell_36, cell_38, cell_39, cell_41, cell_42,
    cell_50, cell_51, cell_52, cell_53, cell_55, cell_56;
  repeat apply keeps_step_seq;
  first [ apply keeps_step_initialize | apply keeps_step_propagate_state
        | apply keeps_step_solve
        | apply keeps_step_check; auto with check ].

Lemma keeps_step_before_cell_42 fw : keeps_step (run (before_cell_42 fw)).
Proof. apply keeps_step_run. unfold before_cell_42. keeps_steps. Qed.

Lemma keeps_step_solve_stage fw : keeps_step (run (solve_stage fw)).
Proof. apply keeps_step_run. unfold solve_stage. keeps_steps. Qed.

Lemma keeps_step_before_cell_56 fw : keeps_step (run (before_cell_56 fw)).
Proof. apply keeps_step_run. unfold before_cell_56. keeps_steps. Qed.

Lemma keeps_step_optimum_stage fw : keeps_step (run (optimum_stage fw)).
Proof. apply keeps_step_run. unfold optimum_stage. keeps_steps. Qed.

(** *** The stages *)

Lemma square_stage_Ok s s' :
  run square_stage s = Ok s' →
  ∃ m25 m27,
    cell_25 (model s) = Ok m25 ∧ cell_27 m25 = Ok m27
    ∧ cell_29 m27 = Ok (model s') ∧ results s' = results s
    ∧ degrees_of_freedom (model s') = 0%Z.
Proof.
  unfold square_stage. intros H.
  apply run_cons_Ok in H as (s1 & (m25 & H25 & ->)%on_model_Ok & H).
  apply run_cons_Ok in H as (s2 & (m27 & H27 & ->)%on_model_Ok & H).
  apply run_cons_Ok in H as (s3 & (m29 & H29 & ->)%on_model_Ok & H).
  apply run_cons_Ok in H as (s4 & H32 & ->%run_nil_Ok).
  cbn [snd model results] in *. unfold cell_32 in H32.
  pose proof (check_step_assert_degrees_of_freedom _ _ _ H32) as ->.
  apply assert_degrees_of_freedom_Ok in H32. eauto 10.
Qed.

Lemma optimization_stage_Ok s s' :
  run optimization_stage s = Ok s' →
  ∃ m45,
    cell_45 (model s) = Ok m45 ∧ cell_47 m45 = Ok (model s')
    ∧ results s' = results s ∧ degrees_of_freedom (model s') = 2%Z.
Proof.
  unfold optimization_stage. intros H.
  apply run_cons_Ok in H as (s1 & (m45 & H45 & ->)%on_model_Ok & H).
  apply run_cons_Ok in H as (s2 & (m47 & H47 & ->)%on_model_Ok & H).
  apply run_cons_Ok in H as (s4 & H48 & ->%run_nil_Ok).
  cbn [snd model results] in *. unfold cell_48 in H48.
  pose proof (check_step_assert_degrees_of_freedom _ _ _ H48) as ->.
  apply assert_degrees_of_freedom_Ok in H48. eauto 10.
Qed.

Lemma optimum_stage_Ok fw s s' :
  run (optimum_stage fw) s = Ok s' →
  solve fw s = Ok s'
  ∧ (∃ r, results s' = Some r ∧ termination_condition r = optimal)
  ∧ cell_53 s' = Ok s' ∧ cell_56 s' = Ok s'.
Proof.
  unfold optimum_stage. intros H.
  apply run_cons_Ok in H as (s50 & H50 & H).
  apply run_cons_Ok in H as (s51 & H51 & H).
  apply run_cons_Ok in H as (s52 & H52 & H).
  apply run_cons_Ok in H as (s53 & H53 & H).
  apply run_cons_Ok in H as (s55 & H55 & H).
  apply run_cons_Ok in H as (s56 & H56 & ->%run_nil_Ok).
  cbn [snd] in *.
  assert (check_step cell_51) as C51 by (unfold cell_51; auto with check).
  assert (check_step (cell_52 fw)) as C52 by (unfold cell_52; auto 10 with check).
  assert (check_step cell_53) as C53 by (unfold cell_53; auto with check).
  assert (check_step cell_55) as C55 by (unfold cell_55; auto 10 with check).
  assert (check_step cell_56) as C56 by (unfold cell_56; auto 10 with check).
  pose proof (C56 _ _ H56) as ->. pose proof (C55 _ _ H55) as ->.
  pose proof (C53 _ _ H53) as ->. pose proof (C52 _ _ H52) as ->.
  pose proof (C51 _ _ H51) as ->.
  split; [exact H50|]. split; [by apply assert_optimal_Ok in H51|].
  split; [exact H53 | exact H56].
Qed.


(** ** From the specifications to the end of the notebook *)

Lemma toy_optimum_is_Ok : is_Ok (run (optimum_stage Toy.fw) Toy.s48) = true.
Proof. vm_compute. reflexivity. Qed.

Lemma toy_optimum_run : run (optimum_stage Toy.fw) Toy.s48 = Ok toy_final.
Proof.
  exact (state_after_Ok (run (optimum_stage Toy.fw) Toy.s48) Toy.s48
           toy_optimum_is_Ok).
Qed.

Lemma toy_notebook : notebook Toy.fw = Ok toy_final.
Proof.
  unfold notebook. rewrite fw_toy. cbn [mbind outcome_bind]. unfold cells.
  rewrite run_app, toy_build_run. cbn [mbind outcome_bind].
  rewrite run_app, toy_square_run. cbn [mbind outcome_bind].
  rewrite run_app, toy_solve_run. cbn [mbind outcome_bind].
  rewrite run_app, toy_optimization_run. cbn [mbind outcome_bind].
  exact toy_optimum_run.
Qed.

Lemma solve_stage_split fw : solve_stage fw = before_cell_42 fw ++ [(42, cell_42)].
Proof. reflexivity. Qed.

Lemma optimum_stage_split fw :
  optimum_stage fw = before_cell_56 fw ++ [(56, cell_56)].
Proof. reflexivity. Qed.

Lemma run_before_check cs a c s s' :
  check_step c → run (cs ++ [(a, c)]) s = Ok s' → run cs s = Ok s'.
Proof.
  intros Hc (s1 & H1 & H)%run_app_Ok.
  apply run_cons_Ok in H as (s2 & H2 & ->%run_nil_Ok).
  cbn [snd] in H2. by apply Hc in H2 as ->.
Qed.

Lemma toy_before_cell_42 :
  run (square_stage ++ before_cell_42 Toy.fw) Toy.s23 = Ok Toy.s42.
Proof.
  rewrite run_app, toy_square_run. cbn [mbind outcome_bind].
  apply (run_before_check _ 42 cell_42).
  - unfold cell_42. auto with check.
  - rewrite <- solve_stage_split. exact toy_solve_run.
Qed.

Lemma toy_before_cell_56 :
  run (optimization_stage ++ before_cell_56 Toy.fw) Toy.s42 = Ok toy_final.
Proof.
  rewrite run_app, toy_optimization_run. cbn [mbind outcome_bind].
  apply (run_before_check _ 56 cell_56).
  - unfold cell_56. auto 10 with check.
  - rewrite <- optimum_stage_split. exact toy_optimum_run.
Qed.

Lemma notebook_Ok fw s :
  notebook fw = Ok s →
  ∃ u s23 s32 s42 s48,
    fw_flowsheet fw = Ok u
    ∧ run (build_stage fw) (mkSession u None) = Ok s23
    ∧ run square_stage s23 = Ok s32
    ∧ run (solve_stage fw) s32 = Ok s42
    ∧ run optimization_stage s42 = Ok s48
    ∧ run (optimum_stage fw) s48 = Ok s.
Proof.
  unfold notebook. intros (u & Hu & H)%bind_Ok_inv. unfold cells in H.
  apply run_app_Ok in H as (s23 & H23 & H).
  apply run_app_Ok in H as (s32 & H32 & H).
  apply run_app_Ok in H as (s42 & H42 & H).
  apply run_app_Ok in H as (s48 & H48 & H).
  eauto 12.
Qed.

Lemma keeps_fixed_lookup S m m' x d :
  keeps_fixed S m m' → S x = false → vars m !! x = Some d → fixed d = true →
  vars m' !! x = Some d.
Proof. intros H. apply H. Qed.

(** After cell 27 the three unit specifications are fixed at their
    values. *)
Lemma cell_27_lookup m m' v q :
  cell_27 m = Ok m' → (v, q) ∈ unit_conditions →
  ∃ d, vars m !! v = Some d ∧ vars m' !! v = Some (fixed_at q d).
Proof.
  intros H Hin. rewrite cell_27_update_all in H.
  pose proof (update_all_lookup _ _ _ v H) as Hv.
  apply update_all_Ok in H as [Hdom _].
  assert (v ∈ dom (vars m)) as [d Hd]%elem_of_dom.
  { apply (proj1 (Forall_forall _ _) Hdom (v, fixed_at q)).
    by apply (list_elem_of_fmap_2 (λ c, (c.1, fixed_at c.2)) _ (v, q)). }
  exists d. split; [done|]. rewrite Hv, Hd.
  cbn [fmap option_fmap option_map]. apply f_equal.
  apply apply_fix_calls; [closed | done].
Qed.

(** After cell 29 the conversion is fixed at 0.80, with bounds 0 and 1. *)
Lemma cell_29_conversion m m' :
  cell_29 m = Ok m' →
  vars m' !! "fs.R101.conversion"
  = Some (mkVar (Some 0.80%Q) true (Some 0%Q) (Some 1%Q)).
Proof.
  unfold cell_29. intros (m1 & H1 & H)%seq_step_Ok_inv.
  apply seq_step_Ok_inv in H as (m2 & H2 & H3).
  apply update_var_Ok in H3 as [_ ->].
  rewrite vars_set_vars, lookup_alter_eq.
  rewrite (Constraint_lookup _ _ _ _ _ "fs.R101.conversion" H2) by reflexivity.
  unfold Var in H1. apply bind_Ok_inv in H1 as (m0 & _ & [= <-]).
  by rewrite vars_set_vars, lookup_insert_eq.
Qed.

(** After cell 47 the conversion is fixed at 0.90. *)
Lemma cell_47_conversion m m' :
  cell_47 m = Ok m' →
  ∃ d, vars m' !! "fs.R101.conversion" = Some (fixed_at 0.90%Q d).
Proof.
  intros H. rewrite cell_47_update_all in H.
  pose proof (update_all_lookup _ _ _ "fs.R101.conversion" H) as Hv.
  apply update_all_Ok in H as [Hdom _].
  apply Forall_cons in Hdom as [[d Hd]%elem_of_dom _]. cbn [fst] in Hd.
  exists d. by rewrite Hv, Hd.
Qed.

Lemma value_fixed_at (s : Session) v q d :
  vars (model s) !! v = Some (fixed_at q d) →
  value (model s) (VarRef v) = Ok q.
Proof. intros H. unfold value. cbn [eval]. unfold value_of. by rewrite H. Qed.

(** X10: when the second solve starts, the compressor outlet pressure still
    has the value 2 bar of cell 27, which lies below the lower bound 10 bar
    that cell 47 gave it: the first solve does not move a fixed variable
    and [unfix] keeps the value.  The heater outlet temperature starts at
    the 500 K of cell 27, with the upper bound 1000 K. *)
Theorem optimization_starts_below_the_pressure_bound
    (fw : Framework) (s s' : Session) :
  run (square_stage ++ solve_stage fw ++ optimization_stage) s = Ok s' →
  (∃ u, vars (model s') !! pressure "fs.C101.outlet"
        = Some (mkVar (Some (convert_bar_to_Pa 2)) false
                      (Some (convert_bar_to_Pa 10)) u))
  ∧ (∃ l, vars (model s') !! temperature "fs.H101.outlet"
          = Some (mkVar (Some 500%Q) false l (Some 1000%Q)))
  ∧ (convert_bar_to_Pa 2 < convert_bar_to_Pa 10)%Q.
Proof.
  intros H.
  apply run_app_Ok in H as (s32 & H32 & H).
  apply run_app_Ok in H as (s42 & H42 & H48).
  apply square_stage_Ok in H32 as (m25 & m27 & _ & H27 & H29 & _).
  apply keeps_fixed_cell_29 in H29. apply keeps_step_solve_stage in H42.
  apply optimization_stage_Ok in H48 as (m45 & H45%keeps_fixed_cell_45 & H47 & _).
  rewrite cell_47_update_all in H47.
  pose proof (keeps_fixed_trans _ _ _ _ _ H29 (keeps_fixed_trans _ _ _ _ _ H42 H45))
    as Hkeep.
  split; [|split; [|reflexivity]].
  - destruct (cell_27_lookup _ _ (pressure "fs.C101.outlet") (convert_bar_to_Pa 2) H27)
      as (d & _ & Hd); [listed|].
    apply (keeps_fixed_lookup _ _ _ _ _ Hkeep) in Hd; [|reflexivity|reflexivity].
    exists (ub d). by rewrite (update_all_lookup _ _ _ _ H47), Hd.
  - destruct (cell_27_lookup _ _ (temperature "fs.H101.outlet") 500%Q H27)
      as (d & _ & Hd); [listed|].
    apply (keeps_fixed_lookup _ _ _ _ _ Hkeep) in Hd; [|reflexivity|reflexivity].
    exists (lb d). by rewrite (update_all_lookup _ _ _ _ H47), Hd.
Qed.

Lemma toy_run_to_optimization :
  run (square_stage ++ solve_stage Toy.fw ++ optimization_stage) Toy.s23
  = Ok Toy.s48.
Proof.
  rewrite run_app, toy_square_run. cbn [mbind outcome_bind].
  rewrite run_app, toy_solve_run. cbn [mbind outcome_bind].
  exact toy_optimization_run.
Qed.

Lemma optimization_starts_below_the_pressure_bound_witness :
  (∃ u, vars (model Toy.s48) !! pressure "fs.C101.outlet"
        = Some (mkVar (Some (convert_bar_to_Pa 2)) false
                      (Some (convert_bar_to_Pa 10)) u))
  ∧ (∃ l, vars (model Toy.s48) !! temperature "fs.H101.outlet"
          = Some (mkVar (Some 500%Q) false l (Some 1000%Q)))
  ∧ (convert_bar_to_Pa 2 < convert_bar_to_Pa 10)%Q.
Proof.
  exact (optimization_starts_below_the_pressure_bound
           Toy.fw Toy.s23 Toy.s48 toy_run_to_optimization).
Defined.

(** X11: the two assertions on the conversion cannot fail.  At cell 42 the
    conversion has the value 0.80 at which cell 29 fixed it, and at cell 56
    the value 0.90 at which cell 47 fixed it, whatever the framework and the
    solver returned in between. *)
Theorem conversion_assertions_cannot_fail
    (fw : Framework) (s s41 s42 s55 : Session) :
  run (square_stage ++ before_cell_42 fw) s = Ok s41 →
  run (optimization_stage ++ before_cell_56 fw) s42 = Ok s55 →
  assert_approx (VarRef "fs.R101.conversion") (λ v, v) 0.800 s41 = Ok s41
  ∧ assert_approx (VarRef "fs.R101.conversion") (λ v, (v * 100)%Q) 90.0 s55
    = Ok s55.
Proof.
  intros H41 H55. split.
  - apply run_app_Ok in H41 as (s32 & H32 & H41).
    apply square_stage_Ok in H32 as (m25 & m27 & _ & _ & H29%cell_29_conversion & _).
    apply keeps_step_before_cell_42 in H41.
    apply (keeps_fixed_lookup _ _ _ _ _ H41) in H29; [|reflexivity|reflexivity].
    unfold assert_approx.
    by rewrite (value_fixed_at s41 _ 0.80%Q (mkVar None false (Some 0%Q) (Some 1%Q))).
  - apply run_app_Ok in H55 as (s48 & H48 & H55).
    apply optimization_stage_Ok in H48 as (m45 & _ & [d Hd]%cell_47_conversion & _).
    apply keeps_step_before_cell_56 in H55.
    apply (keeps_fixed_lookup _ _ _ _ _ H55) in Hd; [|reflexivity|reflexivity].
    unfold assert_approx. by rewrite (value_fixed_at s55 _ 0.90%Q d).
Qed.

Lemma conversion_assertions_cannot_fail_witness :
  assert_approx (VarRef "fs.R101.conversion") (λ v, v) 0.800 Toy.s42 = Ok Toy.s42
  ∧ assert_approx (VarRef "fs.R101.conversion") (λ v, (v * 100)%Q) 90.0 toy_final
    = Ok toy_final.
Proof.
  exact (conversion_assertions_cannot_fail Toy.fw Toy.s23 Toy.s42 Toy.s42 toy_final
           toy_before_cell_42 toy_before_cell_56).
Defined.

(** X12: a run of the whole notebook that returns ends in a session whose
    last solve reported [optimal], whose model has 2 degrees of freedom, and
    in which the assertions of cells 53 and 56 pass again: the printing and
    checking cells after the second solve change nothing.  The assertions of
    cells 23 and 32 (20 and 0 degrees of freedom) no longer hold there. *)
Theorem completed_notebook (fw : Framework) (s : Session) :
  notebook fw = Ok s →
  (∃ r, results s = Some r ∧ termination_condition r = optimal)
  ∧ degrees_of_freedom (model s) = 2%Z
  ∧ cell_53 s = Ok s ∧ cell_56 s = Ok s
  ∧ cell_23 s = Raised AssertionError ∧ cell_32 s = Raised AssertionError.
Proof.
  intros (u & s23 & s32 & s42 & s48 & _ & _ & _ & _ & H48 & H)%notebook_Ok.
  apply optimization_stage_Ok in H48 as (m45 & _ & _ & _ & Hdof).
  apply optimum_stage_Ok in H as (H50 & Hr & H53 & H56).
  assert (degrees_of_freedom (model s) = 2%Z) as Hdof'.
  { rewrite <- Hdof. apply degrees_of_freedom_same_structure.
    by apply (value_step_solve fw). }
  split; [done|]. split; [done|]. split; [done|]. split; [done|].
  split; apply assert_degrees_of_freedom_Raised; rewrite Hdof'; done.
Qed.

Lemma completed_notebook_witness :
  (∃ r, results toy_final = Some r ∧ termination_condition r = optimal)
  ∧ degrees_of_freedom (model toy_final) = 2%Z
  ∧ cell_53 toy_final = Ok toy_final ∧ cell_56 toy_final = Ok toy_final
  ∧ cell_23 toy_final = Raised AssertionError
  ∧ cell_32 toy_final = Raised AssertionError.
Proof. exact (completed_notebook Toy.fw toy_final toy_notebook). Defined.

Lemma specified_not_changed_later :
  Forall (λ v, named unit_specifications v || changed_later v = false)
         feed_conditions.*1.
Proof. closed. Qed.

Lemma fixed_at_lookup m x q d :
  vars m !! x = Some (fixed_at q d) →
  value_of m x = Some q ∧ is_fixed m x = true.
Proof. intros Hx. unfold value_of, is_fixed. by rewrite Hx. Qed.

(** X13: the specifications hold to the end.  In the session a completed
    notebook ends in, each of the sixteen feed variables is fixed and has
    the value of cell 25, the isentropic efficiency is fixed at the 0.90 of
    cell 27 and the conversion at the 0.90 of cell 47: no initialisation,
    no solve and no later cell moves them. *)
Theorem specifications_hold_to_the_end (fw : Framework) (s : Session) :
  notebook fw = Ok s →
  (∀ v q, (v, q) ∈ feed_conditions →
     value_of (model s) v = Some q ∧ is_fixed (model s) v = true)
  ∧ (value_of (model s) "fs.C101.efficiency_isentropic[0]" = Some 0.90%Q
     ∧ is_fixed (model s) "fs.C101.efficiency_isentropic[0]" = true)
  ∧ (value_of (model s) "fs.R101.conversion" = Some 0.90%Q
     ∧ is_fixed (model s) "fs.R101.conversion" = true).
Proof.
  intros (u & s23 & s32 & s42 & s48 & _ & _ & H32 & H42 & H48 & H)%notebook_Ok.
  apply square_stage_Ok in H32 as (m25 & m27 & H25 & H27 & H29 & _).
  apply optimization_stage_Ok in H48 as (m45 & H45 & H47 & _).
  pose proof (cell_47_conversion _ _ H47) as [dc Hc].
  apply keeps_step_optimum_stage in H.
  assert (keeps_fixed changed_later m27 (model s)) as Hlate.
  { apply keeps_fixed_cell_29 in H29. apply keeps_step_solve_stage in H42.
    apply keeps_fixed_cell_45 in H45.
    rewrite cell_47_update_all in H47. apply keeps_fixed_update_all in H47.
    exact (keeps_fixed_trans _ _ _ _ _ H29
             (keeps_fixed_trans _ _ _ _ _ H42
                (keeps_fixed_trans _ _ _ _ _ H45
                   (keeps_fixed_trans _ _ _ _ _ H47 H)))). }
  split; [|split].
  - intros v q Hin. destruct (cell_25_lookup _ _ _ _ H25 Hin) as (d & _ & Hd).
    apply (fixed_at_lookup _ _ _ d).
    pose proof specified_not_changed_later as Hv.
    apply (proj1 (Forall_forall _ _)) with (x := v) in Hv;
      [|exact (list_elem_of_fmap_2 fst _ (v, q) Hin)].
    apply orb_false_elim in Hv as [Hv1 Hv2].
    apply (keeps_fixed_lookup _ _ _ _ _ Hlate); [exact Hv2| |reflexivity].
    rewrite cell_27_update_all in H27. apply keeps_fixed_update_all in H27.
    apply (keeps_fixed_lookup _ _ _ _ _ H27); [|exact Hd|reflexivity].
    rewrite fix_calls_keys, unit_conditions_keys. exact Hv1.
  - destruct (cell_27_lookup _ _ "fs.C101.efficiency_isentropic[0]" 0.90%Q H27)
      as (d & _ & Hd); [listed|].
    apply (fixed_at_lookup _ _ _ d).
    apply (keeps_fixed_lookup _ _ _ _ _ Hlate); [reflexivity|exact Hd|reflexivity].
  - apply (fixed_at_lookup _ _ _ dc).
    apply (keeps_fixed_lookup _ _ _ _ _ H); [reflexivity|exact Hc|reflexivity].
Qed.

Lemma specifications_hold_to_the_end_witness :
  (∀ v q, (v, q) ∈ feed_conditions →
     value_of (model toy_final) v = Some q ∧ is_fixed (model toy_final) v = true)
  ∧ (value_of (model toy_final) "fs.C101.efficiency_isentropic[0]" = Some 0.90%Q
     ∧ is_fixed (model toy_final) "fs.C101.efficiency_isentropic[0]" = true)
  ∧ (value_of (model toy_final) "fs.R101.conversion" = Some 0.90%Q
     ∧ is_fixed (model toy_final) "fs.R101.conversion" = true).
Proof. exact (specifications_hold_to_the_end Toy.fw toy_final toy_notebook). Defined.


(** ** What the numeric assertions accept *)





(** ** Cell 34 *)

(** X15: cell 34 initialises along the streams.  The cell is the run of
    its thirteen calls; no call occurs twice; and for every arc of cell 14
    the unit the arc leaves is initialised first, then the state is
    propagated along the arc, and only then the unit the arc enters is
    initialised. *)
Theorem initialization_follows_the_streams :
  (∀ fw s, cell_34 fw s = do_calls fw cell_34_calls s)
  ∧ NoDup cell_34_calls
  ∧ ∀ a, a ∈ flowsheet_arcs →
      ∃ i j k, (i < j < k)%nat
        ∧ cell_34_calls !! i = Some (Initialize (parent_block (source a.2)))
        ∧ cell_34_calls !! j = Some (PropagateState a.1)
        ∧ cell_34_calls !! k = Some (Initialize (parent_block (destination a.2))).
Proof.
  split; [reflexivity|]. split; [closed|].
  apply Forall_forall. unfold flowsheet_arcs.
  repeat apply Forall_cons_2; [| | | | | |apply Forall_nil_2].
  - exists 0%nat, 1%nat, 4%nat. repeat split; (lia || reflexivity).
  - exists 2%nat, 3%nat, 4%nat. repeat split; (lia || reflexivity).
  - exists 4%nat, 5%nat, 6%nat. repeat split; (lia || reflexivity).
  - exists 6%nat, 7%nat, 8%nat. repeat split; (lia || reflexivity).
  - exists 8%nat, 9%nat, 10%nat. repeat split; (lia || reflexivity).
  - exists 10%nat, 11%nat, 12%nat. repeat split; (lia || reflexivity).
Qed.

(** ** Expanding arcs again *)

Lemma expand_fold_Raised l e :
  foldl (λ acc a, acc ≫= expand_arc a) (Raised e) l = Raised e.
Proof. by induction l. Qed.

Lemma expand_arc_Ok a m m' :
  expand_arc a m = Ok m' →
  arcs m' = arcs m
  ∧ length (constraints m')
    = (length (constraints m) + if arc_active a.2 then 8 else 0)%nat.
Proof.
  unfold expand_arc. destruct (arc_active a.2).
  - intros [= <-]. cbn [arcs constraints]. split; [done|].
    rewrite length_app. reflexivity.
  - intros [= <-]. split; [done | lia].
Qed.

Lemma expand_fold_inv l m m' :
  foldl (λ acc a, acc ≫= expand_arc a) (Ok m) l = Ok m' →
  arcs m' = arcs m
  ∧ length (constraints m')
    = (length (constraints m)
       + 8 * length (filter (λ a, arc_active a.2 = true) l))%nat.
Proof.
  revert m. induction l as [|a l IH]; intros m H.
  - injection H as <-. split; [done | simpl; lia].
  - cbn [foldl mbind outcome_bind] in H.
    destruct (expand_arc a m) as [m1|e] eqn:Ha;
      [|by rewrite expand_fold_Raised in H].
    apply expand_arc_Ok in Ha as [Ha Hl]. apply IH in H as [-> ->].
    split; [done|]. rewrite Hl, filter_cons.
    destruct (arc_active a.2); [rewrite decide_True by done | rewrite decide_False by done];
      simpl; lia.
Qed.

Lemma expand_fold_inactive l m :
  Forall (λ a, arc_active a.2 = false) l →
  foldl (λ acc a, acc ≫= expand_arc a) (Ok m) l = Ok m.
Proof.
  induction 1 as [|a l Ha _ IH]; [done|].
  cbn [foldl mbind outcome_bind]. unfold expand_arc at 2. by rewrite Ha.
Qed.

Lemma deactivate_inactive (l : list (string * ArcData)) :
  Forall (λ a, arc_active a.2 = false) (deactivate <$> l).
Proof. apply Forall_fmap, Forall_forall. done. Qed.

Lemma deactivate_again (l : list (string * ArcData)) :
  deactivate <$> (deactivate <$> l) = deactivate <$> l.
Proof.
  rewrite <- list_fmap_compose. apply list_fmap_ext.
  intros i [n [src dst act]] _. reflexivity.
Qed.

(** X16: the expansion of the arcs can be run again: on the model it
    returned, cell 16 returns the same model, since every arc is
    deactivated by the first run.  A run of cell 16 adds eight equality
    constraints for every active arc, one per state variable of a stream. *)
Theorem expand_arcs_again (m m' : Model) :
  cell_16 m = Ok m' →
  cell_16 m' = Ok m'
  ∧ Forall (λ a, arc_active a.2 = false) (arcs m')
  ∧ length (constraints m')
    = (length (constraints m)
       + 8 * length (filter (λ a, arc_active a.2 = true) (arcs m)))%nat.
Proof.
  unfold cell_16, expand_arcs. intros (m1 & H1 & [= <-])%bind_Ok_inv.
  apply expand_fold_inv in H1 as [Ha Hl]. cbn [arcs constraints].
  split; [|split; [apply deactivate_inactive | done]].
  rewrite expand_fold_inactive by apply deactivate_inactive.
  cbn [mbind outcome_bind components ports vars params constraints expressions
         objectives arcs].
  by rewrite deactivate_again.
Qed.

Lemma toy_14_Ok : cell_14 Toy.units = Ok toy_14.
Proof. apply model_after_Ok. vm_compute. reflexivity. Qed.

Lemma toy_16_Ok : cell_16 toy_14 = Ok toy_16.
Proof. apply model_after_Ok. vm_compute. reflexivity. Qed.

Lemma expand_arcs_again_witness :
  cell_16 toy_16 = Ok toy_16
  ∧ Forall (λ a, arc_active a.2 = false) (arcs toy_16)
  ∧ length (constraints toy_16)
    = (length (constraints toy_14)
       + 8 * length (filter (λ a, arc_active a.2 = true) (arcs toy_14)))%nat.
Proof. exact (expand_arcs_again toy_14 toy_16 toy_16_Ok). Defined.


(** ** Cell 29 and the degrees of freedom *)

Lemma add_component_used name m :
  name ∈ components m →
  add_component name m = Ok (declare name (del_component name m)).
Proof. intros H. unfold add_component. by rewrite decide_True. Qed.

Lemma unused_components name m : unused name m → name ∉ components m.
Proof.
  intros H%(f_equal components) Hin. cbn [del_component components] in H.
  rewrite <- H in Hin. apply elem_of_filter in Hin as [Hin _].
  unfold owned in Hin. by rewrite String.eqb_refl in Hin.
Qed.

Lemma unused_vars name m : unused name m → vars m !! name = None.
Proof.
  intros H%(f_equal vars). cbn [del_component vars] in H.
  rewrite <- H. apply map_lookup_filter_None_2. right. intros d _.
  cbn [fst]. unfold owned. by rewrite String.eqb_refl.
Qed.

Lemma unused_inv name m :
  unused name m →
  filter (λ n, owned name n = false) (components m) = components m
  ∧ filter (λ n, owned name n = false) (ports m) = ports m
  ∧ filter (λ kv, owned name kv.1 = false) (vars m) = vars m
  ∧ filter (λ kv, owned name kv.1 = false) (params m) = params m
  ∧ filter (λ c, owned name c.1 = false) (constraints m) = constraints m
  ∧ filter (λ c, owned name c.1 = false) (expressions m) = expressions m
  ∧ filter (λ c, owned name c.1 = false) (objectives m) = objectives m
  ∧ filter (λ c, owned name c.1 = false) (arcs m) = arcs m.
Proof.
  intros H. unfold unused in H.
  repeat split;
    [ exact (f_equal components H) | exact (f_equal ports H)
    | exact (f_equal vars H) | exact (f_equal params H)
    | exact (f_equal constraints H) | exact (f_equal expressions H)
    | exact (f_equal objectives H) | exact (f_equal arcs H) ].
Qed.

Lemma filter_list_same {A : Type} (f : A → bool) (l : list A) :
  forallb (λ x, negb (f x)) l = true → filter (λ x, f x = false) l = l.
Proof.
  induction l as [|x l IH]; [done|]. cbn [forallb].
  intros [Hx Hl]%andb_true_iff. apply negb_true_iff in Hx.
  by rewrite filter_cons_True, IH.
Qed.

Lemma filter_set_same (f : string → bool) (X : gset string) :
  forallb (λ x, negb (f x)) (elements X) = true → filter (λ x, f x = false) X = X.
Proof.
  intros H. apply set_eq. intros x. rewrite elem_of_filter.
  split; [by intros [_ ?]|]. intros Hx. split; [|done].
  apply negb_true_iff.
  apply (proj1 (forallb_forall _ _) H), list_elem_of_In, elem_of_elements, Hx.
Qed.

Lemma filter_map_same {A : Type} (f : string → bool) (V : gmap string A) :
  forallb (λ kv, negb (f kv.1)) (map_to_list V) = true →
  filter (λ kv, f kv.1 = false) V = V.
Proof.
  intros H. apply map_filter_id. intros i x Hx. apply negb_true_iff.
  apply (proj1 (forallb_forall _ _) H (i, x)), list_elem_of_In.
  by apply elem_of_map_to_list.
Qed.

Lemma unused_check_unused name m : unused_check name m = true → unused name m.
Proof.
  unfold unused_check, no_key. rewrite !andb_true_iff.
  intros [[[[[[[H1 H2] H3] H4] H5] H6] H7] H8].
  unfold unused, del_component.
  rewrite (filter_set_same _ _ H1), (filter_set_same _ _ H2),
    (filter_map_same _ _ H3), (filter_map_same _ _ H4),
    (filter_list_same (λ c, owned name c.1) _ H5),
    (filter_list_same (λ c, owned name c.1) _ H6),
    (filter_list_same (λ c, owned name c.1) _ H7),
    (filter_list_same (λ c, owned name c.1) _ H8).
  by destruct m.
Qed.

Lemma cell_29_fresh m :
  "fs.R101.conversion" ∉ components m →
  "fs.R101.conv_constraint" ∉ components m →
  (∀ v, v ∈ reactor_streams → v ∈ dom (vars m)) →
  cell_29 m = Ok (with_conversion m).
Proof.
  intros Hc Hcc Hv. apply yields_eq. unfold cell_29.
  apply yields_seq, yields_Var; unfold_model; [exact Hc |].
  apply yields_seq, yields_Constraint; unfold_model.
  - rewrite dom_insert_L.
    transitivity ({[ "fs.R101.conversion" ]} ∪ list_to_set reactor_streams : gset string);
      [closed|]. apply union_mono_l, subseteq_of_forall, Hv.
  - transitivity (∅ : gset string); [closed | set_solver].
  - apply not_elem_of_union. split; [apply not_elem_of_singleton; closed | exact Hcc].
  - apply yields_update_var; unfold_model.
    + rewrite dom_insert_L. set_solver.
    + rewrite alter_insert_eq. unfold_model. cbn [lb ub]. unfold with_conversion.
      f_equal. set_solver.
Qed.

(** Deleting the conversion from the model with the conversion leaves the
    constraint, and deleting the constraint leaves the variable. *)
Lemma del_conversion m d :
  unused "fs.R101.conversion" m →
  del_component "fs.R101.conversion"
    (mkModel (list_to_set ["fs.R101.conversion"; "fs.R101.conv_constraint"] ∪ components m)
             (ports m) (<["fs.R101.conversion" := d]> (vars m)) (params m)
             (constraints m ++ [conv_constraint]) (expressions m) (objectives m)
             (arcs m))
  = mkModel ({[ "fs.R101.conv_constraint" ]} ∪ components m) (ports m) (vars m)
            (params m) (constraints m ++ [conv_constraint]) (expressions m)
            (objectives m) (arcs m).
Proof.
  intros H. pose proof (unused_vars _ _ H) as Hv.
  unfold del_component.
  cbn [components ports vars params constraints expressions objectives arcs].
  rewrite (filter_union_L (C:=gset string)), filter_app; [|apply _].
  rewrite map_filter_insert_False by (cbn [fst]; closed).
  rewrite (delete_id _ _ Hv).
  destruct (unused_inv _ _ H) as (-> & -> & -> & -> & -> & -> & -> & ->).
  assert (filter (λ n, owned "fs.R101.conversion" n = false)
            (list_to_set ["fs.R101.conversion"; "fs.R101.conv_constraint"])
          = ({[ "fs.R101.conv_constraint" ]} : gset string)) as -> by (by vm_compute).
  assert (filter (λ c : string * ConstraintData, owned "fs.R101.conversion" c.1 = false)
            [conv_constraint] = [conv_constraint]) as -> by (by vm_compute).
  reflexivity.
Qed.

Lemma del_conv_constraint m d :
  unused "fs.R101.conv_constraint" m →
  del_component "fs.R101.conv_constraint"
    (mkModel ({[ "fs.R101.conversion" ]} ∪ ({[ "fs.R101.conv_constraint" ]} ∪ components m))
             (ports m) (<["fs.R101.conversion" := d]> (vars m)) (params m)
             (constraints m ++ [conv_constraint]) (expressions m) (objectives m)
             (arcs m))
  = mkModel ({[ "fs.R101.conversion" ]} ∪ components m) (ports m)
            (<["fs.R101.conversion" := d]> (vars m))
            (params m) (constraints m) (expressions m) (objectives m) (arcs m).
Proof.
  intros H. unfold del_component.
  cbn [components ports vars params constraints expressions objectives arcs].
  rewrite !(filter_union_L (C:=gset string)), filter_app; [|apply _..].
  rewrite map_filter_insert_True by (cbn [fst]; closed).
  destruct (unused_inv _ _ H) as (-> & -> & -> & -> & -> & -> & -> & ->).
  assert (filter (λ n, owned "fs.R101.conv_constraint" n = false)
            ({[ "fs.R101.conversion" ]} : gset string)
          = {[ "fs.R101.conversion" ]}) as -> by (by vm_compute).
  assert (filter (λ n, owned "fs.R101.conv_constraint" n = false)
            ({[ "fs.R101.conv_constraint" ]} : gset string) = ∅) as -> by (by vm_compute).
  assert (filter (λ c : string * ConstraintData,
                    owned "fs.R101.conv_constraint" c.1 = false)
            [conv_constraint] = []) as -> by (by vm_compute).
  by rewrite union_empty_l_L, app_nil_r.
Qed.

Lemma cell_29_again m :
  unused "fs.R101.conversion" m → unused "fs.R101.conv_constraint" m →
  (∀ v, v ∈ reactor_streams → v ∈ dom (vars m)) →
  cell_29 (with_conversion m) = Ok (with_conversion m).
Proof.
  intros Hc Hcc Hv. unfold cell_29, seq_step, Var.
  rewrite add_component_used
    by (unfold with_conversion; cbn [components]; set_solver).
  unfold with_conversion at 1. rewrite (del_conversion _ _ Hc).
  unfold declare, set_vars.
  cbn [mbind outcome_bind components ports vars params constraints expressions
         objectives arcs].
  unfold Constraint.
  rewrite check_declared_Ok; cycle 1.
  { cbn [vars]. rewrite dom_insert_L.
    transitivity ({[ "fs.R101.conversion" ]} ∪ list_to_set reactor_streams : gset string);
      [closed|]. apply union_mono_l, subseteq_of_forall, Hv. }
  { transitivity (∅ : gset string); [closed | set_solver]. }
  cbn [mbind outcome_bind].
  rewrite check_declared_Ok; cycle 1.
  { cbn [vars]. rewrite dom_insert_L.
    transitivity ({[ "fs.R101.conversion" ]} ∪ list_to_set reactor_streams : gset string);
      [closed|]. apply union_mono_l, subseteq_of_forall, Hv. }
  { transitivity (∅ : gset string); [closed | set_solver]. }
  cbn [mbind outcome_bind].
  rewrite add_component_used by (cbn [components]; set_solver).
  rewrite (del_conv_constraint _ _ Hcc).
  unfold declare, set_vars.
  cbn [mbind outcome_bind components ports vars params constraints expressions
         objectives arcs].
  unfold fix_var, update_var. cbn [vars]. rewrite lookup_insert_eq.
  unfold set_vars.
  cbn [components ports vars params constraints expressions objectives arcs].
  rewrite alter_insert_eq. cbn [lb ub]. unfold with_conversion.
  f_equal. f_equal. set_solver.
Qed.

Lemma conversion_constraint_reads :
  constraint_variables conv_constraint.2
  = list_to_set ("fs.R101.conversion" :: reactor_streams).
Proof. closed. Qed.

Lemma degrees_of_freedom_with_conversion m :
  vars m !! "fs.R101.conversion" = None →
  (∀ v, v ∈ reactor_streams → v ∈ variables_in_activated_equalities m) →
  degrees_of_freedom (with_conversion m) = (degrees_of_freedom m - 1)%Z.
Proof.
  intros Hc Hs.
  rewrite (degrees_of_freedom_change m (with_conversion m) [] [conv_constraint.2]);
    [cbn [length]; lia | | | | |].
  - apply NoDup_nil_2.
  - unfold activated_equalities, with_conversion. cbn [constraints].
    by rewrite fmap_app, filter_app.
  - intros c v ->%list_elem_of_singleton.
    rewrite conversion_constraint_reads, elem_of_list_to_set, elem_of_cons.
    intros [-> | Hin]; [right | left; by apply Hs].
    unfold is_unfixed, with_conversion. cbn [vars]. by rewrite lookup_insert_eq.
  - intros x. rewrite bool_decide_true by apply not_elem_of_nil.
    rewrite andb_true_r. unfold is_unfixed, with_conversion. cbn [vars].
    destruct (decide (x = "fs.R101.conversion")) as [-> | Hx].
    + by rewrite lookup_insert_eq, Hc.
    + by rewrite lookup_insert_ne.
  - intros x Hx. by apply elem_of_nil in Hx.
Qed.

(** X17: on a model in which the names [fs.R101.conversion] and
    [fs.R101.conv_constraint] are not in use and the four stream variables
    the constraint reads (flow and methane mole fraction at the inlet and at
    the outlet of R101) are declared and occur in activated equality
    constraints, cell 29 returns and lowers the degrees of freedom by exactly
    one: the new variable is fixed and the new equality counts.  Run again on
    its result, the cell replaces the variable and the constraint by equal
    ones and returns the same model, so the degrees of freedom stay as they
    are. *)
Theorem cell_29_and_degrees_of_freedom (m : Model) :
  unused "fs.R101.conversion" m →
  unused "fs.R101.conv_constraint" m →
  (∀ v, v ∈ reactor_streams →
        v ∈ dom (vars m) ∧ v ∈ variables_in_activated_equalities m) →
  ∃ m', cell_29 m = Ok m'
        ∧ degrees_of_freedom m' = (degrees_of_freedom m - 1)%Z
        ∧ cell_29 m' = Ok m'.
Proof.
  intros Hc Hcc Hs. exists (with_conversion m). split; [|split].
  - apply cell_29_fresh; [by apply unused_components.. |]. intros v Hv. by apply Hs.
  - apply degrees_of_freedom_with_conversion; [by apply unused_vars|].
    intros v Hv. by apply Hs.
  - apply cell_29_again; [done | done |]. intros v Hv. by apply Hs.
Qed.

Lemma toy_conversion_unused :
  unused "fs.R101.conversion" Toy.units ∧ unused "fs.R101.conv_constraint" Toy.units.
Proof. split; apply unused_check_unused; vm_compute; reflexivity. Qed.

Lemma toy_reactor_streams v :
  v ∈ reactor_streams →
  v ∈ dom (vars Toy.units) ∧ v ∈ variables_in_activated_equalities Toy.units.
Proof. revert v. apply Forall_forall. closed. Qed.

Lemma cell_29_and_degrees_of_freedom_witness :
  ∃ m', cell_29 Toy.units = Ok m'
        ∧ degrees_of_freedom m' = (degrees_of_freedom Toy.units - 1)%Z
        ∧ cell_29 m' = Ok m'.
Proof.
  exact (cell_29_and_degrees_of_freedom Toy.units (proj1 toy_conversion_unused)
           (proj2 toy_conversion_unused) toy_reactor_streams).
Defined.


(** ** What the cells do to the count of the framework's flowsheet *)

(** X18: whatever the degrees of freedom of the built flowsheet are, the
    specification cells 25, 27 and 29 take exactly twenty of them, and,
    after any solve stage that returns, the cells 45 and 47 of the
    optimisation give two back.  The cells of the build (14, 16, 19, 20),
    of the specification and of the optimisation set-up all return on a
    flowsheet whose unit models declare what the notebook names. *)
Theorem degrees_of_freedom_differences (fw : Framework) (u : Model) :
  framework_ok u = true →
  ∃ m20 m29,
    (cell_14 >=> cell_16 >=> cell_19 (fw_Mlb_per_yr fw) >=> cell_20) u = Ok m20
    ∧ (cell_25 >=> cell_27 >=> cell_29) m20 = Ok m29
    ∧ degrees_of_freedom m29 = (degrees_of_freedom m20 - 20)%Z
    ∧ ∀ r s42, run (solve_stage fw) (mkSession m29 r) = Ok s42 →
        ∃ m47, (cell_45 >=> cell_47) (model s42) = Ok m47
               ∧ degrees_of_freedom m47 = (degrees_of_freedom m20 - 18)%Z.
Proof.
  intros Hok. set (k := fw_Mlb_per_yr fw).
  destruct (square_cells_yields u k
              (λ m1, ∃ m', fixes (unit_specifications ++ feed_variables)
                                 (flowsheet_model u k) m'
                           ∧ m1 = with_conversion m') Hok)
    as (m1 & Hrun & m' & Hm' & ->); [by eauto|].
  exists (flowsheet_model u k), (with_conversion m').
  split; [exact (build_cells_Ok u k Hok)|]. split; [exact Hrun|].
  pose proof (degrees_of_freedom_square u k m' Hok Hm') as Hdof.
  split; [exact Hdof|].
  intros r s42 Hsolve. apply solve_stage_value_only in Hsolve.
  cbn [model] in Hsolve.
  assert (square_model u k (model s42)) as Hsq
    by exact (square_model_intro u k m' _ Hok Hm' Hsolve).
  destruct (square_model_optimization u k _ Hok Hsq) as [Hopt Hd].
  exists (optimization_model (model s42)). split; [exact Hopt|].
  rewrite Hd, (square_degrees_of_freedom _ _ _ Hsq). lia.
Qed.

Lemma degrees_of_freedom_differences_witness :
  ∃ m20 m29,
    (cell_14 >=> cell_16 >=> cell_19 (fw_Mlb_per_yr Toy.fw) >=> cell_20) Toy.units
    = Ok m20
    ∧ (cell_25 >=> cell_27 >=> cell_29) m20 = Ok m29
    ∧ degrees_of_freedom m29 = (degrees_of_freedom m20 - 20)%Z
    ∧ ∀ r s42, run (solve_stage Toy.fw) (mkSession m29 r) = Ok s42 →
        ∃ m47, (cell_45 >=> cell_47) (model s42) = Ok m47
               ∧ degrees_of_freedom m47 = (degrees_of_freedom m20 - 18)%Z.
Proof. exact (degrees_of_freedom_differences Toy.fw Toy.units toy_units_ok). Defined.
